(** * Optimal routes in Manhattan: slot graphs, node degrees, route simulation

    A shallow embedding of the graph-building and route-simulation code of
    [analyze_node_degrees.py] and [analyze_routes.py], and of the split of
    the slot keys in [final_analysis.py].

    Numbers.  Travel times are Python floats in the source.  They are
    modelled by exact rationals ([Q]); rounding error of float addition is
    outside the model.  Hours, start times and the entries of
    [arrival_times] are whole numbers in the source (a float produced by
    [//] has an integral value) and are modelled by [Z].  Where a property
    is an equality between two sums that the code accumulates separately,
    rounding decides it: the two running totals of [calculate_route_time]
    are therefore also given in binary64 ([analyze_routes_binary64]).

    Python outcomes.  A call either returns a value or raises; [result]
    records which.  The pair [(None, None)] returned by
    [calculate_route_time] is the [None] of an [option].

    Tables.  A pandas table is the list of its rows.  The trip table is
    taken without missing values; the one NaN that the code itself can
    produce, a position of a block without mean coordinates, is an
    [option]. *)

From Stdlib Require Import QArith Qround Lqa Floats.
From stdpp Require Import gmap strings list fin_maps pretty sorting.

Local Open Scope Z_scope.

(** ** Python outcomes *)

Inductive exn : Type :=
  | NodeNotFound (n : string)
  | NetworkXNoPath (source target : string)
  | TypeError.

Inductive result (A : Type) : Type :=
  | Ok (a : A)
  | Raise (e : exn).
Arguments Ok {A} a.
Arguments Raise {A} e.

(** ** The part of networkx the scripts use

    [nx.Graph] keeps a node dictionary and, per node, a dictionary of
    neighbours; both have the same keys, so one map from node to
    (attributes, neighbours) represents them.  The only edge attribute the
    scripts set is [weight], the only node attribute is [pos]. *)

Module nx.

Record node_data : Type := NodeData {
  pos : option (Q * Q);
  nbrs : gmap string Q
}.

Abbreviation Graph := (gmap string node_data).

(** [nx.Graph()] *)
Definition empty : Graph := ∅.

(** [G.add_node(n, pos=p)]: a new node gets an empty neighbour dictionary,
    an existing one only has its attribute updated. *)
Definition add_node (n : string) (p : Q * Q) (G : Graph) : Graph :=
  match G !! n with
  | None => <[n := NodeData (Some p) ∅]> G
  | Some d => <[n := NodeData (Some p) (nbrs d)]> G
  end.

(** The first half of [add_edge]: an endpoint that is not a node yet is
    created without attributes. *)
Definition ensure_node (n : string) (G : Graph) : Graph :=
  match G !! n with
  | None => <[n := NodeData None ∅]> G
  | Some _ => G
  end.

Definition set_nbr (v : string) (w : Q) (d : node_data) : node_data :=
  NodeData (pos d) (<[v := w]> (nbrs d)).

(** [G.add_edge(u, v, weight=w)]: [_adj[u][v]] and then [_adj[v][u]] are
    set; an edge that exists already has its weight overwritten. *)
Definition add_edge (u v : string) (w : Q) (G : Graph) : Graph :=
  let G := ensure_node u G in
  let G := ensure_node v G in
  let G := alter (set_nbr v w) u G in
  alter (set_nbr u w) v G.

(** [n in G] *)
Definition has_node (G : Graph) (n : string) : bool :=
  bool_decide (is_Some (G !! n)).

(** [len(G)], the number of nodes; [Graph] defines no [__bool__], so the
    truth value of a graph is [len(G) != 0]. *)
Definition len (G : Graph) : nat := size G.

Definition truthy (G : Graph) : bool := negb (Nat.eqb (len G) 0).

Definition neighbors (G : Graph) (n : string) : gmap string Q :=
  match G !! n with
  | Some d => nbrs d
  | None => ∅
  end.

(** [G.degree(n)] is [len(nbrs) + (n in nbrs)]: a self-loop counts twice.
    networkx raises for a node that is not in the graph; the one call in
    the scripts is guarded by [n in G], and the model gives 0 there. *)
Definition degree (G : Graph) (n : string) : nat :=
  (size (neighbors G n) + (if bool_decide (is_Some (neighbors G n !! n)) then 1 else 0))%nat.

(** *** Shortest path length

    [nx.dijkstra_path_length(G, source, target, weight='weight')] by its
    contract: [NodeNotFound] when the source is not a node, 0 when source
    and target coincide, [NetworkXNoPath] when the target is not reached,
    else the least total weight of a path.  Weights are travel times and
    taken non-negative; the least weight is found by relaxing every edge
    [len(G)] times.  That this computes the contract is proved below
    ([dijkstra_Ok_walk], [dijkstra_Ok_least], [dijkstra_connected_Ok]).

    The contract is for graphs without a negative weight.  With a negative
    weight networkx may return a length that is not the least, or raise
    [ValueError]; such graphs are outside this model, and the properties
    below that depend on the returned length or on the exception assume
    that no weight is negative. *)

Definition relax_edge (dv : Q) (u : string) (w : Q) (dist : gmap string Q)
  : gmap string Q :=
  let d := Qred (dv + w) in
  match dist !! u with
  | Some du => if Qlt_le_dec d du then <[u := d]> dist else dist
  | None => <[u := d]> dist
  end.

Definition relax_node (G : Graph) (v : string) (dv : Q) (dist : gmap string Q)
  : gmap string Q :=
  map_fold (relax_edge dv) dist (neighbors G v).

Definition relax (G : Graph) (dist : gmap string Q) : gmap string Q :=
  map_fold (relax_node G) dist dist.

Definition distances (G : Graph) (source : string) : gmap string Q :=
  Nat.iter (len G) (relax G) {[source := 0%Q]}.

Definition dijkstra_path_length (G : Graph) (source target : string) : result Q :=
  if negb (has_node G source) then Raise (NodeNotFound source)
  else if bool_decide (source = target) then Ok 0%Q
  else match distances G source !! target with
       | Some d => Ok d
       | None => Raise (NetworkXNoPath source target)
       end.

End nx.

(** ** pandas: the table operations of the scripts

    A table is the list of its rows, in the order of the table.  The
    columns hold numbers and strings; missing values (NaN) are written
    with [option] at the one place where an operation produces them, the
    left join. *)

Module pd.

(** [Series.mean] of a column of numbers, as the exact quotient of sum and
    count: the rounding of the binary64 mean is outside the model.  The
    scripts take means of groups, which are never empty. *)
Definition mean (column : list Q) : Q :=
  (foldr Qplus 0 column / inject_Z (Z.of_nat (length column)))%Q.

(** Equality of numbers is decided by comparing them. *)
#[global] Instance Qeq_decision : RelDecision Qeq := Qeq_dec.

(** The order of tuples: the first component that differs decides. *)
Definition lex {A B : Type} (RA : relation A) (RB : relation B)
  : relation (A * B) :=
  λ p q, (p.1 ≠ q.1 ∧ RA p.1 q.1) ∨ (p.1 = q.1 ∧ RB p.2 q.2).

#[global] Instance lex_dec {A B : Type} `{EqDecision A}
    (RA : relation A) (RB : relation B)
    `{!RelDecision RA, !RelDecision RB} : RelDecision (lex RA RB).
Proof. intros p q. unfold lex. apply _. Defined.

(** [df.groupby(by)] with the default [sort=True]: one group for every
    key that occurs, in ascending order of the keys, each with its rows in
    the order of the table. *)
Definition groupby {A K : Type} `{EqDecision K} (le : relation K)
    `{!RelDecision le} (by_ : A → K) (df : list A) : list (K * list A) :=
  (λ k, (k, filter (λ row, by_ row = k) df))
    <$> merge_sort le (remove_dups (by_ <$> df)).

(** [left.merge(right, left_on=.., right_on=.., how='left')]: every row of
    [left], in order, once with each row of [right] that has its key, and
    once without a partner ([None]: NaN columns) when there is none. *)
Definition merge_left {A B K : Type} `{EqDecision K}
    (left_on : A → K) (right_on : B → K) (left : list A) (right : list B)
  : list (A * option B) :=
  row ← left;
  match filter (λ r, right_on r = left_on row) right with
  | [] => [(row, None)]
  | partners => (λ r, (row, Some r)) <$> partners
  end.

(** [df.drop_duplicates()]: the first row of every class of equal rows is
    kept. *)
Fixpoint drop_duplicates_after {A : Type} (same : relation A)
    `{!RelDecision same} (seen df : list A) : list A :=
  match df with
  | [] => []
  | row :: df' =>
      if decide (Exists (same row) seen)
      then drop_duplicates_after same seen df'
      else row :: drop_duplicates_after same (row :: seen) df'
  end.

Definition drop_duplicates {A : Type} (same : relation A)
    `{!RelDecision same} (df : list A) : list A :=
  drop_duplicates_after same [] df.

End pd.


(** ** analyze_node_degrees.py *)

Module analyze_node_degrees.

Definition TARGET_NODES : list string :=
  ["10113001008"; "10076001001"; "10143001021"].
Definition DAYS_OF_WEEK : list string := ["Monday"; "Saturday"].
Definition HOURS : list Z := seqZ 10 12.

(** A row of the [route_stats] table. *)
Record route_stat : Type := RouteStat {
  pickup_hour : Z;
  pickup_day : string;
  BCTCB2010_x : string;
  BCTCB2010_y : string;
  avg_travel_time : Q;
  trip_count : Z
}.

(** A row of the degree table. *)
Record degree_row : Type := DegreeRow {
  graph : string;
  node : string;
  degree : nat
}.

(** [f"{hour}_{day}"] *)
Definition graph_key (hour : Z) (day : string) : string :=
  pretty hour +:+ "_" +:+ day.

(** [route_stats[(route_stats['pickup_hour'] == hour) &
                 (route_stats['pickup_day'] == day)]] *)
Definition in_slot (hour : Z) (day : string) (row : route_stat) : Prop :=
  pickup_hour row = hour ∧ pickup_day row = day.

#[global] Instance in_slot_dec hour day row : Decision (in_slot hour day row).
Proof. unfold in_slot. apply _. Defined.

Definition add_row (G : nx.Graph) (row : route_stat) : nx.Graph :=
  nx.add_edge (BCTCB2010_x row) (BCTCB2010_y row) (avg_travel_time row) G.

(** The graph [G] that the loop body of [compute_node_degrees] builds for
    one (hour, day): all blocks first, then the edges of the slot. *)
Definition slot_graph (route_stats : list route_stat)
    (block_positions : gmap string (Q * Q)) (hour : Z) (day : string)
  : nx.Graph :=
  let filtered := filter (in_slot hour day) route_stats in
  let G := nx.empty in
  let G := map_fold (λ block_id p G, nx.add_node block_id p G) G block_positions in
  foldl add_row G filtered.

Definition target_rows (G : nx.Graph) (hour : Z) (day : string) : list degree_row :=
  node ← TARGET_NODES;
  if nx.has_node G node
  then [DegreeRow (graph_key hour day) node (nx.degree G node)]
  else [].

Definition compute_node_degrees (route_stats : list route_stat)
    (block_positions : gmap string (Q * Q)) : list degree_row :=
  hour ← HOURS;
  day ← DAYS_OF_WEEK;
  target_rows (slot_graph route_stats block_positions hour day) hour day.


(** A row of the trip table that [load_data] returns, with the columns
    that the functions below read.  Every column holds a value: tables
    with missing values (NaN, NaT) are outside this development. *)
Record trip : Type := Trip {
  df_pickup_hour : Z;
  df_pickup_day : string;
  df_BCTCB2010_x : string;
  df_BCTCB2010_y : string;
  travel_time : Q;
  pickup_latitude : Q;
  pickup_longitude : Q;
  dropoff_latitude : Q;
  dropoff_longitude : Q
}.

(** A row of the [mean_coords] table. *)
Record mean_coord : Type := MeanCoord {
  BCTCB2010 : string;
  mean_latitude : Q;
  mean_longitude : Q
}.

(** The rows of [combined_coords]: block, latitude, longitude. *)
Definition combined_coords (df : list trip) : list (string * Q * Q) :=
  ((λ t, (df_BCTCB2010_x t, pickup_latitude t, pickup_longitude t)) <$> df)
  ++ ((λ t, (df_BCTCB2010_y t, dropoff_latitude t, dropoff_longitude t)) <$> df).

Definition compute_mean_coords (df : list trip) : list mean_coord :=
  (λ '(block, rows),
     MeanCoord block (pd.mean ((λ r, r.1.2) <$> rows))
       (pd.mean ((λ r, r.2) <$> rows)))
    <$> pd.groupby String.le (λ r, r.1.1) (combined_coords df).

(** The order of the keys (hour, day, block, block) of [route_stats]. *)
Definition key_le : relation (Z * string * string * string) :=
  pd.lex (pd.lex (pd.lex Z.le String.le) String.le) String.le.

(** The key of a trip in [route_stats]. *)
Definition trip_key (t : trip) : Z * string * string * string :=
  (df_pickup_hour t, df_pickup_day t, df_BCTCB2010_x t, df_BCTCB2010_y t).

(** Two rows of [unique_blocks] are duplicates: the same block with the
    same numbers, or both without. *)
Definition same_block (r1 r2 : string * option (Q * Q)) : Prop :=
  r1.1 = r2.1
  ∧ match r1.2, r2.2 with
    | Some (lat1, lng1), Some (lat2, lng2) => lat1 == lat2 ∧ lng1 == lng2
    | None, None => True
    | _, _ => False
    end.

#[global] Instance same_block_dec : RelDecision same_block.
Proof.
  intros [b1 [[lat1 lng1]|]] [b2 [[lat2 lng2]|]]; unfold same_block; cbn;
    apply _.
Defined.

(** A position of a merged row, as (latitude, longitude): [None] when the
    block has no row in [mean_coords] (both columns NaN). *)
Definition lat_lng (partner : option mean_coord) : option (Q * Q) :=
  (λ c, (mean_latitude c, mean_longitude c)) <$> partner.

Definition build_graphs (df : list trip) (mean_coords : list mean_coord)
  : list route_stat * gmap string (option (Q * Q)) :=
  let df := pd.merge_left df_BCTCB2010_x BCTCB2010 df mean_coords in
  let df := pd.merge_left (λ r, df_BCTCB2010_y r.1) BCTCB2010 df mean_coords in
  let route_stats :=
    (λ '((hour, day, x, y), rows),
       RouteStat hour day x y (pd.mean ((λ r, travel_time r.1.1) <$> rows))
         (Z.of_nat (length rows)))
      <$> pd.groupby key_le (λ r, trip_key r.1.1) df in
  let unique_blocks :=
    pd.drop_duplicates same_block
      (((λ r, (df_BCTCB2010_x r.1.1, lat_lng r.1.2)) <$> df)
       ++ ((λ r, (df_BCTCB2010_y r.1.1, lat_lng r.2)) <$> df)) in
  let block_positions :=
    foldl (λ d row, <[row.1 := (λ '(lat, lng), (lng, lat)) <$> row.2]> d)
      ∅ unique_blocks in
  (route_stats, block_positions).

(** [compute_node_degrees] above is stated for positions that are numbers.
    [numbers] is the mapping when none of its positions is NaN, and [None]
    otherwise. *)
Definition numbers (block_positions : gmap string (option (Q * Q)))
  : option (gmap string (Q * Q)) :=
  if decide (map_Forall (λ _ p, is_Some p) block_positions)
  then Some (omap id block_positions)
  else None.

(** [main], from the trip table that [load_data] returned to the table
    that is written to [DEGREES_CSV]; [None] when a position is NaN, which
    does not happen with the [mean_coords] of the same table. *)
Definition main (df : list trip) : option (list degree_row) :=
  let mean_coords := compute_mean_coords df in
  let '(route_stats, block_positions) := build_graphs df mean_coords in
  compute_node_degrees route_stats <$> numbers block_positions.

End analyze_node_degrees.


(** ** Loops with early exit

    A loop body either goes on with a new state, leaves the enclosing
    function with a value ([return] inside the loop), or raises. *)

Inductive flow (S R : Type) : Type :=
  | Next (s : S)
  | Return (r : R)
  | Throw (e : exn).
Arguments Next {S R} s.
Arguments Return {S R} r.
Arguments Throw {S R} e.

Fixpoint for_in {A S R : Type} (l : list A) (body : A → S → flow S R) (s : S)
  : flow S R :=
  match l with
  | [] => Next s
  | x :: l' =>
      match body x s with
      | Next s' => for_in l' body s'
      | Return r => Return r
      | Throw e => Throw e
      end
  end.

(** The character "_". *)
Definition underscore : Ascii.ascii :=
  match "_"%string with
  | String c _ => c
  | EmptyString => Stdlib.Strings.Ascii.zero
  end.

(** [s.split(sep)] for a separator [sep] of one character: the pieces of
    [s] between the occurrences of [sep], empty pieces included. *)
Fixpoint str_split (sep : Ascii.ascii) (s : string) : list string :=
  match s with
  | EmptyString => [EmptyString]
  | String c s' =>
      if decide (c = sep) then EmptyString :: str_split sep s'
      else match str_split sep s' with
           | piece :: pieces => String c piece :: pieces
           | [] => [String c EmptyString]
           end
  end.

(** [enumerate(l, start=k)] *)
Fixpoint enumerate {A : Type} (k : Z) (l : list A) : list (Z * A) :=
  match l with
  | [] => []
  | x :: l' => (k, x) :: enumerate (k + 1) l'
  end.

(** [round(x, 2)] on exact values: to the nearest hundredth, ties to even. *)
Definition round_half_even (x : Q) : Z :=
  let f := Qfloor x in
  match (x - inject_Z f ?= 1 # 2)%Q with
  | Lt => f
  | Gt => f + 1
  | Eq => if Z.even f then f else f + 1
  end.

Definition round2 (x : Q) : Q := Qred (inject_Z (round_half_even (x * 100)) / 100).

(** ** analyze_routes.py *)

Module analyze_routes.

Definition TARGET_NODES : list string :=
  ["10113001008"; "10076001001"; "10143001021"].
Definition DAYS_OF_WEEK : list string := ["Monday"; "Saturday"].
Definition HOURS : list Z := seqZ 10 12.
Definition POSSIBLE_ROUTES : list (list string) :=
  [ ["10113001008"; "10076001001"; "10143001021"];
    ["10113001008"; "10143001021"; "10076001001"];
    ["10076001001"; "10113001008"; "10143001021"];
    ["10076001001"; "10143001021"; "10113001008"];
    ["10143001021"; "10113001008"; "10076001001"];
    ["10143001021"; "10076001001"; "10113001008"] ].
Definition START_TIMES : list Z := [10; 12; 14; 16].

(** A row of the table [evaluate_routes] returns:
    [[f"Route {idx}", start_time, day, round(time_on_road, 2)] + arrivals]. *)
Record route_row : Type := RouteRow {
  route_name : string;
  row_start_time : Z;
  row_day : string;
  row_total_time : Q;
  row_arrivals : list Z
}.

(** The three local variables of [calculate_route_time]. *)
Record sim_state : Type := SimState {
  total_time : Q;
  time_on_road : Q;
  arrival_times : list Z
}.

Section pandas.

(** The dataframe operations of [build_graphs] and [main] belong to pandas;
    whatever they compute, they are taken to return. *)
Context {DataFrame RouteStats Degrees : Type}.
Variable merge_mean_coords : DataFrame → DataFrame → DataFrame.
Variable groupby_route_stats : DataFrame → RouteStats.
Variable unique_block_positions : DataFrame → gmap string (Q * Q).
Variable compute_mean_coords : DataFrame → DataFrame.

(** [build_graphs]: the body ends after [graphs = {}]; there is no loop over
    the slots and no [return], so the call yields Python's [None]. *)
Definition build_graphs (df mean_coords : DataFrame)
  : option (gmap string nx.Graph * Degrees) :=
  let df := merge_mean_coords df mean_coords in
  let route_stats := groupby_route_stats df in
  let block_positions := unique_block_positions df in
  let graphs : gmap string nx.Graph := ∅ in
  None.

(** [f"{current_hour}_{day}"] *)
Definition graph_key (hour : Z) (day : string) : string :=
  pretty hour +:+ "_" +:+ day.

(** [int(start_time + (total_time // 60)) % 24] *)
Definition current_hour (start_time : Z) (total_time : Q) : Z :=
  (start_time + Qfloor (total_time / 60)) `mod` 24.

(** The [if]/[elif] chain "Add visit times". *)
Definition add_visit_time (to_block : string) (total_time : Q) : Q :=
  if bool_decide (to_block = "10113001008") then (total_time + 30)%Q
  else if bool_decide (to_block = "10076001001") then (total_time + 120)%Q
  else if bool_decide (to_block = "10143001021") then (total_time + 180)%Q
  else total_time.

(** The pairs [(route[i], route[i + 1])] for [i in range(len(route) - 1)]. *)
Fixpoint legs (route : list string) : list (string * string) :=
  match route with
  | from_block :: (to_block :: _) as rest => (from_block, to_block) :: legs rest
  | _ => []
  end.

(** The body of the loop of [calculate_route_time]; the times are added
    as exact rationals. *)
Definition leg (graphs : gmap string nx.Graph) (start_time : Z) (day : string)
    (blocks : string * string) (st : sim_state)
  : flow sim_state (option (Q * list Z)) :=
  let '(from_block, to_block) := blocks in
  let current_hour := current_hour start_time (total_time st) in
  let graph_key := graph_key current_hour day in
  match graphs !! graph_key with
  | None => Return None
  | Some G =>
      if negb (nx.truthy G) then Return None
      else
        match nx.dijkstra_path_length G from_block to_block with
        | Raise e => Throw e
        | Ok path_time =>
            let total_time := (total_time st + path_time)%Q in
            let time_on_road := (time_on_road st + path_time)%Q in
            let total_time := add_visit_time to_block total_time in
            Next (SimState total_time time_on_road
                    (arrival_times st ++
                       [(start_time + Qfloor (total_time / 60)) `mod` 24]))
        end
  end.

Definition initial (start_time : Z) : sim_state := SimState 0 0 [start_time].

Definition calculate_route_time (route : list string) (start_time : Z)
    (day : string) (graphs : gmap string nx.Graph)
  : result (option (Q * list Z)) :=
  match for_in (legs route) (leg graphs start_time day) (initial start_time) with
  | Next st => Ok (Some (time_on_road st, arrival_times st))
  | Return r => Ok r
  | Throw e => Raise e
  end.

(** The body of the innermost loop of [evaluate_routes]. *)
Definition evaluate_route (graphs : gmap string nx.Graph) (start_time : Z)
    (day : string) (numbered : Z * list string) (route_info : list route_row)
  : flow (list route_row) Empty_set :=
  let '(idx, route) := numbered in
  match calculate_route_time route start_time day graphs with
  | Raise e => Throw e
  | Ok None => Next route_info
  | Ok (Some (time_on_road, arrivals)) =>
      Next (route_info ++
              [RouteRow ("Route " +:+ pretty idx) start_time day
                        (round2 time_on_road) arrivals])
  end.

Definition evaluate_routes (graphs : gmap string nx.Graph)
  : result (list route_row) :=
  match
    for_in START_TIMES (λ start_time,
      for_in DAYS_OF_WEEK (λ day,
        for_in (enumerate 1 POSSIBLE_ROUTES)
               (evaluate_route graphs start_time day))) []
  with
  | Next route_info => Ok route_info
  | Return r => match r with end
  | Throw e => Raise e
  end.

(** [main] after [load_data]: unpacking [None] into [graphs, degrees_df]
    raises [TypeError]. *)
Definition main (df : DataFrame) : result (list route_row) :=
  let mean_coords := compute_mean_coords df in
  match build_graphs df mean_coords with
  | None => Raise TypeError
  | Some (graphs, degrees_df) => evaluate_routes graphs
  end.

End pandas.

End analyze_routes.

(** ** The running totals of [calculate_route_time] in binary64

    [total_time] and [time_on_road] are Python floats: every [+=] rounds
    to the nearest binary64 number.  This is the part of the loop body
    that updates them (from [total_time += path_time] to the end of the
    chain "Add visit times"), on primitive floats; the path time of a leg
    is what the shortest-path call returned for it. *)

Module analyze_routes_binary64.

Record totals : Type := Totals {
  total_time : float;
  time_on_road : float
}.

(** The [if]/[elif] chain "Add visit times". *)
Definition add_visit_time (to_block : string) (total_time : float) : float :=
  if bool_decide (to_block = "10113001008") then (total_time + 30)%float
  else if bool_decide (to_block = "10076001001") then (total_time + 120)%float
  else if bool_decide (to_block = "10143001021") then (total_time + 180)%float
  else total_time.

(** The two totals after the body of the loop, for the leg
    [(route[i], route[i + 1])] with the path time [path_time]. *)
Definition leg (blocks : string * string) (path_time : float) (st : totals)
  : totals :=
  let '(from_block, to_block) := blocks in
  let total_time := (total_time st + path_time)%float in
  let time_on_road := (time_on_road st + path_time)%float in
  let total_time := add_visit_time to_block total_time in
  Totals total_time time_on_road.

(** [total_time, time_on_road = 0, 0] *)
Definition initial : totals := Totals 0 0.

(** The totals after as many legs of the route as [path_times] has
    entries, the calls having returned these path times in this order. *)
Definition after_legs (route : list string) (path_times : list float)
  : totals :=
  foldl (λ st leg_time, leg leg_time.1 leg_time.2 st) initial
    (zip (analyze_routes.legs route) path_times).

End analyze_routes_binary64.

(** ** final_analysis.py *)

Module final_analysis.

(** The pieces that [load_data] gets from the [graph] column of one row of
    the degree table, [degrees["graph"].str.split("_", expand=True)]; it
    assigns them to the two columns [hour] and [day]. *)
Definition graph_pieces (graph : string) : list string :=
  str_split underscore graph.

End final_analysis.


(** * Vocabulary of the properties

    Definitions that follow the wording of the specification; the
    properties below compare them with the code above. *)

Section vocabulary.

Import analyze_node_degrees.

(** The far end of a row, seen from [n]; [None] when the row does not
    touch [n]. *)
Definition other_end (n : string) (row : route_stat) : option string :=
  if decide (BCTCB2010_x row = n) then Some (BCTCB2010_y row)
  else if decide (BCTCB2010_y row = n) then Some (BCTCB2010_x row)
  else None.

(** The blocks joined to [n] by a row of the slot: "the distinct
    neighbours with a recorded edge in that slot".  [n] itself is among
    them exactly when the slot has a row from [n] to [n]. *)
Definition distinct_neighbors (route_stats : list route_stat) (hour : Z)
    (day n : string) : gset string :=
  list_to_set (omap (other_end n) (filter (in_slot hour day) route_stats)).

(** [walk G s vs t d]: a chain of edges of [G] leads from [s] to [t], the
    weights along it add up to [d], and [vs] lists the blocks the edges
    leave from, the last one first. *)
Inductive walk (G : nx.Graph) (s : string)
  : list string → string → Q → Prop :=
  | walk_here : walk G s [] s 0
  | walk_edge vs v u d w :
      walk G s vs v d → nx.neighbors G v !! u = Some w →
      walk G s (v :: vs) u (d + w).

(** Two blocks are connected in a graph when some chain of edges leads from
    one to the other. *)
Definition connected (G : nx.Graph) (s t : string) : Prop :=
  ∃ vs d, walk G s vs t d.

(** No edge of the graph has a negative weight. *)
Definition nonneg (G : nx.Graph) : Prop :=
  ∀ v u w, nx.neighbors G v !! u = Some w → (0 <= w)%Q.

(** The table has an entry for [u] that is at most [b]. *)
Definition at_most (dist : gmap string Q) (u : string) (b : Q) : Prop :=
  ∃ x, dist !! u = Some x ∧ (x <= b)%Q.

(** [dist'] has every entry of [dist], none of them larger. *)
Definition improves (dist dist' : gmap string Q) : Prop :=
  ∀ u x, dist !! u = Some x → at_most dist' u x.

(** Every entry of a distance table satisfies [P]. *)
Definition all_entries (P : string → Q → Prop) (dist : gmap string Q) : Prop :=
  ∀ u d, dist !! u = Some d → P u d.

End vocabulary.

Section route_vocabulary.

Import analyze_routes.

Definition Qsum (l : list Q) : Q := foldr Qplus 0%Q l.

(** The dwell table: 30 minutes at Times Square, 120 at the Empire State
    Building, 180 at the MET, nothing elsewhere. *)
Definition dwell (to_block : string) : Q :=
  if decide (to_block = "10113001008") then 30%Q
  else if decide (to_block = "10076001001") then 120%Q
  else if decide (to_block = "10143001021") then 180%Q
  else 0%Q.

(** The dwell applied during the first [k] legs of a route. *)
Definition dwell_so_far (route : list string) (k : nat) : Q :=
  Qsum (dwell ∘ snd <$> take k (legs route)).

(** The local variables after a leg to [to_block] that took [path_time]. *)
Definition arrive (start_time : Z) (to_block : string) (path_time : Q)
    (st : sim_state) : sim_state :=
  let total := add_visit_time to_block (total_time st + path_time)%Q in
  SimState total (time_on_road st + path_time)%Q
    (arrival_times st ++ [(start_time + Qfloor (total / 60)) `mod` 24]).

(** The outcome of the first [k] iterations of the loop of
    [calculate_route_time]: [Next st] when all of them completed, leaving
    the local variables as [st]. *)
Definition after_legs (graphs : gmap string nx.Graph) (start_time : Z)
    (day : string) (route : list string) (k : nat)
  : flow sim_state (option (Q * list Z)) :=
  for_in (take k (legs route)) (leg graphs start_time day) (initial start_time).

(** "floor(start_time + total_time/60) mod 24" *)
Definition floor_hour (start_time : Z) (total_time : Q) : Z :=
  Qfloor (inject_Z start_time + total_time / 60) `mod` 24.

(** "(start_time + total_time/60) mod 24" with a true division: a time of
    day in hours that keeps the fraction of the hour. *)
Definition Qmod (x : Q) (m : Z) : Q :=
  (x - inject_Z (m * Qfloor (x / inject_Z m)))%Q.

Definition fractional_arrival (start_time : Z) (total_time : Q) : Q :=
  Qmod (inject_Z start_time + total_time / 60) 24.

(** The combinations [evaluate_routes] sweeps, in the order of its loops. *)
Definition combinations : list (Z * string * (Z * list string)) :=
  start_time ← START_TIMES;
  day ← DAYS_OF_WEEK;
  numbered ← enumerate 1 POSSIBLE_ROUTES;
  [(start_time, day, numbered)].

(** The sweep of [evaluate_routes] over any list of combinations. *)
Definition sweep (graphs : gmap string nx.Graph)
    (l : list (Z * string * (Z * list string))) (route_info : list route_row)
  : flow (list route_row) Empty_set :=
  for_in l (λ '(start_time, day, numbered),
              evaluate_route graphs start_time day numbered) route_info.

Definition table_of (f : flow (list route_row) Empty_set)
  : result (list route_row) :=
  match f with
  | Next route_info => Ok route_info
  | Return r => match r with end
  | Throw e => Raise e
  end.

(** The name, start hour and day a combination gives its row. *)
Definition label (c : Z * string * (Z * list string)) : string * Z * string :=
  let '(start_time, day, (idx, _)) := c in
  ("Route " +:+ pretty idx, start_time, day).

Definition row_label (row : route_row) : string * Z * string :=
  (route_name row, row_start_time row, row_day row).

(** The row a combination contributes, if its simulation has a result. *)
Definition row_of (graphs : gmap string nx.Graph)
    (c : Z * string * (Z * list string)) : option route_row :=
  let '(start_time, day, (idx, route)) := c in
  match calculate_route_time route start_time day graphs with
  | Ok (Some (time_on_road, arrivals)) =>
      Some (RouteRow ("Route " +:+ pretty idx) start_time day
                     (round2 time_on_road) arrivals)
  | _ => None
  end.

End route_vocabulary.

(** The characters of a string. *)
Fixpoint chars (s : string) : list Ascii.ascii :=
  match s with
  | EmptyString => []
  | String c s' => c :: chars s'
  end.

Definition is_digit (c : Ascii.ascii) : Prop := is_Some (Ascii.is_nat c).

(** How the shortest-path call of a leg fails. *)
Inductive leg_fails (G : nx.Graph) (from_block to_block : string) : exn → Prop :=
  | origin_unknown :
      nx.has_node G from_block = false →
      leg_fails G from_block to_block (NodeNotFound from_block)
  | no_path :
      nx.has_node G from_block = true →
      ¬ connected G from_block to_block →
      leg_fails G from_block to_block (NetworkXNoPath from_block to_block).

(** An hour of the day. *)
Definition is_hour (h : Z) : Prop := 0 ≤ h < 24.

(** A row joins two blocks when they are its origin and destination, in
    either order. *)
Definition joins (u v : string) (row : analyze_node_degrees.route_stat) : Prop :=
  (analyze_node_degrees.BCTCB2010_x row = u
   ∧ analyze_node_degrees.BCTCB2010_y row = v)
  ∨ (analyze_node_degrees.BCTCB2010_x row = v
     ∧ analyze_node_degrees.BCTCB2010_y row = u).

#[global] Instance joins_dec u v row : Decision (joins u v row).
Proof. unfold joins. apply _. Defined.

(** The average travel time of the last row of the slot that joins two
    blocks, if there is one. *)
Definition last_joining (route_stats : list analyze_node_degrees.route_stat)
    (hour : Z) (day u v : string) : option Q :=
  analyze_node_degrees.avg_travel_time
    <$> last (filter (joins u v)
                (filter (analyze_node_degrees.in_slot hour day) route_stats)).

(** Slot and landmark of a row of the degree table. *)
Definition degree_key (row : analyze_node_degrees.degree_row) : string * string :=
  (analyze_node_degrees.graph row, analyze_node_degrees.node row).

(** The 72 pairs of slot key and landmark, in the order of the loops. *)
Definition all_degree_keys : list (string * string) :=
  hour ← analyze_node_degrees.HOURS;
  day ← analyze_node_degrees.DAYS_OF_WEEK;
  n ← analyze_node_degrees.TARGET_NODES;
  [(analyze_node_degrees.graph_key hour day, n)].

(** ** The trip table *)

(** The blocks that occur in the trip table, as pickup or dropoff block. *)
Definition blocks (df : list analyze_node_degrees.trip) : gset string :=
  list_to_set ((analyze_node_degrees.df_BCTCB2010_x <$> df)
               ++ (analyze_node_degrees.df_BCTCB2010_y <$> df)).

(** The trips of one hour and weekday from block [x] to block [y], in the
    order of the table. *)
Definition trips_between (df : list analyze_node_degrees.trip) (hour : Z)
    (day x y : string) : list analyze_node_degrees.trip :=
  filter (λ t, analyze_node_degrees.trip_key t = (hour, day, x, y)) df.

(** The (latitude, longitude) pairs observed at a block: those of the
    pickups there, then those of the dropoffs there. *)
Definition observed_at (df : list analyze_node_degrees.trip) (block : string)
  : list (Q * Q) :=
  ((λ t, (analyze_node_degrees.pickup_latitude t,
          analyze_node_degrees.pickup_longitude t))
     <$> filter (λ t, analyze_node_degrees.df_BCTCB2010_x t = block) df)
  ++ ((λ t, (analyze_node_degrees.dropoff_latitude t,
             analyze_node_degrees.dropoff_longitude t))
        <$> filter (λ t, analyze_node_degrees.df_BCTCB2010_y t = block) df).

(** The row of [mean_coords] for a block, if there is one. *)
Definition coords_of (mean_coords : list analyze_node_degrees.mean_coord)
    (block : string) : option analyze_node_degrees.mean_coord :=
  head (filter (λ c, analyze_node_degrees.BCTCB2010 c = block) mean_coords).

(** The key (hour, day, block, block) of a row of [route_stats]. *)
Definition stat_key (row : analyze_node_degrees.route_stat)
  : Z * string * string * string :=
  (analyze_node_degrees.pickup_hour row, analyze_node_degrees.pickup_day row,
   analyze_node_degrees.BCTCB2010_x row, analyze_node_degrees.BCTCB2010_y row).

(** "Strictly before" in the order of the keys. *)
Definition key_lt (k1 k2 : Z * string * string * string) : Prop :=
  analyze_node_degrees.key_le k1 k2 ∧ k1 ≠ k2.

(** The row of [route_stats] for the trips with key [k]: their mean travel
    time and their number. *)
Definition group_stats (df : list analyze_node_degrees.trip)
    (k : Z * string * string * string) : analyze_node_degrees.route_stat :=
  let '(hour, day, x, y) := k in
  let trips := trips_between df hour day x y in
  analyze_node_degrees.RouteStat hour day x y
    (pd.mean (analyze_node_degrees.travel_time <$> trips))
    (Z.of_nat (length trips)).

(** The position (longitude, latitude) that a row of [mean_coords] gives. *)
Definition lng_lat (c : analyze_node_degrees.mean_coord) : Q * Q :=
  (analyze_node_degrees.mean_longitude c, analyze_node_degrees.mean_latitude c).

(** The far end of a trip, seen from block [n]; [None] when the trip does
    not touch [n]. *)
Definition trip_other_end (n : string) (t : analyze_node_degrees.trip)
  : option string :=
  if decide (analyze_node_degrees.df_BCTCB2010_x t = n)
  then Some (analyze_node_degrees.df_BCTCB2010_y t)
  else if decide (analyze_node_degrees.df_BCTCB2010_y t = n)
       then Some (analyze_node_degrees.df_BCTCB2010_x t)
       else None.

(** The blocks with a trip to or from [n] in the hour [hour] of the weekday
    [day].  [n] itself is among them exactly when a trip of the slot starts
    and ends at [n]. *)
Definition trip_partners (df : list analyze_node_degrees.trip) (hour : Z)
    (day n : string) : gset string :=
  list_to_set
    (omap (trip_other_end n)
       (filter (λ t, analyze_node_degrees.df_pickup_hour t = hour
                     ∧ analyze_node_degrees.df_pickup_day t = day) df)).

(** The degree that [main] reports for a landmark in a slot, in terms of
    the trips: the partners other than the landmark, and two more for
    trips from the landmark to itself. *)
Definition trip_degree (df : list analyze_node_degrees.trip) (hour : Z)
    (day n : string) : nat :=
  (size (trip_partners df hour day n ∖ {[n]})
   + (if decide (n ∈ trip_partners df hour day n) then 2 else 0))%nat.

(** ** Slots and shortest paths, in the words of the specification *)

(** The key of a slot: the hour in decimal, an underscore, the weekday. *)
Definition slot_key (hour : Z) (day : string) : string :=
  pretty hour +:+ "_" +:+ day.



(** No weight of any graph of the mapping is negative. *)
Definition all_nonneg (graphs : gmap string nx.Graph) : Prop :=
  ∀ key G, graphs !! key = Some G → nonneg G.

(** ** The dwell table and sums in binary64 *)

(** The dwell at a landmark, and none at another block. *)
Definition dwell64 (to_block : string) : option float :=
  if decide (to_block = "10113001008") then Some 30%float
  else if decide (to_block = "10076001001") then Some 120%float
  else if decide (to_block = "10143001021") then Some 180%float
  else None.

(** The sum that [+=] accumulates from 0, left to right. *)
Definition sum64 (l : list float) : float := foldl PrimFloat.add 0%float l.

(** ** Sample data

    One Monday graph serves hours 10 and 12: Times Square to the Empire
    State Building takes 15 minutes, from there to the MET 20.  In
    [isolated_landmarks] the three landmarks are nodes without edges. *)

Definition two_edges : nx.Graph :=
  nx.add_edge "10113001008" "10076001001" 15
    (nx.add_edge "10076001001" "10143001021" 20 nx.empty).

Definition monday_graphs : gmap string nx.Graph :=
  {[ "10_Monday" := two_edges; "12_Monday" := two_edges ]}.

Definition route_1 : list string :=
  ["10113001008"; "10076001001"; "10143001021"].

Definition isolated_landmarks : nx.Graph :=
  nx.add_node "10113001008" (0, 0)%Q
    (nx.add_node "10076001001" (0, 0)%Q
       (nx.add_node "10143001021" (0, 0)%Q nx.empty)).


(** Four trips between the landmarks: three on Monday at 10, two of them
    from Times Square to the Empire State Building and one back, and one
    on Monday at 9 from the MET to Times Square. *)
Definition sample_trips : list analyze_node_degrees.trip :=
  [ analyze_node_degrees.Trip 10 "Monday" "10113001008" "10076001001"
      10 41 (-74) 40 (-73);
    analyze_node_degrees.Trip 10 "Monday" "10076001001" "10113001008"
      25 40 (-73) 41 (-74);
    analyze_node_degrees.Trip 10 "Monday" "10113001008" "10076001001"
      30 41 (-74) 40 (-73);
    analyze_node_degrees.Trip 9 "Monday" "10143001021" "10113001008"
      4 42 (-72) 41 (-74) ].




(** A mapping for a run that passes midnight: graphs for the hours 21 and
    0, and a decoy under the key of an hour 24 that does not exist. *)
Definition late : nx.Graph :=
  nx.add_edge "10113001008" "10143001021" 10 nx.empty.

Definition night : nx.Graph :=
  nx.add_edge "10143001021" "10076001001" 7 nx.empty.

Definition night_graphs : gmap string nx.Graph :=
  {[ "21_Monday" := late; "0_Monday" := night;
     "24_Monday" := isolated_landmarks ]}.

(** * Properties *)

(** ** Sample runs *)

Example key_of_slot : analyze_routes.graph_key 10 "Monday" = "10_Monday".
Proof. by vm_compute. Qed.

(** Route 1 from 10 on Monday: 15 minutes, two hours at the Empire State
    Building, a second leg of 20 minutes at hour 12, three hours at the
    MET. *)
Example route_1_on_monday :
  analyze_routes.calculate_route_time route_1 10 "Monday" monday_graphs
  = Ok (Some (35%Q, [10; 12; 15])).
Proof. by vm_compute. Qed.

(** The direct edge from Times Square to the MET weighs 50, the way over
    the Empire State Building 15 + 20. *)
Example shorter_way_round :
  nx.dijkstra_path_length
    (nx.add_edge "10113001008" "10143001021" 50 two_edges)
    "10113001008" "10143001021"
  = Ok 35%Q.
Proof. by vm_compute. Qed.

Example route_1_on_saturday :
  analyze_routes.calculate_route_time route_1 10 "Saturday" monday_graphs
  = Ok None.
Proof. by vm_compute. Qed.

(** With a graph for hour 10 only, the second leg of route 1 (at hour 12)
    finds no slot graph and the attempt is given up. *)
Example second_leg_without_graph :
  analyze_routes.calculate_route_time route_1 10 "Monday"
    {[ "10_Monday" := two_edges ]}
  = Ok None.
Proof. by vm_compute. Qed.

Example sweep_on_monday :
  analyze_routes.evaluate_routes monday_graphs
  = Ok [ analyze_routes.RouteRow "Route 1" 10 "Monday" 35 [10; 12; 15];
         analyze_routes.RouteRow "Route 3" 10 "Monday" 50 [10; 10; 14];
         analyze_routes.RouteRow "Route 6" 10 "Monday" 35 [10; 12; 13];
         analyze_routes.RouteRow "Route 3" 12 "Monday" 50 [12; 12; 16] ].
Proof. by vm_compute. Qed.

(** Rows in both directions make one edge; with no block positions, a
    landmark that no row of the slot touches is not a node and gets no
    row. *)
Example degrees_on_monday :
  analyze_node_degrees.compute_node_degrees
    [ analyze_node_degrees.RouteStat 10 "Monday" "10113001008" "10076001001" 15 3;
      analyze_node_degrees.RouteStat 10 "Monday" "10076001001" "10113001008" 14 2;
      analyze_node_degrees.RouteStat 10 "Monday" "10076001001" "80" 9 1;
      analyze_node_degrees.RouteStat 21 "Saturday" "10143001021" "80" 9 1 ]
    ∅
  = [ analyze_node_degrees.DegreeRow "10_Monday" "10113001008" 1;
      analyze_node_degrees.DegreeRow "10_Monday" "10076001001" 2;
      analyze_node_degrees.DegreeRow "21_Saturday" "10143001021" 1 ].
Proof. by vm_compute. Qed.

#[local] Set Warnings "-clear-no-such-hyp".
#[local] Set Warnings "-inexact-float".

(** ** Graph construction *)

Section graph_facts.

Implicit Types (G : nx.Graph) (n u v : string) (w : Q).

Lemma has_node_true G n : nx.has_node G n = true ↔ is_Some (G !! n).
Proof. unfold nx.has_node. by rewrite bool_decide_eq_true. Qed.

Lemma lookup_add_node G n p m :
  nx.add_node n p G !! m =
    if decide (n = m) then Some (nx.NodeData (Some p) (nx.neighbors G n))
    else G !! m.
Proof.
  unfold nx.add_node, nx.neighbors.
  destruct (G !! n) as [d|] eqn:E; rewrite lookup_insert; by case_decide.
Qed.

Lemma neighbors_add_node G n p m :
  nx.neighbors (nx.add_node n p G) m = nx.neighbors G m.
Proof.
  unfold nx.neighbors at 1. rewrite lookup_add_node.
  case_decide; by subst.
Qed.

Lemma has_node_add_node G n p m :
  nx.has_node (nx.add_node n p G) m = true ↔ n = m ∨ nx.has_node G m = true.
Proof.
  rewrite !has_node_true, lookup_add_node.
  case_decide; [split; eauto | naive_solver].
Qed.

Lemma is_Some_ensure_node G n m :
  is_Some (nx.ensure_node n G !! m) ↔ n = m ∨ is_Some (G !! m).
Proof.
  unfold nx.ensure_node. destruct (G !! n) eqn:E.
  - split; [auto | intros [<-|?]; eauto].
  - rewrite lookup_insert. case_decide; [split; eauto | naive_solver].
Qed.

Lemma neighbors_ensure_node G n m :
  nx.neighbors (nx.ensure_node n G) m = nx.neighbors G m.
Proof.
  unfold nx.ensure_node, nx.neighbors. destruct (G !! n) eqn:E; [done|].
  rewrite lookup_insert. case_decide; subst; by rewrite ?E.
Qed.

Lemma has_node_add_edge G u v w m :
  nx.has_node (nx.add_edge u v w G) m = true
  ↔ m = u ∨ m = v ∨ nx.has_node G m = true.
Proof.
  rewrite !has_node_true. unfold nx.add_edge.
  rewrite !lookup_alter_is_Some, !is_Some_ensure_node. naive_solver.
Qed.

(** What one [add_edge] does to the neighbour dictionary of a node. *)
Lemma dom_neighbors_add_edge G u v w m :
  dom (nx.neighbors (nx.add_edge u v w G) m) =
    dom (nx.neighbors G m)
    ∪ (if decide (m = u) then {[v]} else ∅)
    ∪ (if decide (m = v) then {[u]} else ∅).
Proof.
  assert (Hu : is_Some (nx.ensure_node v (nx.ensure_node u G) !! u)).
  { rewrite !is_Some_ensure_node. auto. }
  assert (Hv : is_Some (nx.ensure_node v (nx.ensure_node u G) !! v)).
  { rewrite !is_Some_ensure_node. auto. }
  assert (HN : ∀ k, nx.neighbors (nx.ensure_node v (nx.ensure_node u G)) k
                    = nx.neighbors G k).
  { intros k. by rewrite !neighbors_ensure_node. }
  unfold nx.add_edge. revert Hu Hv HN.
  generalize (nx.ensure_node v (nx.ensure_node u G)). intros G' [du Hu] [dv Hv] HN.
  rewrite <-(HN m). unfold nx.neighbors.
  rewrite !lookup_alter.
  repeat case_decide; simplify_eq; rewrite ?Hu, ?Hv; simpl;
    rewrite ?dom_insert_L; set_solver.
Qed.

End graph_facts.

(** ** Shortest paths and connection *)

Section connection.

Implicit Types (G : nx.Graph) (dist : gmap string Q) (u v s t : string)
  (vs : list string).

(** A property of the entries of a distance table that follows the edges
    is kept when edges are relaxed. *)
Section closed.

Context (G : nx.Graph) (P : string → Q → Prop).
Hypothesis P_edge :
  ∀ v u dv w, P v dv → nx.neighbors G v !! u = Some w → P u (Qred (dv + w)).

Lemma relax_edge_entries dv u w dist :
  all_entries P dist → P u (Qred (dv + w)) →
  all_entries P (nx.relax_edge dv u w dist).
Proof.
  intros Hd Hu x d. unfold nx.relax_edge.
  destruct (dist !! u) as [du|] eqn:E.
  - destruct (Qlt_le_dec _ _); [|by apply Hd].
    rewrite lookup_insert. case_decide; [by intros [= <-]; subst|by apply Hd].
  - rewrite lookup_insert. case_decide; [by intros [= <-]; subst|by apply Hd].
Qed.

Lemma relax_node_entries v dv dist :
  all_entries P dist → P v dv → all_entries P (nx.relax_node G v dv dist).
Proof.
  intros Hd Hv. unfold nx.relax_node.
  cut (nx.neighbors G v ⊆ nx.neighbors G v →
       all_entries P (map_fold (nx.relax_edge dv) dist (nx.neighbors G v))).
  { intros H. by apply H. }
  apply (map_fold_weak_ind (λ acc m,
    m ⊆ nx.neighbors G v → all_entries P acc)); [done|].
  intros u w m acc Hfresh IH Hsub. apply relax_edge_entries.
  - apply IH. etrans; [|exact Hsub]. by apply insert_subseteq.
  - apply (P_edge v); [done|].
    eapply lookup_weaken; [|exact Hsub]. apply lookup_insert_eq.
Qed.

Lemma relax_entries dist : all_entries P dist → all_entries P (nx.relax G dist).
Proof.
  intros Hd. unfold nx.relax.
  cut (∀ m acc0, all_entries P acc0 → m ⊆ dist →
         all_entries P (map_fold (nx.relax_node G) acc0 m)).
  { intros H. by apply H. }
  intros m acc0 Hacc0. revert m.
  apply (map_fold_weak_ind (λ acc m, m ⊆ dist → all_entries P acc)); [done|].
  intros v dv m acc Hfresh IH Hsub. apply relax_node_entries.
  - apply IH. etrans; [|exact Hsub]. by apply insert_subseteq.
  - apply Hd. eapply lookup_weaken; [|exact Hsub]. apply lookup_insert_eq.
Qed.

Lemma iter_relax_entries n dist :
  all_entries P dist → all_entries P (Nat.iter n (nx.relax G) dist).
Proof. intros Hd. induction n as [|n IH]; [done|]. by apply relax_entries. Qed.

End closed.

(** *** Relaxing only improves a distance table *)

Lemma improves_refl dist : improves dist dist.
Proof. intros u x Hx. exists x. split; [done|apply Qle_refl]. Qed.

Lemma at_most_le dist u (b b' : Q) :
  at_most dist u b → (b <= b')%Q → at_most dist u b'.
Proof. intros (x & Hx & Hle) Hb. exists x. split; [done|lra]. Qed.

Lemma at_most_improves dist dist' u b :
  at_most dist u b → improves dist dist' → at_most dist' u b.
Proof. intros (x & Hx & Hle) Himp. apply (at_most_le _ _ x); auto. Qed.

Lemma improves_trans dist1 dist2 dist3 :
  improves dist1 dist2 → improves dist2 dist3 → improves dist1 dist3.
Proof. intros H12 H23 u x Hx. eapply at_most_improves; eauto. Qed.

Lemma relax_edge_improves dv u w dist :
  improves dist (nx.relax_edge dv u w dist).
Proof.
  intros y x Hx. unfold nx.relax_edge.
  destruct (dist !! u) as [du|] eqn:E.
  - destruct (Qlt_le_dec _ _) as [Hlt|Hle]; [|by apply improves_refl].
    destruct (decide (u = y)) as [->|Hne].
    + exists (Qred (dv + w)). rewrite lookup_insert_eq. split; [done|].
      rewrite E in Hx. injection Hx as <-. by apply Qlt_le_weak.
    + exists x. rewrite lookup_insert_ne by done. split; [done|apply Qle_refl].
  - destruct (decide (u = y)) as [->|Hne]; [congruence|].
    exists x. rewrite lookup_insert_ne by done. split; [done|apply Qle_refl].
Qed.

Lemma relax_edge_at_most dv u w dist :
  at_most (nx.relax_edge dv u w dist) u (dv + w).
Proof.
  unfold nx.relax_edge.
  destruct (dist !! u) as [du|] eqn:E.
  - destruct (Qlt_le_dec _ _) as [Hlt|Hle].
    + exists (Qred (dv + w)). rewrite lookup_insert_eq. split; [done|].
      rewrite Qred_correct. apply Qle_refl.
    + exists du. split; [done|]. by rewrite Qred_correct in Hle.
  - exists (Qred (dv + w)). rewrite lookup_insert_eq. split; [done|].
    rewrite Qred_correct. apply Qle_refl.
Qed.

Lemma relax_node_improves G v dv dist :
  improves dist (nx.relax_node G v dv dist)
  ∧ ∀ u w, nx.neighbors G v !! u = Some w →
           at_most (nx.relax_node G v dv dist) u (dv + w).
Proof.
  unfold nx.relax_node.
  apply (map_fold_weak_ind (λ acc m,
    improves dist acc ∧ ∀ u w, m !! u = Some w → at_most acc u (dv + w))).
  - split; [apply improves_refl|]. intros u w. by rewrite lookup_empty.
  - intros u w m acc Hfresh [IH1 IH2]. split.
    + eapply improves_trans; [exact IH1|apply relax_edge_improves].
    + intros u' w'. rewrite lookup_insert. case_decide as Hu.
      * intros [= <-]. subst u'. apply relax_edge_at_most.
      * intros Hm. eapply at_most_improves; [by apply IH2|].
        apply relax_edge_improves.
Qed.

Lemma relax_improves G dist :
  improves dist (nx.relax G dist)
  ∧ ∀ v dv u w, dist !! v = Some dv → nx.neighbors G v !! u = Some w →
                at_most (nx.relax G dist) u (dv + w).
Proof.
  unfold nx.relax.
  apply (map_fold_weak_ind (λ acc m,
    improves dist acc
    ∧ ∀ v dv u w, m !! v = Some dv → nx.neighbors G v !! u = Some w →
                  at_most acc u (dv + w))).
  - split; [apply improves_refl|]. intros v dv u w. by rewrite lookup_empty.
  - intros v dv m acc Hfresh [IH1 IH2].
    destruct (relax_node_improves G v dv acc) as [Hn1 Hn2]. split.
    + by eapply improves_trans.
    + intros v' dv' u w. rewrite lookup_insert. case_decide as Hv.
      * intros [= <-]. subst v'. apply Hn2.
      * intros Hm Hw. eapply at_most_improves; [by eapply IH2|done].
Qed.

Lemma iter_relax_improves G dist k j :
  (k ≤ j)%nat →
  improves (Nat.iter k (nx.relax G) dist) (Nat.iter j (nx.relax G) dist).
Proof.
  induction 1 as [|j _ IH]; [apply improves_refl|].
  eapply improves_trans; [exact IH|]. apply relax_improves.
Qed.

(** After as many rounds as a walk has edges, the table has an entry for
    its end that is at most its weight. *)
Lemma walk_at_most G s vs t (d : Q) :
  walk G s vs t d →
  at_most (Nat.iter (length vs) (nx.relax G) {[s := 0%Q]}) t d.
Proof.
  induction 1 as [|vs v u d w _ (dv & Hdv & Hle) Hw]; cbn [length Nat.iter].
  - exists 0%Q. split; [apply lookup_singleton_eq|apply Qle_refl].
  - destruct (relax_improves G (Nat.iter (length vs) (nx.relax G) {[s := 0%Q]}))
      as [_ H].
    apply (at_most_le _ _ (dv + w)); [by eapply H|lra].
Qed.

(** *** Walks *)

Lemma walk_sources G s vs t d v :
  walk G s vs t d → v ∈ vs → is_Some (G !! v).
Proof.
  induction 1 as [|vs v' u d w _ IH Hw]; [by intros ?%elem_of_nil|].
  intros [->|?]%elem_of_cons; [|by apply IH].
  unfold nx.neighbors in Hw. destruct (G !! v'); [done|].
  by rewrite lookup_empty in Hw.
Qed.

Lemma walk_nonneg G s vs t d : nonneg G → walk G s vs t d → (0 <= d)%Q.
Proof.
  intros HG. induction 1 as [|vs v u d w _ IH Hw]; [apply Qle_refl|].
  apply HG in Hw. lra.
Qed.

(** A walk seen as a walk to [x] followed by a walk from [x]. *)
Lemma walk_split G s a x b t d :
  walk G s (a ++ x :: b) t d →
  ∃ d1 d2, walk G s b x d1 ∧ walk G x (a ++ [x]) t d2 ∧ (d == d1 + d2)%Q.
Proof.
  revert t d. induction a as [|y a IH]; intros t d; cbn [app].
  - inversion 1 as [|vs v u d0 w Hwalk Hw]; subst.
    exists d0, (0 + w)%Q. split; [done|]. split; [|ring].
    apply walk_edge; [constructor|done].
  - inversion 1 as [|vs v u d0 w Hwalk Hw]; subst.
    apply IH in Hwalk as (d1 & d2 & H1 & H2 & Hd).
    exists d1, (d2 + w)%Q. split; [done|]. split; [by apply walk_edge|].
    rewrite Hd. ring.
Qed.

Lemma walk_app G s b m d1 a t d2 :
  walk G s b m d1 → walk G m a t d2 →
  ∃ d, walk G s (a ++ b) t d ∧ (d == d1 + d2)%Q.
Proof.
  intros H1. induction 1 as [|vs v u d2 w _ (d & IH & Hd) Hw]; cbn [app].
  - exists d1. split; [done|ring].
  - exists (d + w)%Q. split; [by apply walk_edge|]. rewrite Hd. ring.
Qed.

Lemma repeated_element (l : list string) :
  ¬ NoDup l → ∃ x l1 l2 l3, l = l1 ++ x :: l2 ++ x :: l3.
Proof.
  induction l as [|a l IH]; intros Hl.
  { destruct Hl. constructor. }
  destruct (decide (a ∈ l)) as [Hin|Hnotin].
  - apply list_elem_of_split in Hin as (l2 & l3 & ->). by exists a, [], l2, l3.
  - destruct IH as (x & l1 & l2 & l3 & ->).
    { intros Hnd. apply Hl. by constructor. }
    by exists x, (a :: l1), l2, l3.
Qed.

(** A walk can be cut down to one that leaves no block twice; without
    negative weights the cut walk weighs no more. *)
Lemma walk_shortcut G s vs t d :
  walk G s vs t d →
  ∃ vs' d', walk G s vs' t d' ∧ NoDup vs' ∧ (nonneg G → (d' <= d)%Q).
Proof.
  remember (length vs) as n eqn:Hn. revert vs d Hn.
  induction n as [n IH] using lt_wf_ind. intros vs d -> Hwalk.
  destruct (decide (NoDup vs)) as [Hnd|Hdup].
  { exists vs, d. split; [done|]. split; [done|]. intros _. apply Qle_refl. }
  apply repeated_element in Hdup as (x & l1 & l2 & l3 & ->).
  apply walk_split in Hwalk as (d1 & d2 & H1 & H2 & Hd).
  apply walk_split in H1 as (d11 & d12 & H11 & H12 & Hd1).
  destruct (walk_app _ _ _ _ _ _ _ _ H11 H2) as (d' & Hcut & Hd').
  destruct (IH (length ((l1 ++ [x]) ++ l3))) with (vs := (l1 ++ [x]) ++ l3)
                                                 (d := d')
    as (vs' & d'' & Hwalk' & Hnd' & Hle); [|done|done|].
  { rewrite !length_app. cbn [length]. rewrite !length_app. cbn [length]. lia. }
  exists vs', d''. split; [done|]. split; [done|]. intros HG.
  pose proof (walk_nonneg _ _ _ _ _ HG H12) as H0.
  specialize (Hle HG). lra.
Qed.

Lemma walk_short_length G s vs t d :
  walk G s vs t d → NoDup vs → (length vs ≤ nx.len G)%nat.
Proof.
  intros Hwalk Hnd. unfold nx.len.
  rewrite <-(size_dom (D := gset string) G).
  rewrite <-(size_list_to_set (C := gset string) vs) by done.
  apply subseteq_size. intros v Hv%elem_of_list_to_set.
  apply elem_of_dom. by eapply walk_sources.
Qed.

(** Every walk from the source is matched by an entry of the final table. *)
Lemma distances_at_most G s vs t d :
  walk G s vs t d →
  ∃ x, nx.distances G s !! t = Some x ∧ (nonneg G → (x <= d)%Q).
Proof.
  intros (vs' & d' & Hwalk & Hnd & Hle)%walk_shortcut.
  pose proof (walk_short_length _ _ _ _ _ Hwalk Hnd) as Hlen.
  apply walk_at_most in Hwalk.
  eapply at_most_improves in Hwalk; [|by apply iter_relax_improves].
  destruct Hwalk as (x & Hx & Hxd). exists x. split; [done|].
  intros HG. specialize (Hle HG). lra.
Qed.

(** *** What [dijkstra_path_length] returns *)

(** A length returned by [dijkstra_path_length] is the total weight of a
    chain of edges from the origin to the destination. *)
Lemma dijkstra_Ok_walk G s t d :
  nx.dijkstra_path_length G s t = Ok d →
  ∃ vs d', walk G s vs t d' ∧ (d == d')%Q.
Proof.
  unfold nx.dijkstra_path_length.
  destruct (nx.has_node G s); cbn [negb]; [|done].
  case_bool_decide as Hst.
  { intros [= <-]. subst. exists [], 0%Q. split; [constructor|reflexivity]. }
  destruct (nx.distances G s !! t) as [d0|] eqn:E; [intros [= ->]|done].
  revert E.
  apply (iter_relax_entries G (λ u x, ∃ vs d', walk G s vs u d' ∧ (x == d')%Q)).
  - intros v u dv w (vs & d' & Hwalk & Hd) Hw. exists (v :: vs), (d' + w)%Q.
    split; [by apply walk_edge|]. by rewrite Qred_correct, Hd.
  - intros u x [<- <-]%lookup_singleton_Some.
    exists [], 0%Q. split; [constructor|reflexivity].
Qed.

(** Without negative weights no chain of edges is shorter: the length
    returned is the shortest-path length. *)
Lemma dijkstra_Ok_least G s t d vs d' :
  nonneg G →
  nx.dijkstra_path_length G s t = Ok d →
  walk G s vs t d' → (d <= d')%Q.
Proof.
  intros HG Hd Hwalk. revert Hd. unfold nx.dijkstra_path_length.
  destruct (nx.has_node G s); cbn [negb]; [|done].
  case_bool_decide as Hst.
  { intros [= <-]. by eapply walk_nonneg. }
  apply distances_at_most in Hwalk as (x & -> & Hle).
  intros [= <-]. by apply Hle.
Qed.

(** Connected blocks have a path length when the origin is a node. *)
Lemma dijkstra_connected_Ok G s t :
  nx.has_node G s = true → connected G s t →
  ∃ d, nx.dijkstra_path_length G s t = Ok d.
Proof.
  intros Hs (vs & d & Hwalk). unfold nx.dijkstra_path_length.
  rewrite Hs. cbn [negb]. case_bool_decide; [by eexists|].
  apply distances_at_most in Hwalk as (x & -> & _). by eexists.
Qed.

Lemma dijkstra_Ok_connected G s t d :
  nx.dijkstra_path_length G s t = Ok d → connected G s t.
Proof. intros (vs & d' & H & _)%dijkstra_Ok_walk. by exists vs, d'. Qed.

(** Blocks that are not connected have no path length: the call raises,
    [NodeNotFound] when the origin is not even a node of the graph and
    [NetworkXNoPath] otherwise. *)
Lemma dijkstra_not_connected G s t :
  ¬ connected G s t →
  nx.dijkstra_path_length G s t
  = Raise (if nx.has_node G s then NetworkXNoPath s t else NodeNotFound s).
Proof.
  intros Hn.
  destruct (nx.dijkstra_path_length G s t) as [d|e] eqn:E.
  { by apply dijkstra_Ok_connected in E. }
  revert E. unfold nx.dijkstra_path_length.
  destruct (nx.has_node G s); cbn [negb]; [|done].
  case_bool_decide; [done|]. by destruct (nx.distances G s !! t).
Qed.

(** An origin without neighbours is connected to no other block. *)
Lemma isolated_not_connected G s t :
  nx.neighbors G s = ∅ → s ≠ t → ¬ connected G s t.
Proof.
  intros Hiso Hne (vs & d & Hwalk). apply Hne.
  induction Hwalk as [|vs v u d w _ IH Hw]; [done|].
  rewrite <-IH, Hiso, lookup_empty in Hw; [done|].
  intros ->. by rewrite Hiso, lookup_empty in Hw.
Qed.

End connection.

(** ** The slot graphs of [compute_node_degrees] *)

Section slot_graphs.

Import analyze_node_degrees.

Implicit Types (route_stats rows : list route_stat)
  (block_positions : gmap string (Q * Q)) (G : nx.Graph)
  (hour : Z) (day n : string).

(** The graph after the node loop: exactly the blocks, none with a
    neighbour. *)
Lemma nodes_only block_positions n :
  let G := map_fold (λ block_id p G, nx.add_node block_id p G) nx.empty
             block_positions in
  (nx.has_node G n = true ↔ n ∈ dom block_positions) ∧ nx.neighbors G n = ∅.
Proof.
  simpl. apply (map_fold_weak_ind (λ G bp,
    (nx.has_node G n = true ↔ n ∈ dom bp) ∧ nx.neighbors G n = ∅)).
  - split; [|done]. rewrite has_node_true, dom_empty_L.
    unfold nx.empty. rewrite lookup_empty. split; [by intros [? ?] | set_solver].
  - intros k p bp G _ [IH1 IH2]. split.
    + rewrite has_node_add_node, IH1, dom_insert_L. set_solver.
    + by rewrite neighbors_add_node.
Qed.

Lemma has_node_foldl_add_row rows G n :
  nx.has_node G n = true → nx.has_node (foldl add_row G rows) n = true.
Proof.
  revert G. induction rows as [|row rows IH]; intros G H; simpl; [done|].
  apply IH. unfold add_row. rewrite has_node_add_edge. auto.
Qed.

Lemma dom_neighbors_foldl_add_row rows G n :
  dom (nx.neighbors (foldl add_row G rows) n) =
    dom (nx.neighbors G n) ∪ list_to_set (omap (other_end n) rows).
Proof.
  revert G. induction rows as [|row rows IH]; intros G; simpl.
  - set_solver.
  - rewrite IH. unfold add_row. rewrite dom_neighbors_add_edge.
    unfold other_end.
    repeat case_decide; simplify_eq; simpl; set_solver.
Qed.

Lemma dom_neighbors_slot_graph route_stats block_positions hour day n :
  dom (nx.neighbors (slot_graph route_stats block_positions hour day) n)
  = distinct_neighbors route_stats hour day n.
Proof.
  unfold slot_graph, distinct_neighbors.
  rewrite dom_neighbors_foldl_add_row.
  destruct (nodes_only block_positions n) as [_ ->]. set_solver.
Qed.

(** The degree networkx reports in a slot graph. *)
Lemma degree_slot_graph route_stats block_positions hour day n :
  nx.degree (slot_graph route_stats block_positions hour day) n =
    (size (distinct_neighbors route_stats hour day n ∖ {[n]})
     + (if decide (n ∈ distinct_neighbors route_stats hour day n)
        then 2 else 0))%nat.
Proof.
  unfold nx.degree.
  rewrite <-(dom_neighbors_slot_graph _ block_positions).
  set (N := nx.neighbors _ n).
  rewrite <-(size_dom (D := gset string) N).
  rewrite bool_decide_decide.
  destruct (decide (is_Some (N !! n))) as [Hs|Hs];
    rewrite <-elem_of_dom in Hs.
  - rewrite decide_True by done.
    rewrite size_difference by set_solver. rewrite size_singleton.
    assert (size (dom N) ≠ 0%nat).
    { intros ?%size_empty_inv. set_solver. }
    lia.
  - rewrite decide_False by done.
    assert (dom N ∖ {[n]} = dom N) as -> by set_solver. lia.
Qed.

Lemma elem_of_target_rows G hour day (row : degree_row) :
  row ∈ target_rows G hour day ↔
    ∃ n, n ∈ TARGET_NODES ∧ nx.has_node G n = true
         ∧ row = DegreeRow (graph_key hour day) n (nx.degree G n).
Proof.
  unfold target_rows. rewrite list_elem_of_bind. split.
  - intros (n & Hrow & Hn). exists n. split; [done|].
    destruct (nx.has_node G n); [|by apply elem_of_nil in Hrow].
    by apply list_elem_of_singleton in Hrow.
  - intros (n & Hn & HG & ->). exists n. split; [|done].
    rewrite HG. by apply list_elem_of_singleton.
Qed.

Lemma elem_of_compute_node_degrees route_stats block_positions row :
  row ∈ compute_node_degrees route_stats block_positions ↔
    ∃ hour day n, hour ∈ HOURS ∧ day ∈ DAYS_OF_WEEK ∧ n ∈ TARGET_NODES
      ∧ nx.has_node (slot_graph route_stats block_positions hour day) n = true
      ∧ row = DegreeRow (graph_key hour day) n
                (nx.degree (slot_graph route_stats block_positions hour day) n).
Proof.
  unfold compute_node_degrees. rewrite list_elem_of_bind. split.
  - intros (hour & (day & H & Hd)%list_elem_of_bind & Hh).
    apply elem_of_target_rows in H as (n & ? & ? & ?). by exists hour, day, n.
  - intros (hour & day & n & Hh & Hd & Hn & HG & ->).
    exists hour. split; [|done]. apply list_elem_of_bind. exists day.
    split; [|done]. apply elem_of_target_rows. by exists n.
Qed.

End slot_graphs.

Section degree_claims.

Import analyze_node_degrees.

Lemma has_node_foldl_add_row_iff rows (G : nx.Graph) n :
  nx.has_node (foldl add_row G rows) n = true
  ↔ nx.has_node G n = true
    ∨ ∃ row, row ∈ rows ∧ (BCTCB2010_x row = n ∨ BCTCB2010_y row = n).
Proof.
  revert G. induction rows as [|row rows IH]; intros G; cbn [foldl].
  - split; [auto|]. intros [?|(row & Hrow & _)]; [done|].
    by apply elem_of_nil in Hrow.
  - rewrite IH. unfold add_row. rewrite has_node_add_edge. split.
    + intros [[->|[->|?]]|(row' & ? & ?)].
      * right. exists row. split; [left|auto].
      * right. exists row. split; [left|auto].
      * by left.
      * right. exists row'. split; [by right|done].
    + intros [?|(row' & Hin & Hn)]; [auto|].
      apply elem_of_cons in Hin as [->|?].
      * left. destruct Hn as [<-|<-]; auto.
      * right. by exists row'.
Qed.

(** Which blocks are nodes of a slot graph: the known blocks and the
    endpoints of the rows of the slot. *)
Lemma has_node_slot_graph route_stats block_positions hour day n :
  nx.has_node (slot_graph route_stats block_positions hour day) n = true
  ↔ n ∈ dom block_positions
    ∨ ∃ row, row ∈ route_stats ∧ in_slot hour day row
             ∧ (BCTCB2010_x row = n ∨ BCTCB2010_y row = n).
Proof.
  unfold slot_graph. rewrite has_node_foldl_add_row_iff.
  destruct (nodes_only block_positions n) as [-> _].
  split; (intros [?|(row & Hrow & Hn)]; [auto|right; exists row]).
  - by apply list_elem_of_filter in Hrow as [? ?].
  - destruct Hn as [? ?]. split; [|done]. by apply list_elem_of_filter.
Qed.

Lemma has_node_slot_graph_block route_stats block_positions hour day block_id :
  block_id ∈ dom block_positions →
  nx.has_node (slot_graph route_stats block_positions hour day) block_id = true.
Proof.
  intros Hb. unfold slot_graph. apply has_node_foldl_add_row.
  by apply (nodes_only block_positions block_id).
Qed.

End degree_claims.

(** C8: every block of the block-position mapping is a node of every slot
    graph [compute_node_degrees] builds; a block that no row of the slot
    touches is still a node, with no neighbour and degree 0. *)
Theorem slot_graph_has_every_block
    (route_stats : list analyze_node_degrees.route_stat)
    (block_positions : gmap string (Q * Q)) (hour : Z) (day block_id : string) :
  block_id ∈ dom block_positions →
  let G := analyze_node_degrees.slot_graph route_stats block_positions hour day in
  nx.has_node G block_id = true
  ∧ (distinct_neighbors route_stats hour day block_id = ∅ →
     nx.neighbors G block_id = ∅ ∧ nx.degree G block_id = 0%nat).
Proof.
  intros Hb G. split; [by apply has_node_slot_graph_block|].
  intros Hiso.
  assert (HN : nx.neighbors G block_id = ∅).
  { apply (dom_empty_iff_L (D := gset string)).
    unfold G. by rewrite dom_neighbors_slot_graph. }
  split; [done|]. unfold nx.degree. rewrite HN. by rewrite lookup_empty.
Qed.

Lemma slot_graph_has_every_block_witness :
  let route_stats :=
    [analyze_node_degrees.RouteStat 10 "Monday" "10113001008" "10076001001" 15 3] in
  let block_positions : gmap string (Q * Q) :=
    {[ "10143001021" := (1, 2)%Q; "10113001008" := (3, 4)%Q ]} in
  let G := analyze_node_degrees.slot_graph route_stats block_positions 10 "Monday" in
  nx.has_node G "10143001021" = true ∧ nx.degree G "10143001021" = 0%nat.
Proof.
  intros route_stats block_positions G.
  destruct (slot_graph_has_every_block route_stats block_positions 10 "Monday"
              "10143001021") as [H1 H2].
  - vm_compute. reflexivity.
  - split; [exact H1|]. apply H2. vm_compute. reflexivity.
Defined.

(** C9, as stated, fails on a slot with a row from a landmark to itself: the
    landmark has one distinct neighbour (itself) and the emitted degree
    is 2. *)
Lemma degree_counts_self_loop_twice :
  let route_stats :=
    [analyze_node_degrees.RouteStat 10 "Monday" "10113001008" "10113001008" 5 1] in
  analyze_node_degrees.compute_node_degrees route_stats ∅
  = [analyze_node_degrees.DegreeRow
       (analyze_node_degrees.graph_key 10 "Monday") "10113001008" 2]
  ∧ distinct_neighbors route_stats 10 "Monday" "10113001008" = {["10113001008"]}
  ∧ size (distinct_neighbors route_stats 10 "Monday" "10113001008") = 1%nat
  ∧ 2%nat ≠ size (distinct_neighbors route_stats 10 "Monday" "10113001008").
Proof.
  intros route_stats.
  split; [vm_compute; reflexivity|]. split; [reflexivity|].
  split; [vm_compute; reflexivity|]. vm_compute. discriminate.
Qed.

(** C9, amended: the rows of [compute_node_degrees] are exactly one per slot
    and landmark that is a node of the slot graph (a landmark that is not a
    node gets no row), and the degree is the number of distinct neighbours
    other than the landmark itself, plus 2 when the slot has a row from the
    landmark to itself. *)
Theorem compute_node_degrees_rows
    (route_stats : list analyze_node_degrees.route_stat)
    (block_positions : gmap string (Q * Q))
    (row : analyze_node_degrees.degree_row) :
  row ∈ analyze_node_degrees.compute_node_degrees route_stats block_positions
  ↔ ∃ hour day n,
      hour ∈ analyze_node_degrees.HOURS
      ∧ day ∈ analyze_node_degrees.DAYS_OF_WEEK
      ∧ n ∈ analyze_node_degrees.TARGET_NODES
      ∧ nx.has_node
          (analyze_node_degrees.slot_graph route_stats block_positions hour day) n
        = true
      ∧ row = analyze_node_degrees.DegreeRow
                (analyze_node_degrees.graph_key hour day) n
                (size (distinct_neighbors route_stats hour day n ∖ {[n]})
                 + (if decide (n ∈ distinct_neighbors route_stats hour day n)
                    then 2 else 0)).
Proof.
  rewrite elem_of_compute_node_degrees.
  split; intros (hour & day & n & ? & ? & ? & ? & ->); exists hour, day, n;
    by rewrite degree_slot_graph.
Qed.

(** ** Loops *)

Section loops.

Context {A S R : Type}.
Implicit Types (l : list A) (body : A → S → flow S R) (s : S).

Lemma for_in_app l1 l2 body s :
  for_in (l1 ++ l2) body s =
    match for_in l1 body s with
    | Next s' => for_in l2 body s'
    | Return r => Return r
    | Throw e => Throw e
    end.
Proof.
  revert s. induction l1 as [|x l1 IH]; intros s; simpl; [done|].
  destruct (body x s); auto.
Qed.

Lemma for_in_bind {B} (f : B → list A) (lb : list B) body s :
  for_in (lb ≫= f) body s = for_in lb (λ b, for_in (f b) body) s.
Proof.
  revert s. induction lb as [|b lb IH]; intros s; simpl; [done|].
  rewrite for_in_app. destruct (for_in (f b) body s); auto.
Qed.

Lemma for_in_ext l body1 body2 s :
  (∀ x s', body1 x s' = body2 x s') → for_in l body1 s = for_in l body2 s.
Proof.
  intros H. revert s. induction l as [|x l IH]; intros s; simpl; [done|].
  rewrite H. destruct (body2 x s); auto.
Qed.

End loops.

(** ** Hours and dwell *)

Section hours.

Import analyze_routes.

Lemma Qfloor_shift (z : Z) (q : Q) : Qfloor (inject_Z z + q) = z + Qfloor q.
Proof.
  destruct q as [n d]. unfold Qplus, inject_Z, Qfloor. simpl.
  rewrite Z.mul_1_r, Pos.mul_1_l. apply Z.div_add_l. lia.
Qed.

Lemma current_hour_floor start_time total_time :
  current_hour start_time total_time = floor_hour start_time total_time.
Proof. unfold current_hour, floor_hour. by rewrite Qfloor_shift. Qed.

Lemma current_hour_range start_time total_time :
  0 ≤ current_hour start_time total_time < 24.
Proof. unfold current_hour. apply Z.mod_pos_bound. lia. Qed.

Lemma current_hour_comp start_time (t t' : Q) :
  (t == t')%Q → current_hour start_time t = current_hour start_time t'.
Proof. intros H. unfold current_hour. by rewrite H. Qed.

Lemma add_visit_time_dwell to_block (t : Q) :
  (add_visit_time to_block t == t + dwell to_block)%Q.
Proof.
  unfold add_visit_time, dwell. rewrite !bool_decide_decide.
  repeat case_decide; ring.
Qed.

End hours.

(** ** One leg of [calculate_route_time] *)

Section legs.

Import analyze_routes.

Implicit Types (graphs : gmap string nx.Graph) (start_time : Z)
  (day from_block to_block : string) (st : sim_state) (route : list string).

Lemma leg_Next graphs start_time day from_block to_block st st' :
  leg graphs start_time day (from_block, to_block) st = Next st' ↔
    ∃ G path_time,
      graphs !! graph_key (current_hour start_time (total_time st)) day = Some G
      ∧ nx.truthy G = true
      ∧ nx.dijkstra_path_length G from_block to_block = Ok path_time
      ∧ st' = arrive start_time to_block path_time st.
Proof.
  unfold leg, arrive.
  destruct (graphs !! _) as [G|].
  2: { split; [intros [=] | intros (? & ? & [=] & _)]. }
  destruct (nx.truthy G) eqn:HG; cbn [negb].
  2: { split; [intros [=] | intros (? & ? & [= <-] & ? & _); congruence]. }
  destruct (nx.dijkstra_path_length G from_block to_block) as [p|e] eqn:Hp.
  - split.
    + intros [= <-]. by exists G, p.
    + intros (? & p' & [= <-] & _ & Hp' & ->).
      rewrite Hp in Hp'. by injection Hp' as <-.
  - split; [intros [=] | intros (? & ? & [= <-] & _ & ? & _); congruence].
Qed.

Lemma leg_Return graphs start_time day from_block to_block st r :
  leg graphs start_time day (from_block, to_block) st = Return r ↔
    r = None
    ∧ (graphs !! graph_key (current_hour start_time (total_time st)) day = None
       ∨ ∃ G, graphs !! graph_key (current_hour start_time (total_time st)) day
                = Some G ∧ nx.truthy G = false).
Proof.
  unfold leg.
  destruct (graphs !! _) as [G|].
  2: { split; [intros [= <-]; auto | by intros [-> _]]. }
  destruct (nx.truthy G) eqn:HG; cbn [negb].
  2: { split; [intros [= <-]; eauto | by intros [-> _]]. }
  destruct (nx.dijkstra_path_length G from_block to_block);
    (split; [intros [=] | intros [_ [[=]|(? & [= <-] & ?)]]; congruence]).
Qed.

Lemma leg_Throw graphs start_time day from_block to_block st e :
  leg graphs start_time day (from_block, to_block) st = Throw e ↔
    ∃ G,
      graphs !! graph_key (current_hour start_time (total_time st)) day = Some G
      ∧ nx.truthy G = true
      ∧ nx.dijkstra_path_length G from_block to_block = Raise e.
Proof.
  unfold leg.
  destruct (graphs !! _) as [G|].
  2: { split; [intros [=] | intros (? & [=] & _)]. }
  destruct (nx.truthy G) eqn:HG; cbn [negb].
  2: { split; [intros [=] | intros (? & [= <-] & ? & _); congruence]. }
  destruct (nx.dijkstra_path_length G from_block to_block) as [p|e'] eqn:Hp.
  - split; [intros [=] | intros (? & [= <-] & _ & ?); congruence].
  - split; [intros [= <-]; eauto | intros (? & [= <-] & _ & ?); congruence].
Qed.

Lemma length_legs route : length (legs route) = (length route - 1)%nat.
Proof.
  induction route as [|a [|b route] IH]; simpl in *; [done..|].
  rewrite IH. lia.
Qed.

(** The loop run as a whole passes through the state after [k] legs. *)
Lemma run_through graphs start_time day route k :
  for_in (legs route) (leg graphs start_time day) (initial start_time) =
    match after_legs graphs start_time day route k with
    | Next st => for_in (drop k (legs route)) (leg graphs start_time day) st
    | Return r => Return r
    | Throw e => Throw e
    end.
Proof.
  unfold after_legs. rewrite <-for_in_app. by rewrite take_drop.
Qed.

Lemma after_legs_all graphs start_time day route k :
  (length (legs route) ≤ k)%nat →
  after_legs graphs start_time day route k =
    for_in (legs route) (leg graphs start_time day) (initial start_time).
Proof. intros H. unfold after_legs. by rewrite take_ge. Qed.

Lemma after_legs_S graphs start_time day route k blocks :
  legs route !! k = Some blocks →
  after_legs graphs start_time day route (S k) =
    match after_legs graphs start_time day route k with
    | Next st => leg graphs start_time day blocks st
    | Return r => Return r
    | Throw e => Throw e
    end.
Proof.
  intros H. unfold after_legs. rewrite (take_S_r _ _ _ H), for_in_app.
  destruct (for_in (take k (legs route)) _ _); [simpl|done..].
  by destruct (leg graphs start_time day blocks s).
Qed.

(** *** What a run of legs does to the three variables *)

Lemma legs_invariant graphs start_time day (l : list (string * string)) st st' :
  for_in l (leg graphs start_time day) st = Next st' →
  (total_time st' - time_on_road st'
   == total_time st - time_on_road st + Qsum (dwell ∘ snd <$> l))%Q
  ∧ ∃ new, arrival_times st' = arrival_times st ++ new
           ∧ length new = length l.
Proof.
  revert st. induction l as [|[a b] l IH]; intros st; cbn [for_in].
  - intros [= <-]. split; [simpl; ring|]. exists []. by rewrite app_nil_r.
  - destruct (leg graphs start_time day (a, b) st) as [st1| |] eqn:E; [|done..].
    intros H. apply IH in H as [H (new & Hnew & Hlen)].
    apply leg_Next in E as (G & p & _ & _ & _ & ->).
    cbn [arrive total_time time_on_road arrival_times] in *. split.
    + rewrite H, add_visit_time_dwell, fmap_cons.
      unfold Qsum. cbn [foldr compose snd]. ring.
    + exists (((start_time + Qfloor (add_visit_time b (total_time st + p) / 60))
                `mod` 24) :: new).
      split; [by rewrite Hnew, <-app_assoc|]. simpl. by rewrite Hlen.
Qed.

End legs.

(** ** Arrival times *)

Section arrivals.

Import analyze_routes.

Implicit Types (graphs : gmap string nx.Graph) (start_time : Z)
  (day : string) (st : sim_state) (route : list string).

Lemma after_legs_arrivals graphs start_time day route k st :
  after_legs graphs start_time day route k = Next st →
  (k ≤ length (legs route))%nat →
  arrival_times st !! 0%nat = Some start_time
  ∧ length (arrival_times st) = S k.
Proof.
  intros H Hk. apply legs_invariant in H as [_ (new & -> & Hlen)].
  rewrite length_take in Hlen. split; [done|].
  cbn [initial arrival_times app length]. lia.
Qed.

Lemma after_legs_last_arrival graphs start_time day route k st :
  after_legs graphs start_time day route (S k) = Next st →
  (k < length (legs route))%nat →
  arrival_times st !! S k
  = Some ((start_time + Qfloor (total_time st / 60)) `mod` 24).
Proof.
  intros H Hk.
  destruct (lookup_lt_is_Some_2 (legs route) k Hk) as [[a b] Hleg].
  rewrite (after_legs_S _ _ _ _ _ _ Hleg) in H.
  destruct (after_legs graphs start_time day route k) as [st0| |] eqn:E;
    [|done..].
  apply after_legs_arrivals in E as [_ Hlen]; [|lia].
  apply leg_Next in H as (G & p & _ & _ & _ & ->).
  cbn [arrive arrival_times total_time].
  rewrite lookup_app_r by lia. by rewrite Hlen, Nat.sub_diag.
Qed.

Lemma legs_Return_None graphs start_time day (l : list (string * string)) st r :
  for_in l (leg graphs start_time day) st = Return r → r = None.
Proof.
  revert st. induction l as [|[a b] l IH]; intros st; cbn [for_in]; [done|].
  destruct (leg graphs start_time day (a, b) st) as [st1|r1|] eqn:E;
    [apply IH| |done].
  intros [= <-]. by apply leg_Return in E as [-> _].
Qed.

Lemma after_legs_dwell graphs start_time day route k st :
  after_legs graphs start_time day route k = Next st →
  (total_time st == time_on_road st + dwell_so_far route k)%Q.
Proof.
  intros H. apply legs_invariant in H as [H _]. unfold dwell_so_far.
  cbn [initial total_time time_on_road] in H.
  transitivity (time_on_road st + (total_time st - time_on_road st))%Q; [ring|].
  rewrite H. ring.
Qed.

(** A run that completes has completed every prefix, and keeps what the
    prefix appended to [arrival_times]. *)
Lemma completed_prefix graphs start_time day route k st :
  for_in (legs route) (leg graphs start_time day) (initial start_time) = Next st →
  ∃ st_k, after_legs graphs start_time day route k = Next st_k
          ∧ ∃ new, arrival_times st = arrival_times st_k ++ new.
Proof.
  rewrite (run_through _ _ _ _ k).
  destruct (after_legs graphs start_time day route k) as [st_k| |]; [|done..].
  intros H. exists st_k. split; [done|].
  apply legs_invariant in H as [_ (new & ? & _)]. by exists new.
Qed.

Lemma calculate_route_time_length graphs start_time day route time_on_road arrivals :
  calculate_route_time route start_time day graphs
    = Ok (Some (time_on_road, arrivals)) →
  arrivals !! 0%nat = Some start_time
  ∧ length arrivals = S (length (legs route)).
Proof.
  unfold calculate_route_time.
  destruct (for_in _ _ _) as [st|r|] eqn:Hrun; [| |done].
  2: { apply legs_Return_None in Hrun as ->. done. }
  intros [= <- <-].
  apply (after_legs_arrivals graphs start_time day route); [|done].
  by rewrite after_legs_all.
Qed.

End arrivals.


(** ** The route simulator *)

(** The dwell of the three landmarks. *)
Lemma dwell_table :
  dwell "10113001008" = 30%Q ∧ dwell "10076001001" = 120%Q
  ∧ dwell "10143001021" = 180%Q.
Proof. by vm_compute. Qed.

(** A run that passes midnight: starting at 21 on a Monday, ten minutes to
    the MET and three hours there bring the second leg to hour 0, and it is
    the graph stored under "0_Monday" that routes it. *)
Example midnight_wrap :
  let late := nx.add_edge "10113001008" "10143001021" 10 nx.empty in
  let night := nx.add_edge "10143001021" "10076001001" 7 nx.empty in
  let graphs : gmap string nx.Graph :=
    {[ "21_Monday" := late; "0_Monday" := night ]} in
  let st := arrive 21 "10143001021" 10 (analyze_routes.initial 21) in
  after_legs graphs 21 "Monday" ["10113001008"; "10143001021"; "10076001001"] 1
    = Next st
  ∧ analyze_routes.current_hour 21 (analyze_routes.total_time st) = 0
  ∧ graphs !! analyze_routes.graph_key 0 "Monday" = Some night
  ∧ analyze_routes.leg graphs 21 "Monday" ("10143001021", "10076001001") st
    = Next (arrive 21 "10076001001" 7 st).
Proof.
  intros late night graphs st.
  split; [by vm_compute|]. split; [by vm_compute|].
  split; [reflexivity|]. by vm_compute.
Qed.

(** C6, as stated, fails: the appended arrival time is a whole hour.  After
    a 15-minute leg to the Empire State Building and the 120-minute dwell
    there, [total_time] is 135 and the code appends 12, while
    (10 + 135/60) mod 24 is 12.25. *)
Lemma arrival_time_drops_the_fraction :
  ∃ st arrivals,
    after_legs monday_graphs 10 "Monday" route_1 1 = Next st
    ∧ analyze_routes.total_time st = 135%Q
    ∧ analyze_routes.calculate_route_time route_1 10 "Monday" monday_graphs
      = Ok (Some (35%Q, arrivals))
    ∧ arrivals !! 1%nat = Some 12
    ∧ (fractional_arrival 10 (analyze_routes.total_time st) == 49 # 4)%Q
    ∧ ¬ (inject_Z 12 == fractional_arrival 10 (analyze_routes.total_time st))%Q.
Proof.
  exists (analyze_routes.SimState 135 15 [10; 12]), [10; 12; 15].
  repeat split; by vm_compute.
Qed.

(** C6, amended: a run that completes returns an arrival list that starts
    with the start hour and has one more entry than the route has legs (one
    entry per stop); the entry of leg [k] is the whole hour
    (start_time + floor(total_time/60)) mod 24, where [total_time] is the
    value after that leg, the dwell at the stop just reached included. *)
Theorem arrival_times_are_whole_hours
    (graphs : gmap string nx.Graph) (route : list string) (start_time : Z)
    (day : string) (time_on_road : Q) (arrivals : list Z) :
  analyze_routes.calculate_route_time route start_time day graphs
    = Ok (Some (time_on_road, arrivals)) →
  arrivals !! 0%nat = Some start_time
  ∧ length arrivals = S (length (analyze_routes.legs route))
  ∧ (route ≠ [] → length arrivals = length route)
  ∧ ∀ k, (k < length (analyze_routes.legs route))%nat →
      ∃ st,
        after_legs graphs start_time day route (S k) = Next st
        ∧ arrivals !! S k
          = Some ((start_time + Qfloor (analyze_routes.total_time st / 60))
                    `mod` 24)
        ∧ (analyze_routes.total_time st
           == analyze_routes.time_on_road st + dwell_so_far route (S k))%Q.
Proof.
  intros Hcall.
  destruct (calculate_route_time_length _ _ _ _ _ _ Hcall) as [H0 Hlen].
  revert Hcall. unfold analyze_routes.calculate_route_time.
  destruct (for_in _ _ _) as [st|r|] eqn:Hrun; [| |done].
  2: { apply legs_Return_None in Hrun as ->. done. }
  intros [= <- <-].
  split; [done|]. split; [done|]. split.
  { intros Hne. rewrite Hlen, length_legs. destruct route; [done|simpl; lia]. }
  intros k Hk.
  destruct (completed_prefix _ _ _ _ (S k) _ Hrun) as (st_k & Hk' & new & Hnew).
  exists st_k. split; [done|]. split.
  - rewrite Hnew. rewrite lookup_app_l.
    + by apply (after_legs_last_arrival graphs start_time day route).
    + apply after_legs_arrivals in Hk' as [_ ->]; lia.
  - by apply (after_legs_dwell graphs start_time day).
Qed.

(** ** The sweep of [evaluate_routes] *)

Section sweeps.

Import analyze_routes.

Implicit Types (graphs : gmap string nx.Graph) (start_time idx : Z)
  (day : string) (route : list string)
  (l : list (Z * string * (Z * list string))) (acc table : list route_row).

Lemma for_in_singleton {A S R} (x : A) (body : A → S → flow S R) s :
  for_in [x] body s = body x s.
Proof. cbn [for_in]. by destruct (body x s). Qed.

Lemma evaluate_routes_sweep graphs :
  evaluate_routes graphs = table_of (sweep graphs combinations []).
Proof.
  unfold evaluate_routes, table_of, sweep, combinations.
  rewrite for_in_bind.
  erewrite (for_in_ext START_TIMES); [reflexivity|].
  intros start_time acc. cbn beta. rewrite for_in_bind.
  apply for_in_ext. intros day acc'. rewrite for_in_bind.
  apply for_in_ext. intros numbered acc''. by rewrite for_in_singleton.
Qed.


Lemma sweep_cons graphs start_time day idx route l acc :
  sweep graphs ((start_time, day, (idx, route)) :: l) acc =
    match calculate_route_time route start_time day graphs with
    | Raise e => Throw e
    | Ok None => sweep graphs l acc
    | Ok (Some (time_on_road, arrivals)) =>
        sweep graphs l
          (acc ++ [RouteRow ("Route " +:+ pretty idx) start_time day
                            (round2 time_on_road) arrivals])
    end.
Proof.
  unfold sweep. cbn [for_in]. unfold evaluate_route.
  by destruct (calculate_route_time route start_time day graphs)
    as [[[? ?]|]|].
Qed.


(** A combination whose simulation raises makes the sweep raise. *)
Lemma sweep_raises graphs start_time day idx route l acc e :
  (start_time, day, (idx, route)) ∈ l →
  calculate_route_time route start_time day graphs = Raise e →
  ∃ e', sweep graphs l acc = Throw e'.
Proof.
  intros Hin Hc. revert acc.
  induction l as [|[[s d] [i r]] l IH]; intros acc.
  { by apply elem_of_nil in Hin. }
  rewrite sweep_cons. apply elem_of_cons in Hin as [[= <- <- <- <-]|Hin].
  - rewrite Hc. eauto.
  - destruct (calculate_route_time r s d graphs) as [[[? ?]|]|]; eauto.
Qed.

Lemma row_of_label graphs c row :
  row_of graphs c = Some row → row_label row = label c.
Proof.
  destruct c as [[s d] [i r]]. unfold row_of.
  destruct (calculate_route_time r s d graphs) as [[[t arr]|]|]; [|done..].
  by intros [= <-].
Qed.

(** A sweep that completes has appended the rows of its combinations, in
    order. *)
Lemma sweep_Next graphs l acc table :
  sweep graphs l acc = Next table → table = acc ++ omap (row_of graphs) l.
Proof.
  revert acc. induction l as [|[[s d] [i r]] l IH]; intros acc.
  { intros [= <-]. by rewrite app_nil_r. }
  rewrite sweep_cons. cbn [omap list_omap]. unfold row_of at 1.
  destruct (calculate_route_time r s d graphs) as [[[t arr]|]|]; [| |done].
  - intros ->%IH. by rewrite <-app_assoc.
  - apply IH.
Qed.


(** The table of a sweep that completes: the rows of the combinations
    whose simulation has a result, in the order of the loops. *)
Lemma evaluate_routes_table graphs table :
  evaluate_routes graphs = Ok table →
  table = omap (row_of graphs) combinations.
Proof.
  rewrite evaluate_routes_sweep.
  destruct (sweep graphs combinations []) as [t|[]|] eqn:E; [|done].
  intros [= <-]. by apply sweep_Next in E.
Qed.

Lemma combinations_three_stops :
  Forall (λ c, length (c.2).2 = 3%nat) combinations.
Proof. apply (bool_decide_unpack _). by vm_compute. Qed.

(** Every row has three arrival times, so that the table has the seven
    columns [evaluate_routes] names. *)
Lemma row_has_three_arrivals graphs table row :
  evaluate_routes graphs = Ok table →
  row ∈ table →
  length (row_arrivals row) = 3%nat.
Proof.
  intros ->%evaluate_routes_table
         ([[s d] [i r]] & Hc & Hrow)%list_elem_of_omap.
  pose proof combinations_three_stops as H3.
  rewrite Forall_forall in H3. apply H3 in Hc. cbn [snd] in Hc.
  unfold row_of in Hrow.
  destruct (calculate_route_time r s d graphs) as [[[t arr]|]|] eqn:E;
    [|done..].
  injection Hrow as <-. cbn [row_arrivals].
  apply calculate_route_time_length in E as [_ ->].
  rewrite length_legs, Hc. done.
Qed.

Lemma combinations_labels_NoDup : NoDup (label <$> combinations).
Proof. apply (bool_decide_unpack _). by vm_compute. Qed.

End sweeps.

Section decided.

Import analyze_routes.

(** The leg that ends a run decides what [calculate_route_time] returns. *)
Lemma run_decided (graphs : gmap string nx.Graph) start_time day route k st blocks :
  after_legs graphs start_time day route k = Next st →
  legs route !! k = Some blocks →
  match leg graphs start_time day blocks st with
  | Next _ => True
  | Return r => calculate_route_time route start_time day graphs = Ok r
  | Throw e => calculate_route_time route start_time day graphs = Raise e
  end.
Proof.
  intros Hk Hleg. unfold calculate_route_time.
  rewrite (run_through _ _ _ _ (S k)), (after_legs_S _ _ _ _ _ _ Hleg), Hk.
  by destruct (leg graphs start_time day blocks st).
Qed.

End decided.


(** C10: a slot graph that is present but has no node is treated as a
    missing one: if the key of the first leg maps to it, the result is
    (None, None), the same as with the key deleted from the mapping. *)
Theorem empty_slot_graph_is_missing
    (graphs : gmap string nx.Graph) (from_block to_block : string)
    (rest : list string) (start_time : Z) (day : string) (G : nx.Graph) :
  let route := from_block :: to_block :: rest in
  let key :=
    analyze_routes.graph_key (analyze_routes.current_hour start_time 0) day in
  graphs !! key = Some G →
  nx.len G = 0%nat →
  analyze_routes.calculate_route_time route start_time day graphs = Ok None
  ∧ analyze_routes.calculate_route_time route start_time day (delete key graphs)
    = Ok None.
Proof.
  intros route key HG Hlen.
  assert (Hfalse : nx.truthy G = false).
  { unfold nx.truthy. by rewrite Hlen. }
  split.
  - pose proof (run_decided graphs start_time day route 0
                  (analyze_routes.initial start_time) (from_block, to_block)
                  eq_refl eq_refl) as H.
    assert (E : analyze_routes.leg graphs start_time day (from_block, to_block)
                  (analyze_routes.initial start_time) = Return None).
    { apply leg_Return. split; [done|]. right. by exists G. }
    by rewrite E in H.
  - pose proof (run_decided (delete key graphs) start_time day route 0
                  (analyze_routes.initial start_time) (from_block, to_block)
                  eq_refl eq_refl) as H.
    assert (E : analyze_routes.leg (delete key graphs) start_time day
                  (from_block, to_block) (analyze_routes.initial start_time)
                = Return None).
    { apply leg_Return. split; [done|]. left. apply lookup_delete_eq. }
    by rewrite E in H.
Qed.

(** C2, as stated, fails: with a slot graph for hour 10 on Monday in which
    the three landmarks are isolated nodes, the first leg of the first
    combination has no path; [NetworkXNoPath] escapes [evaluate_routes] and
    no table is returned. *)
Lemma no_path_escapes_the_sweep :
  let graphs : gmap string nx.Graph := {[ "10_Monday" := isolated_landmarks ]} in
  graphs !! analyze_routes.graph_key 10 "Monday" = Some isolated_landmarks
  ∧ nx.truthy isolated_landmarks = true
  ∧ ¬ connected isolated_landmarks "10113001008" "10076001001"
  ∧ analyze_routes.evaluate_routes graphs
    = Raise (NetworkXNoPath "10113001008" "10076001001")
  ∧ ¬ ∃ table, analyze_routes.evaluate_routes graphs = Ok table.
Proof.
  intros graphs.
  split; [reflexivity|]. split; [vm_compute; reflexivity|].
  split; [by apply isolated_not_connected|].
  split; [vm_compute; reflexivity|].
  intros [table H]. vm_compute in H. discriminate H.
Qed.

(** C1 against the code: [build_graphs] builds no graph and returns no
    mapping.  Whatever the dataframe operations yield, the call falls off
    the end of the body and gives [None], and [main], which unpacks the
    result, raises [TypeError] before any route is evaluated. *)
Theorem build_graphs_returns_None
    {DataFrame RouteStats Degrees : Type}
    (merge_mean_coords : DataFrame → DataFrame → DataFrame)
    (groupby_route_stats : DataFrame → RouteStats)
    (unique_block_positions : DataFrame → gmap string (Q * Q))
    (compute_mean_coords : DataFrame → DataFrame)
    (df mean_coords : DataFrame) :
  analyze_routes.build_graphs (Degrees := Degrees) merge_mean_coords
    groupby_route_stats unique_block_positions df mean_coords = None
  ∧ analyze_routes.main (Degrees := Degrees) merge_mean_coords
      groupby_route_stats unique_block_positions compute_mean_coords df
    = Raise TypeError.
Proof. split; reflexivity. Qed.

(** ** The theorems at concrete runs *)

Lemma arrival_times_are_whole_hours_witness :
  let arrivals := [10; 12; 15] in
  arrivals !! 0%nat = Some 10
  ∧ length arrivals = 3%nat
  ∧ ∃ st,
      after_legs monday_graphs 10 "Monday" route_1 2 = Next st
      ∧ arrivals !! 2%nat
        = Some ((10 + Qfloor (analyze_routes.total_time st / 60)) `mod` 24).
Proof.
  intros arrivals.
  destruct (arrival_times_are_whole_hours monday_graphs route_1 10 "Monday"
              35 arrivals) as (H0 & Hlen & _ & Hk).
  { by vm_compute. }
  split; [exact H0|]. split; [exact Hlen|].
  destruct (Hk 1%nat) as (st & Hst & Harr & _).
  { vm_compute. lia. }
  exists st. split; [exact Hst | exact Harr].
Defined.


Lemma empty_slot_graph_is_missing_witness :
  let graphs : gmap string nx.Graph := {[ "10_Monday" := nx.empty ]} in
  analyze_routes.calculate_route_time route_1 10 "Monday" graphs = Ok None
  ∧ analyze_routes.calculate_route_time route_1 10 "Monday"
      (delete "10_Monday" graphs) = Ok None.
Proof.
  intros graphs.
  apply (empty_slot_graph_is_missing graphs "10113001008" "10076001001"
           ["10143001021"] 10 "Monday" nx.empty).
  - reflexivity.
  - reflexivity.
Defined.


(** ** Slot keys *)

Section keys.

Lemma chars_app (s1 s2 : string) : chars (s1 +:+ s2) = chars s1 ++ chars s2.
Proof. induction s1 as [|c s1 IH]; simpl; [done|]. by rewrite IH. Qed.

Lemma chars_inj (s1 s2 : string) : chars s1 = chars s2 → s1 = s2.
Proof.
  revert s2. induction s1 as [|c s1 IH]; intros [|c' s2]; simpl; try done.
  intros [= -> ?]. f_equal. by apply IH.
Qed.

Lemma pretty_N_char_digit (x : N) : is_digit (pretty_N_char x).
Proof.
  unfold pretty_N_char, is_digit.
  repeat case_match; vm_compute; eauto.
Qed.

Lemma pretty_N_go_digits (x : N) (s : string) :
  Forall is_digit (chars s) → Forall is_digit (chars (pretty_N_go x s)).
Proof.
  revert s. induction (N.lt_wf_0 x) as [x _ IH]; intros s Hs.
  destruct (decide (x = 0)%N) as [->|Hx].
  { by rewrite pretty_N_go_0. }
  rewrite pretty_N_go_step by lia. apply IH.
  - apply N.div_lt; lia.
  - constructor; [apply pretty_N_char_digit|done].
Qed.

Lemma pretty_N_digits (x : N) : Forall is_digit (chars (pretty x)).
Proof.
  unfold pretty, pretty_N. case_decide.
  - repeat constructor. vm_compute. eauto.
  - apply pretty_N_go_digits. constructor.
Qed.

(** The decimal text of an integer has no underscore. *)
Lemma pretty_Z_no_underscore (x : Z) : underscore ∉ chars (pretty x).
Proof.
  assert (Hd : ∀ n : N, underscore ∉ chars (pretty n)).
  { intros n Hin. pose proof (pretty_N_digits n) as H.
    rewrite Forall_forall in H. destruct (H _ Hin) as [d Hd].
    vm_compute in Hd. discriminate Hd. }
  destruct x as [|p|p]; unfold pretty, pretty_Z.
  - intros Hc%list_elem_of_singleton. vm_compute in Hc. discriminate Hc.
  - apply (Hd (N.pos p)).
  - rewrite chars_app. intros [Hc|Hc]%elem_of_app.
    + apply list_elem_of_singleton in Hc. vm_compute in Hc. discriminate Hc.
    + by apply (Hd (N.pos p)).
Qed.

(** Text cut at its first underscore is cut in one way only. *)
Lemma first_underscore (l1 l2 r1 r2 : list Ascii.ascii) :
  underscore ∉ l1 → underscore ∉ l2 →
  l1 ++ underscore :: r1 = l2 ++ underscore :: r2 → l1 = l2 ∧ r1 = r2.
Proof.
  revert l2. induction l1 as [|c l1 IH]; intros [|c' l2] H1 H2; simpl.
  - by intros [= ->].
  - intros [= <- _]. destruct H2. left.
  - intros [= -> _]. destruct H1. left.
  - intros [= -> Heq]. destruct (IH l2) as [-> ->]; [| |done..].
    + intros ?. apply H1. by right.
    + intros ?. apply H2. by right.
Qed.

Lemma graph_key_chars (hour : Z) (day : string) :
  chars (analyze_routes.graph_key hour day)
  = chars (pretty hour) ++ underscore :: chars day.
Proof. unfold analyze_routes.graph_key. by rewrite !chars_app. Qed.

Lemma graph_key_inj_both (hour hour' : Z) (day day' : string) :
  analyze_routes.graph_key hour day = analyze_routes.graph_key hour' day' →
  hour = hour' ∧ day = day'.
Proof.
  intros H%(f_equal chars). rewrite !graph_key_chars in H.
  apply first_underscore in H as [Hh Hd]; [|apply pretty_Z_no_underscore..].
  split; [|by apply chars_inj]. by apply (inj pretty), chars_inj.
Qed.

End keys.

(** X15: the key of a slot determines the slot: two keys are equal only
    for the same hour and the same day, in the degree table as in the
    mapping of slot graphs. *)
Theorem slot_key_determines_slot (hour hour' : Z) (day day' : string) :
  (analyze_node_degrees.graph_key hour day
   = analyze_node_degrees.graph_key hour' day'
   ↔ hour = hour' ∧ day = day')
  ∧ (analyze_routes.graph_key hour day = analyze_routes.graph_key hour' day'
     ↔ hour = hour' ∧ day = day').
Proof.
  split; (split; [apply graph_key_inj_both|by intros [-> ->]]).
Qed.

(** ** Edges of the slot graphs *)

Section edges.

Implicit Types (G : nx.Graph) (a b u v : string) (w : Q).

(** The weight [add_edge] leaves between two blocks. *)
Lemma neighbors_add_edge_lookup G u v w a b :
  nx.neighbors (nx.add_edge u v w G) a !! b =
    if decide ((a = u ∧ b = v) ∨ (a = v ∧ b = u)) then Some w
    else nx.neighbors G a !! b.
Proof.
  assert (Hu : is_Some (nx.ensure_node v (nx.ensure_node u G) !! u)).
  { rewrite !is_Some_ensure_node. auto. }
  assert (Hv : is_Some (nx.ensure_node v (nx.ensure_node u G) !! v)).
  { rewrite !is_Some_ensure_node. auto. }
  assert (HN : ∀ k, nx.neighbors (nx.ensure_node v (nx.ensure_node u G)) k
                    = nx.neighbors G k).
  { intros k. by rewrite !neighbors_ensure_node. }
  unfold nx.add_edge. revert Hu Hv HN.
  generalize (nx.ensure_node v (nx.ensure_node u G)). intros G' [du Hu] [dv Hv] HN.
  rewrite <-(HN a). unfold nx.neighbors.
  rewrite !lookup_alter.
  destruct (decide (v = a)) as [->|Hva], (decide (u = a)) as [->|Hua];
    rewrite ?Hu, ?Hv; cbn [fmap option_fmap option_map nx.set_nbr nx.nbrs];
    rewrite ?lookup_insert; repeat case_decide; try done; naive_solver.
Qed.

Lemma neighbors_empty a : nx.neighbors nx.empty a = ∅.
Proof. unfold nx.neighbors, nx.empty. by rewrite lookup_empty. Qed.

Lemma nonneg_empty : nonneg nx.empty.
Proof. intros v u w. by rewrite neighbors_empty, lookup_empty. Qed.

Lemma nonneg_add_node G n p : nonneg G → nonneg (nx.add_node n p G).
Proof. intros HG v u w. rewrite neighbors_add_node. apply HG. Qed.

Lemma nonneg_add_edge G u v w :
  (0 <= w)%Q → nonneg G → nonneg (nx.add_edge u v w G).
Proof.
  intros Hw HG a b w'. rewrite neighbors_add_edge_lookup.
  case_decide; [by intros [= <-]|apply HG].
Qed.

End edges.

(** * Further properties *)

(** ** Where a loop stops *)

Section loop_exits.

Context {A St R : Type}.
Implicit Types (l : list A) (body : A → St → flow St R) (s : St).

Lemma for_in_Return_inv l body s r :
  for_in l body s = Return r →
  ∃ k x s', l !! k = Some x ∧ for_in (take k l) body s = Next s'
            ∧ body x s' = Return r.
Proof.
  revert s. induction l as [|x l IH]; intros s; cbn [for_in]; [done|].
  destruct (body x s) as [s1|r1|e1] eqn:E; [|intros [= <-]|done].
  - intros (k & y & s' & Hk & Hrun & Hy)%IH. exists (S k), y, s'.
    split; [done|]. split; [|done]. cbn [take for_in]. by rewrite E.
  - by exists 0%nat, x, s.
Qed.

Lemma for_in_Throw_inv l body s e :
  for_in l body s = Throw e →
  ∃ k x s', l !! k = Some x ∧ for_in (take k l) body s = Next s'
            ∧ body x s' = Throw e.
Proof.
  revert s. induction l as [|x l IH]; intros s; cbn [for_in]; [done|].
  destruct (body x s) as [s1|r1|e1] eqn:E; [|done|intros [= <-]].
  - intros (k & y & s' & Hk & Hrun & Hy)%IH. exists (S k), y, s'.
    split; [done|]. split; [|done]. cbn [take for_in]. by rewrite E.
  - by exists 0%nat, x, s.
Qed.

End loop_exits.

(** ** Outcomes of the route simulator *)

Section outcomes.

Import analyze_routes.

Implicit Types (graphs : gmap string nx.Graph) (start_time : Z)
  (day : string) (st : sim_state) (route : list string) (G : nx.Graph).

Lemma truthy_false_len G : nx.truthy G = false ↔ nx.len G = 0%nat.
Proof.
  unfold nx.truthy. destruct (nx.len G); cbn; split; (done || lia).
Qed.

Lemma truthy_true_len G : nx.truthy G = true ↔ nx.len G ≠ 0%nat.
Proof.
  unfold nx.truthy. destruct (nx.len G); cbn; split; (done || lia).
Qed.

(** What [dijkstra_path_length] raises, and when. *)
Lemma dijkstra_Raise G s t e :
  nx.dijkstra_path_length G s t = Raise e ↔ leg_fails G s t e.
Proof.
  split.
  - intros H. destruct (nx.has_node G s) eqn:Hs.
    + assert (Hn : ¬ connected G s t).
      { intros Hc. destruct (dijkstra_connected_Ok G s t Hs Hc) as [d Hd].
        congruence. }
      rewrite (dijkstra_not_connected _ _ _ Hn), Hs in H.
      injection H as <-. by constructor.
    + unfold nx.dijkstra_path_length in H. rewrite Hs in H.
      injection H as <-. by constructor.
  - intros [Hs|Hs Hn].
    + unfold nx.dijkstra_path_length. by rewrite Hs.
    + by rewrite (dijkstra_not_connected _ _ _ Hn), Hs.
Qed.

End outcomes.

(** X1: [calculate_route_time] returns (None, None) in one case only: a leg
    that the walk reaches finds no slot graph under the key of its hour, or
    finds one without nodes. *)
Theorem none_only_without_slot_graph
    (graphs : gmap string nx.Graph) (route : list string) (start_time : Z)
    (day : string) :
  analyze_routes.calculate_route_time route start_time day graphs = Ok None
  ↔ ∃ k st,
      after_legs graphs start_time day route k = Next st
      ∧ (k < length (analyze_routes.legs route))%nat
      ∧ let slot :=
          graphs !! analyze_routes.graph_key
                      (analyze_routes.current_hour start_time
                         (analyze_routes.total_time st)) day in
        slot = None ∨ ∃ G, slot = Some G ∧ nx.len G = 0%nat.
Proof.
  split.
  - unfold analyze_routes.calculate_route_time.
    destruct (for_in _ _ _) as [st|r|] eqn:Hrun; [done| |done].
    intros _.
    apply for_in_Return_inv in Hrun as (k & [a b] & st & Hk & Hrun & Hleg).
    exists k, st. split; [done|]. split; [by eapply lookup_lt_Some|].
    apply leg_Return in Hleg as [_ [?|(G & ? & ?%truthy_false_len)]]; eauto.
  - intros (k & st & Hk & Hlt & Hslot).
    destruct (lookup_lt_is_Some_2 _ _ Hlt) as [[a b] Hleg].
    pose proof (run_decided graphs start_time day route k st (a, b) Hk Hleg) as H.
    assert (E : analyze_routes.leg graphs start_time day (a, b) st = Return None).
    { apply leg_Return. split; [done|].
      destruct Hslot as [?|(G & ? & ?%truthy_false_len)]; eauto. }
    by rewrite E in H.
Qed.

Section more_outcomes.

Import analyze_routes.

Implicit Types (graphs : gmap string nx.Graph) (start_time : Z)
  (day : string) (st : sim_state) (route : list string) (G : nx.Graph).

Lemma legs_arrival_hours graphs start_time day (l : list (string * string)) st st' :
  for_in l (leg graphs start_time day) st = Next st' →
  ∃ new, arrival_times st' = arrival_times st ++ new ∧ Forall is_hour new.
Proof.
  revert st. induction l as [|[a b] l IH]; intros st; cbn [for_in].
  - intros [= <-]. exists []. by rewrite app_nil_r.
  - destruct (leg graphs start_time day (a, b) st) as [st1| |] eqn:E; [|done..].
    intros (new & Hnew & Hhours)%IH.
    apply leg_Next in E as (G & p & _ & _ & _ & ->).
    cbn [arrive arrival_times] in Hnew. rewrite <-app_assoc in Hnew.
    eexists. split; [exact Hnew|]. constructor; [|done].
    apply Z.mod_pos_bound. lia.
Qed.

(** A leg only reads the slot graph under the key of its hour. *)
Lemma leg_agree graphs graphs' start_time day blocks st :
  (∀ hour, is_hour hour →
     graphs !! graph_key hour day = graphs' !! graph_key hour day) →
  leg graphs start_time day blocks st = leg graphs' start_time day blocks st.
Proof.
  intros H. destruct blocks as [a b]. unfold leg.
  by rewrite (H _ (current_hour_range start_time (total_time st))).
Qed.

Lemma dijkstra_nonneg G s t d :
  nonneg G → nx.dijkstra_path_length G s t = Ok d → (0 <= d)%Q.
Proof.
  intros HG (vs & d' & Hwalk & ->)%dijkstra_Ok_walk. by eapply walk_nonneg.
Qed.

Lemma legs_road_nonneg graphs start_time day (l : list (string * string)) st st' :
  (∀ key G, graphs !! key = Some G → nonneg G) →
  for_in l (leg graphs start_time day) st = Next st' →
  (time_on_road st <= time_on_road st')%Q
  ∧ (total_time st - time_on_road st <= total_time st' - time_on_road st')%Q.
Proof.
  intros Hnn. revert st. induction l as [|[a b] l IH]; intros st; cbn [for_in].
  - intros [= <-]. split; apply Qle_refl.
  - destruct (leg graphs start_time day (a, b) st) as [st1| |] eqn:E; [|done..].
    intros [H1 H2]%IH.
    apply leg_Next in E as (G & p & HG & _ & Hp & ->).
    apply Hnn in HG. apply (dijkstra_nonneg _ _ _ _ HG) in Hp.
    cbn [arrive time_on_road total_time] in *.
    rewrite add_visit_time_dwell in H2.
    assert (0 <= dwell b)%Q by (unfold dwell; repeat case_decide; done).
    split; lra.
Qed.

End more_outcomes.

(** X3: in a result of [calculate_route_time], every arrival time after the
    first entry is an hour from 0 to 23, whatever the start hour and however
    long the walk took. *)
Theorem arrival_hours_in_range
    (graphs : gmap string nx.Graph) (route : list string) (start_time : Z)
    (day : string) (time_on_road : Q) (arrivals : list Z) (i : nat) (h : Z) :
  analyze_routes.calculate_route_time route start_time day graphs
    = Ok (Some (time_on_road, arrivals)) →
  arrivals !! S i = Some h →
  0 ≤ h < 24.
Proof.
  unfold analyze_routes.calculate_route_time.
  destruct (for_in _ _ _) as [st|r|] eqn:Hrun; [| |done].
  2: { apply legs_Return_None in Hrun as ->. done. }
  intros [= <- <-] Hi.
  apply legs_arrival_hours in Hrun as (new & Hnew & Hhours).
  rewrite Hnew in Hi. cbn in Hi.
  rewrite Forall_forall in Hhours. apply Hhours.
  by eapply list_elem_of_lookup_2.
Qed.

Lemma arrival_hours_in_range_witness : 0 ≤ 15 < 24.
Proof.
  apply (arrival_hours_in_range monday_graphs route_1 10 "Monday" 35
           [10; 12; 15] 1 15).
  - by vm_compute.
  - reflexivity.
Defined.

(** X4: the result of [calculate_route_time] depends on the mapping only
    through the 24 keys of the requested day: two mappings that agree on
    them give the same result. *)
Theorem only_the_days_slots_matter
    (graphs graphs' : gmap string nx.Graph) (route : list string)
    (start_time : Z) (day : string) :
  (∀ hour, 0 ≤ hour < 24 →
     graphs !! analyze_routes.graph_key hour day
     = graphs' !! analyze_routes.graph_key hour day) →
  analyze_routes.calculate_route_time route start_time day graphs
  = analyze_routes.calculate_route_time route start_time day graphs'.
Proof.
  intros H. unfold analyze_routes.calculate_route_time.
  by rewrite (for_in_ext _ _ (analyze_routes.leg graphs' start_time day))
    by (intros; by apply leg_agree).
Qed.

Lemma only_the_days_slots_matter_witness :
  analyze_routes.calculate_route_time route_1 10 "Monday"
    (<[analyze_routes.graph_key 10 "Saturday" := isolated_landmarks]>
       monday_graphs)
  = analyze_routes.calculate_route_time route_1 10 "Monday" monday_graphs.
Proof.
  apply only_the_days_slots_matter. intros hour Hhour.
  apply lookup_insert_ne. intros [_ [=]]%graph_key_inj_both.
Defined.

(** X5: when no edge of any slot graph has a negative weight, the
    [time_on_road] that [calculate_route_time] returns is not negative. *)
Theorem time_on_road_not_negative
    (graphs : gmap string nx.Graph) (route : list string) (start_time : Z)
    (day : string) (time_on_road : Q) (arrivals : list Z) :
  (∀ key G, graphs !! key = Some G → nonneg G) →
  analyze_routes.calculate_route_time route start_time day graphs
    = Ok (Some (time_on_road, arrivals)) →
  (0 <= time_on_road)%Q.
Proof.
  intros Hnn. unfold analyze_routes.calculate_route_time.
  destruct (for_in _ _ _) as [st|r|] eqn:Hrun; [| |done].
  2: { apply legs_Return_None in Hrun as ->. done. }
  intros [= <- <-].
  by apply (legs_road_nonneg _ _ _ _ _ _ Hnn) in Hrun as [H _].
Qed.

Lemma time_on_road_not_negative_witness : (0 <= 35)%Q.
Proof.
  apply (time_on_road_not_negative monday_graphs route_1 10 "Monday" 35
           [10; 12; 15]).
  - assert (Hnn : nonneg two_edges).
    { unfold two_edges.
      repeat apply nonneg_add_edge; (done || apply nonneg_empty). }
    intros key G. unfold monday_graphs.
    rewrite lookup_insert_Some, lookup_singleton_Some.
    by intros [[_ <-]|[_ [_ <-]]].
  - by vm_compute.
Defined.

(** ** The table of [evaluate_routes] *)

Section table.

Import analyze_routes.

Implicit Types (graphs : gmap string nx.Graph)
  (l : list (Z * string * (Z * list string))) (table : list route_row).

Lemma sweep_Throw graphs l acc e :
  sweep graphs l acc = Throw e →
  ∃ c, c ∈ l ∧ calculate_route_time (c.2).2 (c.1).1 (c.1).2 graphs = Raise e.
Proof.
  revert acc. induction l as [|[[s d] [i r]] l IH]; intros acc; [done|].
  rewrite sweep_cons.
  destruct (calculate_route_time r s d graphs) as [[[t arr]|]|e'] eqn:E.
  - intros (c & ? & ?)%IH. exists c. split; [by right|done].
  - intros (c & ? & ?)%IH. exists c. split; [by right|done].
  - intros [= ->]. exists (s, d, (i, r)). split; [left|done].
Qed.

Lemma labels_sublist graphs l :
  row_label <$> omap (row_of graphs) l `sublist_of` label <$> l.
Proof.
  induction l as [|c l IH]; [done|]. cbn [omap list_omap fmap list_fmap].
  destruct (row_of graphs c) as [row|] eqn:E.
  - cbn. rewrite (row_of_label _ _ _ E). by constructor.
  - by constructor.
Qed.

Lemma row_of_shape graphs c row :
  c ∈ combinations → row_of graphs c = Some row →
  row_start_time row ∈ START_TIMES
  ∧ row_day row ∈ DAYS_OF_WEEK
  ∧ (∃ idx, 1 ≤ idx ≤ 6 ∧ route_name row = "Route " +:+ pretty idx)
  ∧ ∃ time_on_road,
      calculate_route_time (c.2).2 (row_start_time row) (row_day row) graphs
        = Ok (Some (time_on_road, row_arrivals row))
      ∧ row_total_time row = round2 time_on_road.
Proof.
  intros Hc Hrow.
  assert (Hall : Forall (λ c : Z * string * (Z * list string),
                   (c.1).1 ∈ START_TIMES ∧ (c.1).2 ∈ DAYS_OF_WEEK
                   ∧ 1 ≤ (c.2).1 ≤ 6) combinations).
  { apply (bool_decide_unpack _). by vm_compute. }
  rewrite Forall_forall in Hall. apply Hall in Hc as (Hs & Hd & Hi).
  destruct c as [[s d] [i r]]. cbn [fst snd] in *. unfold row_of in Hrow.
  destruct (calculate_route_time r s d graphs) as [[[t arr]|]|] eqn:E;
    [|done..].
  injection Hrow as <-.
  cbn [row_start_time row_day route_name row_arrivals row_total_time].
  split; [done|]. split; [done|]. split; [by exists i|]. by exists t.
Qed.

End table.

(** X6: [evaluate_routes] returns a table exactly when no combination of
    its sweep raises, and the table then holds the rows of the combinations
    that have a result, in the order of the loops; a single raising
    combination leaves the caller without any row. *)
Theorem evaluate_routes_all_or_nothing
    (graphs : gmap string nx.Graph)
    (table : list analyze_routes.route_row) :
  analyze_routes.evaluate_routes graphs = Ok table
  ↔ (∀ c e, c ∈ combinations →
       analyze_routes.calculate_route_time (c.2).2 (c.1).1 (c.1).2 graphs
       ≠ Raise e)
    ∧ table = omap (row_of graphs) combinations.
Proof.
  rewrite evaluate_routes_sweep. split.
  - destruct (sweep graphs combinations []) as [t|[]|e] eqn:E; [|done].
    intros [= ->]. split; [|by apply sweep_Next in E].
    intros [[s d] [i r]] e Hc He. cbn [fst snd] in He.
    destruct (sweep_raises graphs s d i r combinations [] e Hc He) as [e' He'].
    congruence.
  - intros [Hno ->].
    destruct (sweep graphs combinations []) as [t|[]|e] eqn:E.
    + cbn [table_of]. f_equal. by apply sweep_Next in E.
    + apply sweep_Throw in E as (c & Hc & He). by destruct (Hno c e).
Qed.

(** X7: a table of [evaluate_routes] has at most 48 rows, and no two of
    them share route name, start hour and day. *)
Theorem routes_table_keys
    (graphs : gmap string nx.Graph)
    (table : list analyze_routes.route_row) :
  analyze_routes.evaluate_routes graphs = Ok table →
  (length table ≤ 48)%nat ∧ NoDup (row_label <$> table).
Proof.
  intros ->%evaluate_routes_table.
  pose proof (labels_sublist graphs combinations) as Hsub. split.
  - apply sublist_length in Hsub. by rewrite !length_fmap in Hsub.
  - eapply sublist_NoDup; [apply combinations_labels_NoDup|done].
Qed.

Lemma routes_table_keys_witness :
  ∃ table,
    analyze_routes.evaluate_routes monday_graphs = Ok table
    ∧ (length table ≤ 48)%nat ∧ NoDup (row_label <$> table).
Proof.
  eexists. split; [by vm_compute|].
  eapply (routes_table_keys monday_graphs). by vm_compute.
Defined.

(** X8: every row of the table of [evaluate_routes] has a configured start
    hour and weekday, the name "Route 1" to "Route 6", and exactly three
    arrival times: the start hour itself, then two hours from 0 to 23. *)
Theorem routes_table_rows
    (graphs : gmap string nx.Graph)
    (table : list analyze_routes.route_row) (row : analyze_routes.route_row) :
  analyze_routes.evaluate_routes graphs = Ok table →
  row ∈ table →
  analyze_routes.row_start_time row ∈ analyze_routes.START_TIMES
  ∧ analyze_routes.row_day row ∈ analyze_routes.DAYS_OF_WEEK
  ∧ (∃ idx, 1 ≤ idx ≤ 6
            ∧ analyze_routes.route_name row = "Route " +:+ pretty idx)
  ∧ ∃ h1 h2,
      analyze_routes.row_arrivals row
        = [analyze_routes.row_start_time row; h1; h2]
      ∧ 0 ≤ h1 < 24 ∧ 0 ≤ h2 < 24.
Proof.
  intros ->%evaluate_routes_table (c & Hc & Hrow)%list_elem_of_omap.
  destruct (row_of_shape graphs c row Hc Hrow) as (Hs & Hd & Hi & t & Hcall & _).
  split; [done|]. split; [done|]. split; [done|].
  pose proof combinations_three_stops as H3.
  rewrite Forall_forall in H3. apply H3 in Hc.
  destruct (calculate_route_time_length _ _ _ _ _ _ Hcall) as [H0 Hlen].
  rewrite length_legs, Hc in Hlen.
  destruct (analyze_routes.row_arrivals row) as [|a0 [|h1 [|h2 [|]]]] eqn:Harr;
    try done.
  injection H0 as ->. exists h1, h2. split; [done|].
  unfold analyze_routes.calculate_route_time in Hcall.
  destruct (for_in _ _ _) as [st|r|] eqn:Hrun; [| |done].
  2: { apply legs_Return_None in Hrun as ->. done. }
  injection Hcall as _ Hst.
  apply legs_arrival_hours in Hrun as (new & Hnew & Hhours).
  rewrite Hst in Hnew. injection Hnew as <-.
  by apply Forall_cons in Hhours as [? [? _]%Forall_cons].
Qed.

Lemma routes_table_rows_witness :
  let row := analyze_routes.RouteRow "Route 1" 10 "Monday" 35 [10; 12; 15] in
  analyze_routes.row_start_time row ∈ analyze_routes.START_TIMES
  ∧ analyze_routes.row_day row ∈ analyze_routes.DAYS_OF_WEEK.
Proof.
  intros row.
  destruct (routes_table_rows monday_graphs
              [ analyze_routes.RouteRow "Route 1" 10 "Monday" 35 [10; 12; 15];
                analyze_routes.RouteRow "Route 3" 10 "Monday" 50 [10; 10; 14];
                analyze_routes.RouteRow "Route 6" 10 "Monday" 35 [10; 12; 13];
                analyze_routes.RouteRow "Route 3" 12 "Monday" 50 [12; 12; 16] ]
              row) as (Hs & Hd & _).
  - by vm_compute.
  - left.
  - by split.
Defined.

(** ** More on the slot graphs *)

Section slot_graph_edges.

Import analyze_node_degrees.

Implicit Types (route_stats rows : list route_stat)
  (block_positions : gmap string (Q * Q)) (G : nx.Graph)
  (hour : Z) (day u v n : string).

Lemma neighbors_foldl_add_row rows G u v :
  nx.neighbors (foldl add_row G rows) u !! v =
    match last (filter (joins u v) rows) with
    | Some row => Some (avg_travel_time row)
    | None => nx.neighbors G u !! v
    end.
Proof.
  revert G. induction rows as [|row rows IH]; intros G; cbn [foldl]; [done|].
  rewrite IH. unfold add_row. rewrite neighbors_add_edge_lookup.
  rewrite filter_cons.
  destruct (decide (joins u v row)) as [Hj|Hj].
  - rewrite last_cons. destruct (last _); [done|].
    rewrite decide_True; [done|]. unfold joins in Hj. naive_solver.
  - rewrite decide_False; [done|]. intros ?. apply Hj. unfold joins.
    naive_solver.
Qed.

Lemma slot_graph_neighbors route_stats block_positions hour day u v :
  nx.neighbors (slot_graph route_stats block_positions hour day) u !! v
  = last_joining route_stats hour day u v.
Proof.
  unfold slot_graph, last_joining. rewrite neighbors_foldl_add_row.
  destruct (last _); [done|].
  destruct (nodes_only block_positions u) as [_ ->]. by rewrite lookup_empty.
Qed.

Lemma joins_sym u v row : joins u v row ↔ joins v u row.
Proof. unfold joins. tauto. Qed.

(** The node dictionary after the node loop. *)
Lemma nodes_only_lookup block_positions n :
  map_fold (λ block_id p G, nx.add_node block_id p G) nx.empty block_positions
    !! n
  = (λ p, nx.NodeData (Some p) ∅) <$> block_positions !! n.
Proof.
  apply (map_fold_weak_ind (λ (G : nx.Graph) (bp : gmap string (Q * Q)),
    G !! n = (λ p, nx.NodeData (Some p) ∅) <$> bp !! n)).
  - unfold nx.empty. by rewrite !lookup_empty.
  - intros k p bp G Hfresh IH. rewrite lookup_add_node, lookup_insert.
    case_decide; [|done]. subst k. cbn. do 2 f_equal.
    unfold nx.neighbors. by rewrite IH, Hfresh.
Qed.

Lemma lookup_ensure_node G k n :
  nx.ensure_node k G !! n =
    match G !! n with
    | Some d => Some d
    | None => if decide (n = k) then Some (nx.NodeData None ∅) else None
    end.
Proof.
  unfold nx.ensure_node. destruct (G !! k) as [dk|] eqn:Ek.
  - destruct (G !! n) eqn:En; [done|]. case_decide; [congruence|done].
  - rewrite lookup_insert. case_decide as Hk.
    + subst k. rewrite Ek. by rewrite decide_True.
    + destruct (G !! n); [done|]. by rewrite decide_False.
Qed.

Lemma pos_alter_set_nbr G k b w n :
  nx.pos <$> alter (nx.set_nbr b w) k G !! n = nx.pos <$> G !! n.
Proof.
  rewrite lookup_alter. case_decide; [|done]. subst k.
  destruct (G !! n) as [[p m]|]; reflexivity.
Qed.

Lemma pos_add_edge G u v w n :
  nx.pos <$> nx.add_edge u v w G !! n =
    match G !! n with
    | Some d => Some (nx.pos d)
    | None => if decide (n = u ∨ n = v) then Some None else None
    end.
Proof.
  unfold nx.add_edge. rewrite !pos_alter_set_nbr, !lookup_ensure_node.
  destruct (G !! n); [done|].
  repeat case_decide; try done; naive_solver.
Qed.

Lemma pos_foldl_add_row rows G n d :
  G !! n = Some d →
  nx.pos <$> foldl add_row G rows !! n = Some (nx.pos d).
Proof.
  revert G d. induction rows as [|row rows IH]; intros G d Hd; cbn [foldl].
  { by rewrite Hd. }
  pose proof (pos_add_edge G (BCTCB2010_x row) (BCTCB2010_y row)
                (avg_travel_time row) n) as H.
  rewrite Hd in H. fold (add_row G row) in H.
  destruct (add_row G row !! n) as [d'|] eqn:E; [|done].
  injection H as H. rewrite (IH _ d' E). by rewrite H.
Qed.

Lemma pos_foldl_add_row_new rows G n d :
  G !! n = None → foldl add_row G rows !! n = Some d → nx.pos d = None.
Proof.
  revert G. induction rows as [|row rows IH]; intros G Hn; cbn [foldl].
  { congruence. }
  pose proof (pos_add_edge G (BCTCB2010_x row) (BCTCB2010_y row)
                (avg_travel_time row) n) as H.
  rewrite Hn in H. fold (add_row G row) in H.
  destruct (add_row G row !! n) as [d'|] eqn:E.
  - intros Hd. pose proof (pos_foldl_add_row rows _ n d' E) as H'.
    rewrite Hd in H'. cbn in H, H'. injection H' as ->.
    case_decide; [by injection H|discriminate H].
  - by apply IH.
Qed.

Lemma nonneg_foldl_add_row rows G :
  Forall (λ row, (0 <= avg_travel_time row)%Q) rows →
  nonneg G → nonneg (foldl add_row G rows).
Proof.
  intros Hrows. revert G.
  induction Hrows as [|row rows Hrow _ IH]; intros G HG; cbn [foldl]; [done|].
  apply IH. by apply nonneg_add_edge.
Qed.

Lemma nonneg_nodes_only block_positions :
  nonneg (map_fold (λ block_id p G, nx.add_node block_id p G) nx.empty
            block_positions).
Proof.
  intros v u w. destruct (nodes_only block_positions v) as [_ ->].
  by rewrite lookup_empty.
Qed.

End slot_graph_edges.

(** X9: in a slot graph of [compute_node_degrees] the weight between two
    blocks is the average travel time of the last row of the slot that
    joins them, in either direction (a later row overwrites an earlier
    one), and there is no edge when no row joins them; so the weight from
    [u] to [v] is the weight from [v] to [u]. *)
Theorem slot_graph_last_row_wins
    (route_stats : list analyze_node_degrees.route_stat)
    (block_positions : gmap string (Q * Q)) (hour : Z) (day u v : string) :
  let G := analyze_node_degrees.slot_graph route_stats block_positions hour day in
  nx.neighbors G u !! v = last_joining route_stats hour day u v
  ∧ nx.neighbors G u !! v = nx.neighbors G v !! u.
Proof.
  intros G. unfold G. split; [apply slot_graph_neighbors|].
  rewrite !slot_graph_neighbors. unfold last_joining. do 2 f_equal.
  apply list_filter_iff. intros row. apply joins_sym.
Qed.

(** X10: a block of [block_positions] carries its position as the [pos]
    attribute of its node in every slot graph, whatever rows touch it; a
    node that only an edge created has no position. *)
Theorem slot_graph_positions
    (route_stats : list analyze_node_degrees.route_stat)
    (block_positions : gmap string (Q * Q)) (hour : Z) (day n : string)
    (d : nx.node_data) :
  analyze_node_degrees.slot_graph route_stats block_positions hour day !! n
    = Some d →
  nx.pos d = block_positions !! n.
Proof.
  unfold analyze_node_degrees.slot_graph. intros Hd.
  pose proof (nodes_only_lookup block_positions n) as Hn.
  destruct (block_positions !! n) as [p|] eqn:Hp; cbn in Hn.
  - pose proof (pos_foldl_add_row
                  (filter (analyze_node_degrees.in_slot hour day) route_stats)
                  _ n _ Hn) as H.
    rewrite Hd in H. by injection H.
  - by eapply pos_foldl_add_row_new.
Qed.

Lemma slot_graph_positions_witness :
  ∃ d,
    analyze_node_degrees.slot_graph
      [analyze_node_degrees.RouteStat 10 "Monday" "10113001008" "10076001001" 15 3]
      {[ "10113001008" := (3, 4)%Q ]} 10 "Monday" !! "10113001008" = Some d
    ∧ nx.pos d = Some (3, 4)%Q.
Proof.
  eexists. split; [by vm_compute|].
  rewrite (slot_graph_positions
             [analyze_node_degrees.RouteStat 10 "Monday" "10113001008"
                "10076001001" 15 3]
             {[ "10113001008" := (3, 4)%Q ]} 10 "Monday" "10113001008");
    [reflexivity|by vm_compute].
Defined.

(** X11: when no row of [route_stats] has a negative average travel time,
    no slot graph has an edge of negative weight. *)
Theorem slot_graph_nonneg
    (route_stats : list analyze_node_degrees.route_stat)
    (block_positions : gmap string (Q * Q)) (hour : Z) (day : string) :
  Forall (λ row, (0 <= analyze_node_degrees.avg_travel_time row)%Q)
    route_stats →
  nonneg (analyze_node_degrees.slot_graph route_stats block_positions hour day).
Proof.
  intros Hrows. unfold analyze_node_degrees.slot_graph.
  apply nonneg_foldl_add_row; [|apply nonneg_nodes_only].
  rewrite Forall_forall in Hrows. apply Forall_forall.
  intros row [_ ?]%list_elem_of_filter. by apply Hrows.
Qed.

Lemma slot_graph_nonneg_witness :
  nonneg (analyze_node_degrees.slot_graph
            [analyze_node_degrees.RouteStat 10 "Monday" "10113001008"
               "10076001001" 15 3] ∅ 10 "Monday").
Proof.
  apply slot_graph_nonneg. repeat constructor. cbn. done.
Defined.

(** ** The degree table *)

Section degree_table.

Import analyze_node_degrees.

Implicit Types (route_stats rows : list route_stat)
  (block_positions : gmap string (Q * Q)) (hour : Z) (day n : string).

Lemma fmap_bind {A B C} (f : B → C) (g : A → list B) (l : list A) :
  f <$> (l ≫= g) = l ≫= (λ x, f <$> g x).
Proof.
  induction l as [|x l IH]; [done|].
  cbn [mbind list_bind]. by rewrite fmap_app, IH.
Qed.

Lemma bind_sublist_pointwise {A B} (f g : A → list B) (l : list A) :
  (∀ x, f x `sublist_of` g x) → l ≫= f `sublist_of` l ≫= g.
Proof.
  intros H. induction l as [|x l IH]; [done|].
  cbn [mbind list_bind]. by apply sublist_app.
Qed.

Lemma degree_keys_sublist route_stats block_positions :
  degree_key <$> compute_node_degrees route_stats block_positions
  `sublist_of` all_degree_keys.
Proof.
  unfold compute_node_degrees, all_degree_keys. rewrite fmap_bind.
  apply bind_sublist_pointwise. intros hour. rewrite fmap_bind.
  apply bind_sublist_pointwise. intros day. unfold target_rows.
  rewrite fmap_bind. apply bind_sublist_pointwise. intros n.
  destruct (nx.has_node _ n); [done|]. apply sublist_nil_l.
Qed.

Lemma all_degree_keys_NoDup : NoDup all_degree_keys.
Proof. apply (bool_decide_unpack _). by vm_compute. Qed.

Lemma slot_graph_drop_row l1 row l2 block_positions hour day :
  ¬ in_slot hour day row →
  slot_graph (l1 ++ row :: l2) block_positions hour day
  = slot_graph (l1 ++ l2) block_positions hour day.
Proof.
  intros Hrow. unfold slot_graph.
  by rewrite !filter_app, filter_cons_False.
Qed.

End degree_table.

(** X12: a row of [route_stats] whose hour is not one of 10 to 21, or whose
    day is neither Monday nor Saturday, has no effect on the degree table. *)
Theorem degrees_ignore_other_slots
    (l1 l2 : list analyze_node_degrees.route_stat)
    (row : analyze_node_degrees.route_stat)
    (block_positions : gmap string (Q * Q)) :
  ¬ (analyze_node_degrees.pickup_hour row ∈ analyze_node_degrees.HOURS
     ∧ analyze_node_degrees.pickup_day row ∈ analyze_node_degrees.DAYS_OF_WEEK) →
  analyze_node_degrees.compute_node_degrees (l1 ++ row :: l2) block_positions
  = analyze_node_degrees.compute_node_degrees (l1 ++ l2) block_positions.
Proof.
  intros Hrow. unfold analyze_node_degrees.compute_node_degrees.
  apply Forall_bind_ext, Forall_forall. intros hour Hhour.
  apply Forall_bind_ext, Forall_forall. intros day Hday.
  rewrite slot_graph_drop_row; [done|].
  intros [<- <-]. by apply Hrow.
Qed.

Lemma degrees_ignore_other_slots_witness :
  analyze_node_degrees.compute_node_degrees
    [ analyze_node_degrees.RouteStat 10 "Monday" "10113001008" "10076001001" 15 3;
      analyze_node_degrees.RouteStat 9 "Monday" "10113001008" "10143001021" 8 1 ]
    ∅
  = analyze_node_degrees.compute_node_degrees
      [ analyze_node_degrees.RouteStat 10 "Monday" "10113001008" "10076001001"
          15 3 ]
      ∅.
Proof.
  apply (degrees_ignore_other_slots
           [analyze_node_degrees.RouteStat 10 "Monday" "10113001008"
              "10076001001" 15 3]
           []).
  intros [Hhour _]. vm_compute in Hhour.
  repeat (apply elem_of_cons in Hhour as [[=]|Hhour]).
  by apply elem_of_nil in Hhour.
Defined.

(** X13: the degree table has at most 72 rows, and no two rows are for the
    same slot and the same landmark. *)
Theorem degree_table_keys
    (route_stats : list analyze_node_degrees.route_stat)
    (block_positions : gmap string (Q * Q)) :
  let table :=
    analyze_node_degrees.compute_node_degrees route_stats block_positions in
  (length table ≤ 72)%nat ∧ NoDup (degree_key <$> table).
Proof.
  intros table.
  pose proof (degree_keys_sublist route_stats block_positions) as Hsub. split.
  - apply sublist_length in Hsub. by rewrite length_fmap in Hsub.
  - eapply sublist_NoDup; [apply all_degree_keys_NoDup|done].
Qed.

(** X14: when the three landmarks are blocks of [block_positions], the
    degree table has a row for every slot and every landmark, 72 in all, in
    the order of the loops: hour, then day, then landmark. *)
Theorem degree_table_complete
    (route_stats : list analyze_node_degrees.route_stat)
    (block_positions : gmap string (Q * Q)) :
  (∀ n, n ∈ analyze_node_degrees.TARGET_NODES → n ∈ dom block_positions) →
  let table :=
    analyze_node_degrees.compute_node_degrees route_stats block_positions in
  degree_key <$> table = all_degree_keys ∧ length table = 72%nat.
Proof.
  intros Hknown table.
  assert (Hkeys : degree_key <$> table = all_degree_keys).
  { unfold table, analyze_node_degrees.compute_node_degrees, all_degree_keys.
    rewrite fmap_bind. apply Forall_bind_ext, Forall_forall. intros hour _.
    rewrite fmap_bind. apply Forall_bind_ext, Forall_forall. intros day _.
    unfold analyze_node_degrees.target_rows. rewrite fmap_bind.
    apply Forall_bind_ext, Forall_forall. intros n Hn.
    by rewrite has_node_slot_graph_block by auto. }
  split; [done|].
  rewrite <-(length_fmap degree_key), Hkeys. by vm_compute.
Qed.

Lemma degree_table_complete_witness :
  length
    (analyze_node_degrees.compute_node_degrees []
       {[ "10113001008" := (1, 2)%Q; "10076001001" := (3, 4)%Q;
          "10143001021" := (5, 6)%Q ]})
  = 72%nat.
Proof.
  apply degree_table_complete. intros n Hn. vm_compute in Hn.
  repeat (apply elem_of_cons in Hn as [->|Hn]); try (by vm_compute).
  by apply elem_of_nil in Hn.
Defined.

(** * The trip table: from [load_data] to the degree table *)

Section orders.
Context {A B : Type} (RA : relation A) (RB : relation B).

Lemma lex_trans :
  PartialOrder RA → Transitive RB → Transitive (pd.lex RA RB).
Proof.
  intros HA HB [a1 b1] [a2 b2] [a3 b3]. unfold pd.lex. cbn.
  intros [[Hne1 H1]|[-> H1]] [[Hne2 H2]|[-> H2]].
  - left. split; [|by etrans]. intros ->. apply Hne1. by apply (anti_symm RA).
  - by left.
  - by left.
  - right. split; [done|by etrans].
Qed.

Lemma lex_total `{EqDecision A} :
  Total RA → Total RB → Total (pd.lex RA RB).
Proof.
  intros HA HB [a1 b1] [a2 b2]. unfold pd.lex. cbn.
  destruct (decide (a1 = a2)) as [->|Hne].
  - destruct (total RB b1 b2); [left|right]; by right.
  - destruct (total RA a1 a2); [left|right]; left; split; congruence.
Qed.

Lemma lex_anti_symm :
  AntiSymm (=) RA → AntiSymm (=) RB → AntiSymm (=) (pd.lex RA RB).
Proof.
  intros HA HB [a1 b1] [a2 b2]. unfold pd.lex. cbn.
  intros [[Hne1 H1]|[-> H1]] [[Hne2 H2]|[E H2]]; try congruence.
  - destruct Hne1. by apply (anti_symm RA).
  - f_equal. by apply (anti_symm RB).
Qed.

Lemma lex_refl : Reflexive RB → Reflexive (pd.lex RA RB).
Proof. intros HB [a b]. by right. Qed.

Lemma lex_po :
  PartialOrder RA → PartialOrder RB → PartialOrder (pd.lex RA RB).
Proof.
  intros HA HB. split; [split|].
  - apply lex_refl, _.
  - apply lex_trans; apply _.
  - apply lex_anti_symm; apply _.
Qed.

End orders.

#[local] Instance key_le_po : PartialOrder analyze_node_degrees.key_le.
Proof. repeat apply lex_po; apply _. Qed.

#[local] Instance key_le_total : Total analyze_node_degrees.key_le.
Proof. repeat apply lex_total; apply _. Qed.

Section means.

Lemma mean_nonneg (column : list Q) :
  Forall (λ x, 0 <= x)%Q column → (0 <= pd.mean column)%Q.
Proof.
  intros Hall. unfold pd.mean, Qdiv. apply Qmult_le_0_compat.
  - induction Hall as [|x column Hx _ IH]; cbn [foldr]; lra.
  - apply Qinv_le_0_compat. unfold Qle. cbn. lia.
Qed.

End means.

Section groups.
Context {A K : Type} `{EqDecision K} (le : relation K)
  `{!RelDecision le, !PartialOrder le, !Total le} (by_ : A → K).

Lemma groupby_keys (df : list A) :
  (pd.groupby le by_ df).*1 = merge_sort le (remove_dups (by_ <$> df)).
Proof.
  unfold pd.groupby. rewrite <-list_fmap_compose.
  induction (merge_sort _ _) as [|k ks IH]; [done|]. cbn. by f_equal.
Qed.

Lemma groupby_keys_NoDup (df : list A) : NoDup (pd.groupby le by_ df).*1.
Proof.
  rewrite groupby_keys. rewrite merge_sort_Permutation. apply NoDup_remove_dups.
Qed.

Lemma groupby_keys_sorted (df : list A) :
  StronglySorted le (pd.groupby le by_ df).*1.
Proof. rewrite groupby_keys. apply StronglySorted_merge_sort; apply _. Qed.

Lemma elem_of_groupby_keys (df : list A) (k : K) :
  k ∈ (pd.groupby le by_ df).*1 ↔ ∃ row, row ∈ df ∧ by_ row = k.
Proof.
  rewrite groupby_keys, merge_sort_Permutation, elem_of_remove_dups.
  rewrite list_elem_of_fmap. naive_solver.
Qed.

Lemma elem_of_groupby (df : list A) (k : K) (rows : list A) :
  (k, rows) ∈ pd.groupby le by_ df
  ↔ (∃ row, row ∈ df ∧ by_ row = k) ∧ rows = filter (λ row, by_ row = k) df.
Proof.
  rewrite <-elem_of_groupby_keys, groupby_keys.
  unfold pd.groupby. rewrite list_elem_of_fmap. naive_solver.
Qed.

Lemma groupby_group_nonempty (df : list A) (k : K) (rows : list A) :
  (k, rows) ∈ pd.groupby le by_ df → rows ≠ [].
Proof.
  intros [(row & Hrow & Hk) ->]%elem_of_groupby Hnil.
  assert (Hin : row ∈ filter (λ row, by_ row = k) df)
    by by apply list_elem_of_filter.
  rewrite Hnil in Hin. by apply elem_of_nil in Hin.
Qed.

Lemma groupby_lookup (df : list A) (k : K) :
  (∃ row, row ∈ df ∧ by_ row = k) →
  ∃ i, pd.groupby le by_ df !! i = Some (k, filter (λ row, by_ row = k) df).
Proof.
  intros Hk. apply list_elem_of_lookup, elem_of_groupby. done.
Qed.

End groups.

Section frames.

Lemma filter_fmap {A B : Type} (f : A → B) (P : B → Prop)
    `{!∀ y, Decision (P y)} (l : list A) :
  filter P (f <$> l) = f <$> filter (λ x, P (f x)) l.
Proof.
  induction l as [|x l IH]; [done|]. cbn [fmap list_fmap].
  rewrite !filter_cons. destruct (decide (P (f x))); cbn; by rewrite IH.
Qed.

Lemma StronglySorted_strict {A : Type} (R : relation A) (l : list A) :
  StronglySorted R l → NoDup l → StronglySorted (λ x y, R x y ∧ x ≠ y) l.
Proof.
  induction 1 as [|x l _ IH Hx]; intros Hnd; [constructor|].
  apply NoDup_cons in Hnd as [Hnotin Hnd]. constructor; [auto|].
  apply Forall_forall. intros y Hy. split.
  - by eapply Forall_forall in Hx.
  - by intros ->.
Qed.

End frames.

Section mean_coords.
Import analyze_node_degrees.

Lemma compute_mean_coords_keys (df : list trip) :
  BCTCB2010 <$> compute_mean_coords df
  = (pd.groupby String.le (λ r, r.1.1) (combined_coords df)).*1.
Proof.
  unfold compute_mean_coords. rewrite <-list_fmap_compose.
  apply list_fmap_ext. by intros _ [block rows] _.
Qed.

Lemma elem_of_blocks (df : list trip) (block : string) :
  block ∈ blocks df ↔ ∃ r, r ∈ combined_coords df ∧ r.1.1 = block.
Proof.
  unfold blocks, combined_coords. rewrite elem_of_list_to_set.
  setoid_rewrite elem_of_app. setoid_rewrite list_elem_of_fmap. split.
  - intros [(t & -> & Ht)|(t & -> & Ht)].
    + exists (df_BCTCB2010_x t, pickup_latitude t, pickup_longitude t).
      split; [left; by exists t|done].
    + exists (df_BCTCB2010_y t, dropoff_latitude t, dropoff_longitude t).
      split; [right; by exists t|done].
  - intros (r & [(t & -> & Ht)|(t & -> & Ht)] & <-); [left|right]; by exists t.
Qed.

Lemma elem_of_blocks_trip (df : list trip) (block : string) :
  block ∈ blocks df
  ↔ ∃ t, t ∈ df ∧ (df_BCTCB2010_x t = block ∨ df_BCTCB2010_y t = block).
Proof.
  unfold blocks. rewrite elem_of_list_to_set, elem_of_app.
  rewrite !list_elem_of_fmap. naive_solver.
Qed.

Lemma observed_at_combined (df : list trip) (block : string) :
  (λ r, (r.1.2, r.2)) <$> filter (λ r, r.1.1 = block) (combined_coords df)
  = observed_at df block.
Proof.
  unfold combined_coords, observed_at.
  rewrite filter_app, fmap_app, !filter_fmap, <-!list_fmap_compose. done.
Qed.

Lemma elem_of_compute_mean_coords (df : list trip) (c : mean_coord) :
  c ∈ compute_mean_coords df
  ↔ BCTCB2010 c ∈ blocks df
    ∧ mean_latitude c = pd.mean (observed_at df (BCTCB2010 c)).*1
    ∧ mean_longitude c = pd.mean (observed_at df (BCTCB2010 c)).*2.
Proof.
  unfold compute_mean_coords. rewrite list_elem_of_fmap.
  rewrite elem_of_blocks. split.
  - intros ([block rows] & -> & [Hk ->]%elem_of_groupby). cbn.
    rewrite <-observed_at_combined, <-!list_fmap_compose. done.
  - intros (Hk & Hlat & Hlng).
    exists (BCTCB2010 c, filter (λ r, r.1.1 = BCTCB2010 c) (combined_coords df)).
    split; [|by apply elem_of_groupby].
    destruct c as [b lat lng]. cbn in *. subst lat lng.
    rewrite <-observed_at_combined, <-!list_fmap_compose. done.
Qed.

Lemma observed_at_nonempty (df : list trip) (block : string) :
  block ∈ blocks df → observed_at df block ≠ [].
Proof.
  intros (r & Hr & Hb)%elem_of_blocks. rewrite <-observed_at_combined.
  intros Hnil%fmap_nil_inv.
  by apply (filter_nil_not_elem_of _ _ r Hnil).
Qed.

End mean_coords.

(** X16: [compute_mean_coords] returns one row for every block that occurs
    in the trip table as pickup or dropoff block, and no other row; the
    rows are in ascending order of the block; each holds the means of the
    latitudes and of the longitudes of all pickups at and dropoffs at its
    block. *)
Theorem mean_coords_one_row_per_block (df : list analyze_node_degrees.trip) :
  let mean_coords := analyze_node_degrees.compute_mean_coords df in
  let keys := analyze_node_degrees.BCTCB2010 <$> mean_coords in
  StronglySorted (λ b1 b2, String.le b1 b2 ∧ b1 ≠ b2) keys
  ∧ (∀ block, block ∈ keys ↔ block ∈ blocks df)
  ∧ ∀ c, c ∈ mean_coords →
      let here := observed_at df (analyze_node_degrees.BCTCB2010 c) in
      here ≠ []
      ∧ analyze_node_degrees.mean_latitude c = pd.mean here.*1
      ∧ analyze_node_degrees.mean_longitude c = pd.mean here.*2.
Proof.
  intros mean_coords keys. unfold keys, mean_coords.
  rewrite compute_mean_coords_keys. split; [|split].
  - apply StronglySorted_strict.
    + apply groupby_keys_sorted; apply _.
    + apply groupby_keys_NoDup.
  - intros block. by rewrite elem_of_groupby_keys, elem_of_blocks.
  - intros c (Hb & Hlat & Hlng)%elem_of_compute_mean_coords.
    split; [by apply observed_at_nonempty|done].
Qed.

Section joins.
Context {A B K : Type} `{EqDecision K} (left_on : A → K) (right_on : B → K).

Lemma filter_unique_key (right : list B) (k : K) :
  NoDup (right_on <$> right) →
  filter (λ r, right_on r = k) right
  = option_list (head (filter (λ r, right_on r = k) right)).
Proof.
  induction right as [|c right IH]; [done|]. cbn [fmap list_fmap].
  intros [Hc Hnd]%NoDup_cons. rewrite filter_cons.
  destruct (decide (right_on c = k)) as [<-|Hne]; [|auto].
  cbn. f_equal. destruct (filter _ right) as [|r rs] eqn:E; [done|].
  destruct Hc. assert (Hr : r ∈ filter (λ r, right_on r = right_on c) right)
    by (rewrite E; left).
  apply list_elem_of_filter in Hr as [<- Hr]. apply list_elem_of_fmap. eauto.
Qed.

Lemma merge_left_unique (left : list A) (right : list B) :
  NoDup (right_on <$> right) →
  pd.merge_left left_on right_on left right
  = (λ row, (row, head (filter (λ r, right_on r = left_on row) right)))
      <$> left.
Proof.
  intros Hnd. unfold pd.merge_left.
  induction left as [|row left IH]; [done|].
  rewrite bind_cons, fmap_cons, IH. clear IH.
  rewrite (filter_unique_key right (left_on row) Hnd).
  by destruct (head _).
Qed.

Lemma merge_left_rows (left : list A) (right : list B) (row : A) :
  row ∈ (pd.merge_left left_on right_on left right).*1 ↔ row ∈ left.
Proof.
  unfold pd.merge_left. rewrite list_elem_of_fmap.
  setoid_rewrite list_elem_of_bind. split.
  - intros (p & -> & row' & Hp & Hrow').
    destruct (filter _ right) as [|c cs].
    + by apply list_elem_of_singleton in Hp as ->.
    + by apply list_elem_of_fmap in Hp as (r & -> & _).
  - intros Hrow.
    destruct (filter (λ r, right_on r = left_on row) right) as [|c cs] eqn:E.
    + exists (row, None). split; [done|]. exists row. rewrite E.
      split; [left|done].
    + exists (row, Some c). split; [done|]. exists row. rewrite E.
      split; [left|done].
Qed.

End joins.

Section grouped.
Context {A A' K : Type} `{EqDecision K} (le : relation K)
  `{!RelDecision le, !PartialOrder le, !Total le}.

Lemma groupby_fmap (g : A' → A) (by_ : A → K) (df : list A') :
  pd.groupby le by_ (g <$> df)
  = (λ kr : K * list A', (kr.1, g <$> kr.2))
      <$> pd.groupby le (λ row, by_ (g row)) df.
Proof.
  unfold pd.groupby. rewrite <-!list_fmap_compose.
  apply list_fmap_ext. intros _ k _. cbn. by rewrite filter_fmap.
Qed.

Lemma sorted_keys_unique (ks1 ks2 : list K) :
  (∀ k, k ∈ ks1 ↔ k ∈ ks2) →
  merge_sort le (remove_dups ks1) = merge_sort le (remove_dups ks2).
Proof.
  intros Hks. apply (StronglySorted_unique le).
  - apply StronglySorted_merge_sort; apply _.
  - apply StronglySorted_merge_sort; apply _.
  - rewrite !merge_sort_Permutation.
    apply NoDup_Permutation; [apply NoDup_remove_dups..|].
    intros k. by rewrite !elem_of_remove_dups.
Qed.

Lemma sum_group_sizes (by_ : A → K) (ks : list K) (df : list A) :
  NoDup ks →
  (∀ row, row ∈ df → by_ row ∈ ks) →
  sum_list ((λ k, length (filter (λ row, by_ row = k) df)) <$> ks)
  = length df.
Proof.
  intros Hnd. induction df as [|row df IH]; intros Hks.
  - clear. induction ks as [|k ks IHk]; [done|].
    rewrite fmap_cons. cbn [sum_list_with]. by rewrite IHk.
  - cbn [length]. rewrite <-IH by (intros; apply Hks; by right).
    assert (Hrow : by_ row ∈ ks) by (apply Hks; left).
    clear IH Hks. induction Hnd as [|k ks Hk Hnd IHk].
    { by apply elem_of_nil in Hrow. }
    rewrite !fmap_cons. cbn [sum_list_with]. rewrite filter_cons.
    destruct (decide (by_ row = k)) as [<-|Hne].
    + cbn [length]. unfold id. cbn [Nat.add]. f_equal. f_equal.
      apply (f_equal sum_list), list_fmap_ext.
      intros _ k Hin%list_elem_of_lookup_2.
      rewrite filter_cons_False; [done|]. intros E. apply Hk. by rewrite E.
    + apply elem_of_cons in Hrow as [?|Hrow]; [done|].
      rewrite IHk by done. unfold id. lia.
Qed.

Lemma groupby_sizes (by_ : A → K) (df : list A) :
  sum_list ((λ g, length g.2) <$> pd.groupby le by_ df) = length df.
Proof.
  unfold pd.groupby. rewrite <-list_fmap_compose.
  apply sum_group_sizes.
  - rewrite merge_sort_Permutation. apply NoDup_remove_dups.
  - intros row Hrow.
    rewrite merge_sort_Permutation, elem_of_remove_dups, list_elem_of_fmap.
    eauto.
Qed.

End grouped.

Section build_graphs_facts.
Import analyze_node_degrees.

(** The table after the two joins, when [mean_coords] has at most one row
    for a block. *)
Lemma merged_unique (df : list trip) (mean_coords : list mean_coord) :
  NoDup (BCTCB2010 <$> mean_coords) →
  pd.merge_left (λ r, df_BCTCB2010_y r.1) BCTCB2010
    (pd.merge_left df_BCTCB2010_x BCTCB2010 df mean_coords) mean_coords
  = (λ t, (t, coords_of mean_coords (df_BCTCB2010_x t),
           coords_of mean_coords (df_BCTCB2010_y t))) <$> df.
Proof.
  intros Hnd. rewrite !merge_left_unique by done.
  by rewrite <-list_fmap_compose.
Qed.

Lemma merged_trips (df : list trip) (mean_coords : list mean_coord) (t : trip) :
  t ∈ (pd.merge_left (λ r, df_BCTCB2010_y r.1) BCTCB2010
         (pd.merge_left df_BCTCB2010_x BCTCB2010 df mean_coords)
         mean_coords).*1.*1
  ↔ t ∈ df.
Proof.
  rewrite <-(merge_left_rows df_BCTCB2010_x BCTCB2010 df mean_coords).
  set (df1 := pd.merge_left df_BCTCB2010_x _ _ _).
  split.
  - intros (r1 & -> & Hr1)%list_elem_of_fmap.
    apply (list_elem_of_fmap_2 fst).
    by apply (merge_left_rows (λ r, df_BCTCB2010_y r.1) BCTCB2010 df1) in Hr1.
  - intros (r1 & -> & Hr1)%list_elem_of_fmap.
    apply (list_elem_of_fmap_2 fst).
    by apply (merge_left_rows (λ r, df_BCTCB2010_y r.1) BCTCB2010 df1).
Qed.

Lemma build_graphs_keys (df : list trip) (mean_coords : list mean_coord) :
  stat_key <$> (build_graphs df mean_coords).1
  = merge_sort key_le (remove_dups (trip_key <$> df)).
Proof.
  unfold build_graphs. cbn [fst].
  set (df2 := pd.merge_left _ _ _ _).
  rewrite <-list_fmap_compose.
  trans (pd.groupby key_le (λ r, trip_key r.1.1) df2).*1.
  { apply list_fmap_ext. by intros _ [[[[hour day] x] y] rows] _. }
  rewrite groupby_keys. apply sorted_keys_unique; [apply _..|].
  intros k. rewrite !list_elem_of_fmap. split.
  - intros (r & -> & Hr). exists r.1.1. split; [done|].
    apply (merged_trips df mean_coords).
    by do 2 apply (list_elem_of_fmap_2 fst).
  - intros (t & -> & Ht). apply (merged_trips df mean_coords) in Ht.
    apply list_elem_of_fmap in Ht as (r1 & -> & Hr1).
    apply list_elem_of_fmap in Hr1 as (r2 & -> & Hr2). by exists r2.
Qed.

Lemma build_graphs_route_stats (df : list trip) (mean_coords : list mean_coord) :
  NoDup (BCTCB2010 <$> mean_coords) →
  (build_graphs df mean_coords).1
  = group_stats df <$> merge_sort key_le (remove_dups (trip_key <$> df)).
Proof.
  intros Hnd. unfold build_graphs. cbn [fst]. rewrite merged_unique by done.
  rewrite (groupby_fmap key_le). unfold pd.groupby.
  rewrite <-!list_fmap_compose. apply list_fmap_ext.
  intros _ [[[hour day] x] y] _. cbn. unfold trips_between.
  by rewrite <-list_fmap_compose, length_fmap.
Qed.

End build_graphs_facts.

Section route_stats_facts.
Import analyze_node_degrees.

Lemma stat_key_group_stats (df : list trip) (k : Z * string * string * string) :
  stat_key (group_stats df k) = k.
Proof. by destruct k as [[[hour day] x] y]. Qed.

Lemma elem_of_trip_keys (df : list trip) (k : Z * string * string * string) :
  k ∈ merge_sort key_le (remove_dups (trip_key <$> df))
  ↔ ∃ t, t ∈ df ∧ trip_key t = k.
Proof.
  rewrite merge_sort_Permutation, elem_of_remove_dups, list_elem_of_fmap.
  naive_solver.
Qed.

Lemma trip_keys_sorted (df : list trip) :
  StronglySorted key_lt (merge_sort key_le (remove_dups (trip_key <$> df))).
Proof.
  apply StronglySorted_strict.
  - apply StronglySorted_merge_sort; apply _.
  - rewrite merge_sort_Permutation. apply NoDup_remove_dups.
Qed.

Lemma elem_of_route_stats (df : list trip) (mean_coords : list mean_coord)
    (row : route_stat) :
  NoDup (BCTCB2010 <$> mean_coords) →
  row ∈ (build_graphs df mean_coords).1
  ↔ (∃ t, t ∈ df ∧ trip_key t = stat_key row)
    ∧ row = group_stats df (stat_key row).
Proof.
  intros Hnd. rewrite build_graphs_route_stats by done.
  rewrite list_elem_of_fmap. setoid_rewrite elem_of_trip_keys. split.
  - intros (k & -> & Hk). by rewrite stat_key_group_stats.
  - intros [Hk Hrow]. by exists (stat_key row).
Qed.

Lemma route_stats_avg_nonneg (df : list trip) (mean_coords : list mean_coord)
    (row : route_stat) :
  (∀ t, t ∈ df → 0 <= travel_time t)%Q →
  row ∈ (build_graphs df mean_coords).1 →
  (0 <= avg_travel_time row)%Q.
Proof.
  intros Hall. unfold build_graphs. cbn [fst].
  set (df2 := pd.merge_left _ _ _ _).
  intros ([[[[hour day] x] y] rows] & -> & Hg)%list_elem_of_fmap.
  cbn [avg_travel_time].
  apply elem_of_groupby in Hg as [_ ->]; [|apply _..].
  apply mean_nonneg.
  apply Forall_fmap, Forall_forall. intros r [_ Hr]%list_elem_of_filter.
  apply Hall, (merged_trips df mean_coords).
  by do 2 apply (list_elem_of_fmap_2 fst).
Qed.

End route_stats_facts.

(** X18: whatever [mean_coords] holds, the rows of the [route_stats] that
    [build_graphs] returns are in strictly ascending order of (hour, day,
    pickup block, dropoff block), so no two rows have the same key, and a
    key has a row exactly when some trip has it. *)
Theorem route_stats_keys
    (df : list analyze_node_degrees.trip)
    (mean_coords : list analyze_node_degrees.mean_coord) :
  let route_stats := (analyze_node_degrees.build_graphs df mean_coords).1 in
  StronglySorted key_lt (stat_key <$> route_stats)
  ∧ ∀ k, k ∈ stat_key <$> route_stats
         ↔ ∃ t, t ∈ df ∧ analyze_node_degrees.trip_key t = k.
Proof.
  intros route_stats. unfold route_stats. rewrite build_graphs_keys.
  split; [apply trip_keys_sorted|apply elem_of_trip_keys].
Qed.

(** X19: when [mean_coords] has at most one row for a block, a row of
    [route_stats] counts the trips that have its key and holds the mean of
    their travel times, and the counts of all rows add up to the number of
    trips. *)
Theorem route_stats_rows
    (df : list analyze_node_degrees.trip)
    (mean_coords : list analyze_node_degrees.mean_coord) :
  NoDup (analyze_node_degrees.BCTCB2010 <$> mean_coords) →
  let route_stats := (analyze_node_degrees.build_graphs df mean_coords).1 in
  (∀ row, row ∈ route_stats →
     let trips :=
       trips_between df (analyze_node_degrees.pickup_hour row)
         (analyze_node_degrees.pickup_day row)
         (analyze_node_degrees.BCTCB2010_x row)
         (analyze_node_degrees.BCTCB2010_y row) in
     trips ≠ []
     ∧ analyze_node_degrees.trip_count row = Z.of_nat (length trips)
     ∧ analyze_node_degrees.avg_travel_time row
       = pd.mean (analyze_node_degrees.travel_time <$> trips))
  ∧ foldr Z.add 0 (analyze_node_degrees.trip_count <$> route_stats)
    = Z.of_nat (length df).
Proof.
  intros Hnd route_stats. split.
  - intros row [(t & Ht & Hk) Hrow]%elem_of_route_stats; [|done].
    destruct row as [hour day x y avg n]. unfold stat_key in *. cbn in *.
    injection Hrow as -> ->. split; [|done].
    intros Hnil.
    by apply (filter_nil_not_elem_of _ _ t Hnil).
  - unfold route_stats. rewrite build_graphs_route_stats by done.
    rewrite <-(groupby_sizes analyze_node_degrees.key_le
                 analyze_node_degrees.trip_key df).
    unfold pd.groupby. rewrite <-!list_fmap_compose.
    induction (merge_sort _ _) as [|[[[hour day] x] y] ks IH]; [done|].
    rewrite !fmap_cons. cbn [foldr sum_list_with]. rewrite IH.
    cbn. unfold trips_between. lia.
Qed.

Section duplicates.
Context {A : Type} (same : relation A) `{!RelDecision same}.

Lemma drop_duplicates_after_elem (seen df : list A) (row : A) :
  row ∈ pd.drop_duplicates_after same seen df → row ∈ df.
Proof.
  revert seen. induction df as [|r df IH]; intros seen; cbn; [done|].
  destruct (decide _).
  - intros ?%IH. by right.
  - intros [->|?%IH]%elem_of_cons; [left|by right].
Qed.

Lemma drop_duplicates_after_covers `{!Reflexive same} (seen df : list A)
    (row : A) :
  row ∈ df →
  Exists (same row) seen
  ∨ Exists (same row) (pd.drop_duplicates_after same seen df).
Proof.
  revert seen. induction df as [|r df IH]; intros seen Hrow.
  { by apply elem_of_nil in Hrow. }
  cbn. apply elem_of_cons in Hrow as [->|Hrow].
  - destruct (decide _) as [Hseen|_]; [by left|].
    right. by apply Exists_cons_hd.
  - destruct (decide _) as [Hseen|_]; [by apply IH|].
    destruct (IH (r :: seen) Hrow) as [[Hr|Hs]%Exists_cons|Hres].
    + right. by apply Exists_cons_hd.
    + by left.
    + right. by apply Exists_cons_tl.
Qed.

Lemma drop_duplicates_elem (df : list A) (row : A) :
  row ∈ pd.drop_duplicates same df → row ∈ df.
Proof. apply drop_duplicates_after_elem. Qed.

Lemma drop_duplicates_covers `{!Reflexive same} (df : list A) (row : A) :
  row ∈ df → ∃ row', row' ∈ pd.drop_duplicates same df ∧ same row row'.
Proof.
  intros Hrow.
  destruct (drop_duplicates_after_covers [] df row Hrow)
    as [Hnil%Exists_nil|Hex]; [done|].
  apply Exists_exists in Hex as (row' & ? & ?). by exists row'.
Qed.

End duplicates.

Section dicts.
Context {V W : Type} (g : V → W).

Lemma dict_comprehension_dom (rows : list (string * V)) (d : gmap string W) :
  dom (foldl (λ d row, <[row.1 := g row.2]> d) d rows)
  = dom d ∪ list_to_set rows.*1.
Proof.
  revert d. induction rows as [|row rows IH]; intros d; cbn [foldl].
  - cbn. set_solver.
  - rewrite IH, dom_insert_L, fmap_cons. cbn [list_to_set]. set_solver.
Qed.

Lemma dict_comprehension_values (f : string → V) (rows : list (string * V))
    (d : gmap string W) (k : string) (v : W) :
  (∀ row, row ∈ rows → row.2 = f row.1) →
  (∀ k v, d !! k = Some v → v = g (f k)) →
  foldl (λ d row, <[row.1 := g row.2]> d) d rows !! k = Some v →
  v = g (f k).
Proof.
  revert d. induction rows as [|row rows IH]; intros d Hf Hd; cbn [foldl].
  { apply Hd. }
  apply IH; [intros; apply Hf; by right|].
  intros k' v' [[<- <-]|[_ ?]]%lookup_insert_Some; [|by apply Hd].
  by rewrite Hf by left.
Qed.

Lemma dict_comprehension_lookup (f : string → V) (rows : list (string * V))
    (k : string) :
  (∀ row, row ∈ rows → row.2 = f row.1) →
  foldl (λ d row, <[row.1 := g row.2]> d) (∅ : gmap string W) rows !! k
  = if decide (k ∈ rows.*1) then Some (g (f k)) else None.
Proof.
  intros Hf.
  pose proof (dict_comprehension_dom rows ∅) as Hdom.
  destruct (decide (k ∈ rows.*1)) as [Hk|Hk].
  - assert (Hin : k ∈ dom (foldl (λ d row, <[row.1 := g row.2]> d)
                             (∅ : gmap string W) rows)).
    { rewrite Hdom. set_solver. }
    apply elem_of_dom in Hin as [v Hv]. rewrite Hv. f_equal.
    by apply (dict_comprehension_values f rows ∅ k v).
  - apply not_elem_of_dom. rewrite Hdom. set_solver.
Qed.

End dicts.

Section positions.
Import analyze_node_degrees.

#[local] Instance same_block_refl : Reflexive same_block.
Proof. intros [b [[lat lng]|]]; unfold same_block; cbn; by repeat split. Qed.

Lemma build_graphs_positions_dom (df : list trip)
    (mean_coords : list mean_coord) :
  dom (build_graphs df mean_coords).2 = blocks df.
Proof.
  unfold build_graphs. cbn [snd]. set (df2 := pd.merge_left _ _ _ _).
  rewrite dict_comprehension_dom, dom_empty_L, (left_id_L ∅ (∪)).
  apply set_eq. intros b. rewrite elem_of_list_to_set, elem_of_blocks_trip.
  assert (Hdf2 : ∀ t, t ∈ df ↔ ∃ r, r ∈ df2 ∧ r.1.1 = t).
  { intros t. rewrite <-(merged_trips df mean_coords). fold df2.
    rewrite list_elem_of_fmap. setoid_rewrite list_elem_of_fmap. split.
    - intros (r1 & -> & r2 & -> & Hr2). by exists r2.
    - intros (r2 & Hr2 & <-). exists r2.1. split; [done|]. by exists r2. }
  split.
  - intros ([b' p] & -> & Hrow%drop_duplicates_elem)%list_elem_of_fmap.
    apply elem_of_app in Hrow as [Hrow|Hrow];
      apply list_elem_of_fmap in Hrow as (r & [= -> _] & Hr);
      (exists r.1.1; split; [apply Hdf2; by exists r|auto]).
  - intros (t & (r & Hr & <-)%Hdf2 & [<-|<-]).
    + destruct (drop_duplicates_covers same_block
                  (((λ r, (df_BCTCB2010_x r.1.1, lat_lng r.1.2)) <$> df2)
                   ++ ((λ r, (df_BCTCB2010_y r.1.1, lat_lng r.2)) <$> df2))
                  (df_BCTCB2010_x r.1.1, lat_lng r.1.2))
        as (row' & Hrow' & [Hb _]).
      { apply elem_of_app. left. apply list_elem_of_fmap. by exists r. }
      apply list_elem_of_fmap. by exists row'.
    + destruct (drop_duplicates_covers same_block
                  (((λ r, (df_BCTCB2010_x r.1.1, lat_lng r.1.2)) <$> df2)
                   ++ ((λ r, (df_BCTCB2010_y r.1.1, lat_lng r.2)) <$> df2))
                  (df_BCTCB2010_y r.1.1, lat_lng r.2))
        as (row' & Hrow' & [Hb _]).
      { apply elem_of_app. right. apply list_elem_of_fmap. by exists r. }
      apply list_elem_of_fmap. by exists row'.
Qed.

Lemma build_graphs_positions (df : list trip) (mean_coords : list mean_coord)
    (block : string) :
  NoDup (BCTCB2010 <$> mean_coords) →
  (build_graphs df mean_coords).2 !! block
  = if decide (block ∈ blocks df)
    then Some (lng_lat <$> coords_of mean_coords block)
    else None.
Proof.
  intros Hnd. pose proof (build_graphs_positions_dom df mean_coords) as Hdom.
  destruct (decide (block ∈ blocks df)) as [Hb|Hb];
    [|by apply not_elem_of_dom; rewrite Hdom].
  rewrite <-Hdom in Hb. apply elem_of_dom in Hb as [v Hv]. rewrite Hv. f_equal.
  revert Hv. unfold build_graphs. cbn [snd]. rewrite merged_unique by done.
  intros Hv.
  apply (dict_comprehension_values _
           (λ b, lat_lng (coords_of mean_coords b))) in Hv as ->.
  - by destruct (coords_of mean_coords block) as [[b lat lng]|].
  - intros row Hrow%drop_duplicates_elem.
    apply elem_of_app in Hrow as [Hrow|Hrow];
      apply list_elem_of_fmap in Hrow as (r & -> & Hr);
      by apply list_elem_of_fmap in Hr as (t & -> & _).
  - intros k v' Hk. by rewrite lookup_empty in Hk.
Qed.

End positions.

Section main_facts.
Import analyze_node_degrees.

Lemma compute_mean_coords_NoDup (df : list trip) :
  NoDup (BCTCB2010 <$> compute_mean_coords df).
Proof. rewrite compute_mean_coords_keys. apply groupby_keys_NoDup. Qed.

Lemma coords_of_elem (mean_coords : list mean_coord) (block : string) :
  block ∈ BCTCB2010 <$> mean_coords →
  ∃ c, coords_of mean_coords block = Some c
       ∧ c ∈ mean_coords ∧ BCTCB2010 c = block.
Proof.
  intros (c & -> & Hc)%list_elem_of_fmap. unfold coords_of.
  destruct (filter _ mean_coords) as [|c' cs] eqn:E.
  - by destruct (filter_nil_not_elem_of _ _ c E).
  - exists c'. split; [done|].
    assert (Hc' : c' ∈ filter (λ c0, BCTCB2010 c0 = BCTCB2010 c) mean_coords)
      by (rewrite E; left).
    by apply list_elem_of_filter in Hc' as [? ?].
Qed.

Lemma coords_of_computed (df : list trip) (block : string) :
  block ∈ blocks df →
  lng_lat <$> coords_of (compute_mean_coords df) block
  = Some (pd.mean (observed_at df block).*2, pd.mean (observed_at df block).*1).
Proof.
  intros Hb.
  destruct (coords_of_elem (compute_mean_coords df) block)
    as (c & -> & Hc & <-).
  { rewrite compute_mean_coords_keys, elem_of_groupby_keys.
    by apply elem_of_blocks. }
  apply elem_of_compute_mean_coords in Hc as (_ & Hlat & Hlng).
  cbn. unfold lng_lat. by rewrite Hlat, Hlng.
Qed.

Lemma main_positions (df : list trip) :
  ∃ positions,
    numbers (build_graphs df (compute_mean_coords df)).2 = Some positions
    ∧ ∀ block,
        positions !! block
        = if decide (block ∈ blocks df)
          then Some (pd.mean (observed_at df block).*2,
                     pd.mean (observed_at df block).*1)
          else None.
Proof.
  pose proof (build_graphs_positions df (compute_mean_coords df)) as Hbp.
  set (bp := (build_graphs df (compute_mean_coords df)).2) in *.
  eexists. split.
  - unfold numbers. rewrite decide_True; [done|].
    intros block p. rewrite Hbp by apply compute_mean_coords_NoDup.
    destruct (decide _) as [Hb|]; [|done]. intros [= <-].
    by rewrite coords_of_computed.
  - intros block. rewrite lookup_omap.
    rewrite Hbp by apply compute_mean_coords_NoDup.
    destruct (decide _) as [Hb|]; [|done]. cbn.
    by rewrite coords_of_computed.
Qed.

End main_facts.

Section main_table.
Import analyze_node_degrees.

Lemma route_stats_of_key (df : list trip) (mean_coords : list mean_coord)
    (k : Z * string * string * string) :
  (∃ row, row ∈ (build_graphs df mean_coords).1 ∧ stat_key row = k)
  ↔ ∃ t, t ∈ df ∧ trip_key t = k.
Proof.
  rewrite <-elem_of_trip_keys, <-(build_graphs_keys df mean_coords).
  rewrite list_elem_of_fmap. naive_solver.
Qed.

Lemma other_end_Some (n b : string) (row : route_stat) :
  other_end n row = Some b
  ↔ (BCTCB2010_x row = n ∧ BCTCB2010_y row = b)
    ∨ (BCTCB2010_x row ≠ n ∧ BCTCB2010_y row = n ∧ BCTCB2010_x row = b).
Proof. unfold other_end. repeat case_decide; naive_solver. Qed.

Lemma trip_other_end_Some (n b : string) (t : trip) :
  trip_other_end n t = Some b
  ↔ (df_BCTCB2010_x t = n ∧ df_BCTCB2010_y t = b)
    ∨ (df_BCTCB2010_x t ≠ n ∧ df_BCTCB2010_y t = n ∧ df_BCTCB2010_x t = b).
Proof. unfold trip_other_end. repeat case_decide; naive_solver. Qed.

Lemma distinct_neighbors_trips (df : list trip) (mean_coords : list mean_coord)
    (hour : Z) (day n : string) :
  distinct_neighbors (build_graphs df mean_coords).1 hour day n
  = trip_partners df hour day n.
Proof.
  unfold distinct_neighbors, trip_partners. apply set_eq. intros b.
  rewrite !elem_of_list_to_set, !list_elem_of_omap.
  setoid_rewrite list_elem_of_filter.
  setoid_rewrite other_end_Some. setoid_rewrite trip_other_end_Some.
  split.
  - intros (row & ([Hh Hd] & Hrow) & Hb).
    destruct (proj1 (route_stats_of_key df mean_coords (stat_key row)))
      as (t & Ht & Hk); [by exists row|].
    injection Hk as Hth Htd Htx Hty. exists t.
    rewrite Hth, Htd, Htx, Hty. done.
  - intros (t & ([Hh Hd] & Ht) & Hb).
    destruct (proj2 (route_stats_of_key df mean_coords (trip_key t)))
      as (row & Hrow & Hk); [by exists t|].
    injection Hk as Hth Htd Htx Hty. exists row. unfold in_slot.
    rewrite Hth, Htd, Htx, Hty. done.
Qed.

Lemma has_node_main (df : list trip) (mean_coords : list mean_coord)
    (positions : gmap string (Q * Q)) (hour : Z) (day n : string) :
  dom positions = blocks df →
  nx.has_node
    (slot_graph (build_graphs df mean_coords).1 positions hour day) n = true
  ↔ n ∈ blocks df.
Proof.
  intros Hdom. rewrite has_node_slot_graph, Hdom. split; [|auto].
  intros [?|(row & Hrow & _ & Hn)]; [done|].
  destruct (proj1 (route_stats_of_key df mean_coords (stat_key row)))
    as (t & Ht & Hk); [by exists row|].
  injection Hk as _ _ Htx Hty. apply elem_of_blocks_trip. exists t.
  split; [done|]. rewrite Htx, Hty. done.
Qed.

End main_table.

(** X22: [main] always has a degree table, and the table is determined by
    the trips: in the order of the loops (hour, then day, then landmark)
    it has one row for every slot and every landmark that occurs in the
    trip table at all, in whatever hour, as pickup or dropoff block; the
    degree of the row is the number of distinct other blocks with a trip
    to or from the landmark in that slot, plus two when a trip of the
    slot starts and ends at the landmark. *)
Theorem main_degree_table (df : list analyze_node_degrees.trip) :
  analyze_node_degrees.main df
  = Some (hour ← analyze_node_degrees.HOURS;
          day ← analyze_node_degrees.DAYS_OF_WEEK;
          n ← analyze_node_degrees.TARGET_NODES;
          if decide (n ∈ blocks df)
          then [analyze_node_degrees.DegreeRow
                  (analyze_node_degrees.graph_key hour day) n
                  (trip_degree df hour day n)]
          else []).
Proof.
  unfold analyze_node_degrees.main.
  destruct (main_positions df) as (positions & Hnum & Hpos).
  assert (Hdom : dom positions = blocks df).
  { apply set_eq. intros b. rewrite elem_of_dom, Hpos.
    destruct (decide _); [by split; eauto|]. split; [by intros [? ?]|done]. }
  pose proof (distinct_neighbors_trips df
                (analyze_node_degrees.compute_mean_coords df)) as Hdn.
  pose proof (λ hour day n,
                has_node_main df (analyze_node_degrees.compute_mean_coords df)
                  positions hour day n Hdom) as Hnode.
  destruct (analyze_node_degrees.build_graphs df _) as [route_stats bp].
  cbn [fst snd] in Hnum, Hdn, Hnode.
  rewrite Hnum. cbn [fmap option_fmap option_map]. f_equal.
  unfold analyze_node_degrees.compute_node_degrees.
  apply list_bind_ext; [|done]. intros hour.
  apply list_bind_ext; [|done]. intros day.
  unfold analyze_node_degrees.target_rows.
  apply list_bind_ext; [|done]. intros n.
  rewrite degree_slot_graph, Hdn. fold (trip_degree df hour day n).
  specialize (Hnode hour day n).
  destruct (nx.has_node _ n), (decide (n ∈ blocks df)); naive_solver.
Qed.

Section last_of_two.
Context {K : Type} `{EqDecision K} (le : relation K) `{!PartialOrder le}.

Lemma last_filter_two (ks : list K) (k1 k2 : K) :
  StronglySorted (λ a b, le a b ∧ a ≠ b) ks →
  le k1 k2 →
  last (filter (λ k, k = k1 ∨ k = k2) ks)
  = if decide (k2 ∈ ks) then Some k2
    else if decide (k1 ∈ ks) then Some k1 else None.
Proof.
  intros Hs H12. induction Hs as [|k ks Hs IH Hk]; [done|].
  rewrite Forall_forall in Hk.
  rewrite filter_cons. destruct (decide (k = k1 ∨ k = k2)) as [Hp|Hp].
  - rewrite last_cons, IH. clear IH.
    assert (Hnot : k ∉ ks) by (by intros [_ ?]%Hk).
    destruct (decide (k = k2)) as [->|Hne2].
    + rewrite (decide_False (P := k2 ∈ ks)) by done.
      rewrite (decide_True (P := k2 ∈ k2 :: ks)) by left.
      destruct (decide (k1 ∈ ks)) as [[H21 Hne]%Hk|_]; [|done].
      destruct Hne. by apply (anti_symm le).
    + destruct Hp as [-> | ->]; [|done].
      rewrite (decide_False (P := k1 ∈ ks)) by done.
      destruct (decide (k2 ∈ ks)) as [H2|H2].
      * by rewrite decide_True by by right.
      * rewrite (decide_False (P := k2 ∈ k1 :: ks)).
        -- by rewrite decide_True by left.
        -- intros [->|?]%elem_of_cons; tauto.
  - rewrite IH. clear IH.
    destruct (decide (k2 ∈ ks)) as [H2|H2].
    { by rewrite decide_True by by right. }
    rewrite (decide_False (P := k2 ∈ k :: ks))
      by (intros [->|?]%elem_of_cons; tauto).
    destruct (decide (k1 ∈ ks)) as [H1|H1].
    { by rewrite decide_True by by right. }
    by rewrite (decide_False (P := k1 ∈ k :: ks))
      by (intros [->|?]%elem_of_cons; tauto).
Qed.

End last_of_two.

Section directions.
Import analyze_node_degrees.

Lemma trips_between_elem (df : list trip) (hour : Z) (day x y : string) :
  (hour, day, x, y) ∈ merge_sort key_le (remove_dups (trip_key <$> df))
  ↔ trips_between df hour day x y ≠ [].
Proof.
  rewrite elem_of_trip_keys. unfold trips_between. split.
  - intros (t & Ht & Hk) Hnil. by apply (filter_nil_not_elem_of _ _ t Hnil).
  - intros Hne. destruct (filter _ df) as [|t ts] eqn:E; [done|].
    assert (Ht : t ∈ filter (λ t, trip_key t = (hour, day, x, y)) df)
      by (rewrite E; left).
    apply list_elem_of_filter in Ht as [? ?]. by exists t.
Qed.

Lemma key_le_blocks (hour : Z) (day x y : string) :
  String.le x y → key_le (hour, day, x, y) (hour, day, y, x).
Proof.
  intros Hxy. unfold key_le, pd.lex. cbn.
  destruct (decide (x = y)) as [->|Hne].
  - right. split; [done|]. done.
  - left. split; [congruence|]. right. done.
Qed.

Lemma last_joining_route_stats (df : list trip)
    (mean_coords : list mean_coord) (hour : Z) (day x y : string) :
  NoDup (BCTCB2010 <$> mean_coords) →
  String.le x y →
  last_joining (build_graphs df mean_coords).1 hour day x y
  = match trips_between df hour day y x, trips_between df hour day x y with
    | (_ :: _) as back, _ => Some (pd.mean (travel_time <$> back))
    | [], (_ :: _) as there => Some (pd.mean (travel_time <$> there))
    | [], [] => None
    end.
Proof.
  intros Hnd Hxy. unfold last_joining.
  rewrite build_graphs_route_stats by done.
  rewrite list_filter_filter, filter_fmap.
  rewrite (list_filter_iff _ (λ k, k = (hour, day, x, y) ∨ k = (hour, day, y, x))).
  2:{ intros [[[h d] a] b]. unfold joins, in_slot. cbn. naive_solver. }
  rewrite fmap_last.
  rewrite (last_filter_two key_le) by (apply trip_keys_sorted || by apply key_le_blocks).
  destruct (decide _) as [H2|H2].
  - apply trips_between_elem in H2. cbn.
    by destruct (trips_between df hour day y x).
  - destruct (trips_between df hour day y x) as [|t ts] eqn:Eb.
    2:{ destruct H2. apply trips_between_elem. by rewrite Eb. }
    destruct (decide _) as [H1|H1].
    + apply trips_between_elem in H1. cbn.
      by destruct (trips_between df hour day x y).
    + destruct (trips_between df hour day x y) as [|t ts] eqn:Et; [done|].
      destruct H1. apply trips_between_elem. by rewrite Et.
Qed.

End directions.

(** X21: when [mean_coords] has at most one row for a block, the
    [block_positions] of [build_graphs] has a key for every block of the
    trip table and no other; the value is the pair (longitude, latitude) of
    the block's row in [mean_coords], and NaN when it has no row there. *)
Theorem block_positions_of_build_graphs
    (df : list analyze_node_degrees.trip)
    (mean_coords : list analyze_node_degrees.mean_coord) :
  NoDup (analyze_node_degrees.BCTCB2010 <$> mean_coords) →
  let block_positions := (analyze_node_degrees.build_graphs df mean_coords).2 in
  dom block_positions = blocks df
  ∧ ∀ block, block ∈ blocks df →
      block_positions !! block = Some (lng_lat <$> coords_of mean_coords block).
Proof.
  intros Hnd block_positions. split; [apply build_graphs_positions_dom|].
  intros block Hb. unfold block_positions.
  rewrite build_graphs_positions by done. by rewrite decide_True.
Qed.

(** X23: with the [mean_coords] that [compute_mean_coords] gives for the
    same trip table, as in [main], no position of [block_positions] is NaN:
    every block of the trip table has the pair of its mean longitude and
    its mean latitude, in this order, over all pickups at and dropoffs at
    the block. *)
Theorem main_block_positions
    (df : list analyze_node_degrees.trip) (block : string) :
  (analyze_node_degrees.build_graphs df
     (analyze_node_degrees.compute_mean_coords df)).2 !! block
  = if decide (block ∈ blocks df)
    then Some (Some (pd.mean (observed_at df block).*2,
                     pd.mean (observed_at df block).*1))
    else None.
Proof.
  rewrite build_graphs_positions by apply compute_mean_coords_NoDup.
  destruct (decide _) as [Hb|]; [|done].
  by rewrite coords_of_computed.
Qed.

(** X24: when [mean_coords] has at most one row for a block, the weight
    that a slot graph of [compute_node_degrees] gets from the
    [route_stats] of [build_graphs] between two blocks [x] and [y], [x]
    not after [y] in the order of strings, is the mean travel time of the
    slot's trips from [y] to [x] when there are any; the trips from [x] to
    [y] count only when there is no trip back; without any trip between
    them there is no edge. *)
Theorem later_block_direction_wins
    (df : list analyze_node_degrees.trip)
    (mean_coords : list analyze_node_degrees.mean_coord)
    (block_positions : gmap string (Q * Q)) (hour : Z) (day x y : string) :
  NoDup (analyze_node_degrees.BCTCB2010 <$> mean_coords) →
  String.le x y →
  let route_stats := (analyze_node_degrees.build_graphs df mean_coords).1 in
  let G :=
    analyze_node_degrees.slot_graph route_stats block_positions hour day in
  nx.neighbors G x !! y
  = match trips_between df hour day y x, trips_between df hour day x y with
    | (_ :: _) as back, _ =>
        Some (pd.mean (analyze_node_degrees.travel_time <$> back))
    | [], (_ :: _) as there =>
        Some (pd.mean (analyze_node_degrees.travel_time <$> there))
    | [], [] => None
    end.
Proof.
  intros Hnd Hxy route_stats G. unfold G, route_stats.
  rewrite slot_graph_neighbors. by apply last_joining_route_stats.
Qed.

Lemma route_stats_rows_witness :
  foldr Z.add 0
    (analyze_node_degrees.trip_count
       <$> (analyze_node_degrees.build_graphs sample_trips
              (analyze_node_degrees.compute_mean_coords sample_trips)).1)
  = 4.
Proof.
  apply (route_stats_rows sample_trips
           (analyze_node_degrees.compute_mean_coords sample_trips)).
  apply (bool_decide_unpack _). by vm_compute.
Defined.

Lemma block_positions_of_build_graphs_witness :
  (analyze_node_degrees.build_graphs sample_trips
     [analyze_node_degrees.MeanCoord "10113001008" 41 (-74)]).2
    !! "10076001001"
  = Some None.
Proof.
  apply (block_positions_of_build_graphs sample_trips
           [analyze_node_degrees.MeanCoord "10113001008" 41 (-74)]).
  - apply (bool_decide_unpack _). by vm_compute.
  - apply (bool_decide_unpack _). by vm_compute.
Defined.

Lemma later_block_direction_wins_witness :
  nx.neighbors
    (analyze_node_degrees.slot_graph
       (analyze_node_degrees.build_graphs sample_trips
          (analyze_node_degrees.compute_mean_coords sample_trips)).1
       ∅ 10 "Monday")
    "10076001001" !! "10113001008"
  = Some (pd.mean [10; 30]%Q).
Proof.
  apply (later_block_direction_wins sample_trips
           (analyze_node_degrees.compute_mean_coords sample_trips) ∅ 10
           "Monday" "10076001001" "10113001008").
  - apply (bool_decide_unpack _). by vm_compute.
  - by vm_compute.
Defined.

(** Without that condition the counts are not those of the trips: a block
    with two rows in [mean_coords] doubles the rows of its trips. *)
Example duplicate_block_doubles_the_count :
  analyze_node_degrees.trip_count
    <$> (analyze_node_degrees.build_graphs
           [analyze_node_degrees.Trip 10 "Monday" "10113001008" "10076001001"
              10 41 (-74) 40 (-73)]
           [analyze_node_degrees.MeanCoord "10113001008" 41 (-74);
            analyze_node_degrees.MeanCoord "10113001008" 41 (-74)]).1
  = [2].
Proof. reflexivity. Qed.

Section splitting.

Lemma str_split_length (sep : Ascii.ascii) (s : string) :
  length (str_split sep s) = S (length (filter (λ c, c = sep) (chars s))).
Proof.
  induction s as [|c s IH]; [done|]. cbn [str_split chars].
  rewrite filter_cons. destruct (decide (c = sep)); cbn [length].
  - by rewrite IH.
  - destruct (str_split sep s); cbn [length] in *; done.
Qed.

Lemma str_split_no_sep (sep : Ascii.ascii) (s : string) :
  sep ∉ chars s → str_split sep s = [s].
Proof.
  induction s as [|c s IH]; [done|]. cbn [str_split chars].
  intros Hs. rewrite decide_False by (intros ->; apply Hs; left).
  rewrite IH; [done|]. intros ?. apply Hs. by right.
Qed.

Lemma str_split_app (sep : Ascii.ascii) (s1 s2 : string) :
  sep ∉ chars s1 →
  str_split sep (s1 +:+ String sep s2) = s1 :: str_split sep s2.
Proof.
  induction s1 as [|c s1 IH]; cbn [chars]; intros Hs.
  - change (EmptyString +:+ String sep s2) with (String sep s2).
    cbn [str_split]. by rewrite decide_True.
  - change (String c s1 +:+ String sep s2)
      with (String c (s1 +:+ String sep s2)).
    cbn [str_split]. rewrite decide_False by (intros ->; apply Hs; left).
    rewrite IH; [done|]. intros ?. apply Hs. by right.
Qed.

End splitting.

(** X25: splitting a slot key of the degree table at "_", as [load_data]
    of the final analysis does, gives the decimal hour followed by the
    pieces of the day; these are exactly the two pieces hour and day when,
    and only when, the day has no underscore. *)
Theorem graph_column_splits (hour : Z) (day : string) :
  let key := analyze_node_degrees.graph_key hour day in
  final_analysis.graph_pieces key = pretty hour :: str_split underscore day
  ∧ (final_analysis.graph_pieces key = [pretty hour; day]
     ↔ underscore ∉ chars day).
Proof.
  intros key.
  assert (Hkey : final_analysis.graph_pieces key
                 = pretty hour :: str_split underscore day).
  { unfold key, final_analysis.graph_pieces, analyze_node_degrees.graph_key.
    change ("_" +:+ day) with (String underscore day).
    apply str_split_app, pretty_Z_no_underscore. }
  split; [done|]. rewrite Hkey. split.
  - intros [= Hday] Hin.
    pose proof (str_split_length underscore day) as Hlen.
    rewrite Hday in Hlen. cbn [length] in Hlen.
    destruct (filter _ (chars day)) as [|c cs] eqn:E; [|done].
    by apply (filter_nil_not_elem_of _ _ underscore E).
  - intros Hday. by rewrite str_split_no_sep.
Qed.

(** X26: when the slot graph of a completed leg has no edge of negative
    weight, the time that [calculate_route_time] adds to [time_on_road] for
    the leg is the total weight of some chain of edges from the origin of
    the leg to its destination in that graph, and no chain of edges between
    them in that graph weighs less. *)
Theorem each_leg_takes_a_shortest_way
    (graphs : gmap string nx.Graph) (route : list string) (start_time : Z)
    (day : string) (k : nat) (st st' : analyze_routes.sim_state)
    (from_block to_block : string) (G : nx.Graph) :
  after_legs graphs start_time day route k = Next st →
  after_legs graphs start_time day route (S k) = Next st' →
  analyze_routes.legs route !! k = Some (from_block, to_block) →
  graphs !! analyze_routes.graph_key
              (analyze_routes.current_hour start_time
                 (analyze_routes.total_time st)) day = Some G →
  nonneg G →
  let cost :=
    (analyze_routes.time_on_road st' - analyze_routes.time_on_road st)%Q in
  (∃ vs d, walk G from_block vs to_block d ∧ (cost == d)%Q)
  ∧ ∀ vs d, walk G from_block vs to_block d → (cost <= d)%Q.
Proof.
  intros Hk HSk Hleg HG Hnn cost.
  rewrite (after_legs_S _ _ _ _ _ _ Hleg), Hk in HSk.
  apply leg_Next in HSk as (G' & path_time & HG' & _ & Hpath & ->).
  rewrite HG in HG'. injection HG' as <-.
  assert (Hcost : (cost == path_time)%Q).
  { unfold cost, arrive. cbn [analyze_routes.time_on_road]. ring. }
  split.
  - destruct (dijkstra_Ok_walk _ _ _ _ Hpath) as (vs & d & Hwalk & Hd).
    exists vs, d. split; [done|]. by rewrite Hcost.
  - intros vs d Hwalk. rewrite Hcost.
    by apply (dijkstra_Ok_least G from_block to_block path_time vs d).
Qed.

Lemma each_leg_takes_a_shortest_way_witness :
  ∃ vs d,
    walk two_edges "10113001008" vs "10076001001" d ∧ (15 - 0 == d)%Q.
Proof.
  apply (each_leg_takes_a_shortest_way monday_graphs route_1 10 "Monday" 0
           (analyze_routes.SimState 0 0 [10])
           (analyze_routes.SimState 135 15 [10; 12])
           "10113001008" "10076001001" two_edges).
  - reflexivity.
  - by vm_compute.
  - reflexivity.
  - reflexivity.
  - unfold two_edges. repeat apply nonneg_add_edge; (done || apply nonneg_empty).
Defined.

(** * Slots, shortest paths and rounding *)

Section slots_and_costs.

Import analyze_routes.

Implicit Types (graphs : gmap string nx.Graph) (start_time : Z)
  (day : string) (st : sim_state) (G : nx.Graph).





(** The key under which a leg looks up its graph is the key of the slot of
    the hour floor(start_time + total_time/60) mod 24. *)
Lemma leg_slot_key start_time day (t : Q) :
  graph_key (current_hour start_time t) day
  = slot_key (floor_hour start_time t) day.
Proof. by rewrite current_hour_floor. Qed.


Lemma all_nonneg_singleton key G : nonneg G → all_nonneg {[ key := G ]}.
Proof. intros HG key' G' [_ <-]%lookup_singleton_Some. done. Qed.

Lemma nonneg_isolated_landmarks : nonneg isolated_landmarks.
Proof.
  unfold isolated_landmarks. repeat apply nonneg_add_node. apply nonneg_empty.
Qed.



End slots_and_costs.

(** C2, amended: when no weight of a slot graph is negative and the slot
    graph of a leg exists and is not empty but the leg's blocks are not
    connected in it, the exception raised by the shortest-path call
    ([NetworkXNoPath], or [NodeNotFound] when the origin is not a node of
    the graph) leaves [calculate_route_time], and [evaluate_routes], which
    has no handler, raises as well whenever the combination is in its
    sweep: the caller gets no table. *)
Theorem no_path_is_raised
    (graphs : gmap string nx.Graph) (route : list string) (start_time : Z)
    (day : string) (k : nat) (st : analyze_routes.sim_state)
    (from_block to_block : string) (G : nx.Graph) :
  all_nonneg graphs →
  after_legs graphs start_time day route k = Next st →
  analyze_routes.legs route !! k = Some (from_block, to_block) →
  graphs !! slot_key (floor_hour start_time (analyze_routes.total_time st)) day
    = Some G →
  nx.truthy G = true →
  ¬ connected G from_block to_block →
  analyze_routes.calculate_route_time route start_time day graphs
    = Raise (if nx.has_node G from_block
             then NetworkXNoPath from_block to_block
             else NodeNotFound from_block)
  ∧ ∀ idx,
      (start_time, day, (idx, route)) ∈ combinations →
      ∃ e, analyze_routes.evaluate_routes graphs = Raise e.
Proof.
  intros _ Hk Hleg HG Ht Hp%dijkstra_not_connected.
  rewrite <-leg_slot_key in HG.
  set (e := if nx.has_node G from_block then _ else _) in *.
  assert (Hc : analyze_routes.calculate_route_time route start_time day graphs
               = Raise e).
  { pose proof (run_decided graphs start_time day route k st
                  (from_block, to_block) Hk Hleg) as H.
    assert (E : analyze_routes.leg graphs start_time day
                  (from_block, to_block) st = Throw e).
    { apply leg_Throw. by exists G. }
    by rewrite E in H. }
  split; [done|]. intros idx Hin.
  destruct (sweep_raises graphs start_time day idx route combinations [] _
              Hin Hc) as [e' He].
  exists e'. by rewrite evaluate_routes_sweep, He.
Qed.

Lemma no_path_is_raised_witness :
  let graphs : gmap string nx.Graph := {[ "10_Monday" := isolated_landmarks ]} in
  analyze_routes.calculate_route_time route_1 10 "Monday" graphs
  = Raise (NetworkXNoPath "10113001008" "10076001001")
  ∧ ∃ e, analyze_routes.evaluate_routes graphs = Raise e.
Proof.
  intros graphs.
  destruct (no_path_is_raised graphs route_1 10 "Monday" 0
              (analyze_routes.initial 10) "10113001008" "10076001001"
              isolated_landmarks) as [Hc Hsweep].
  - apply all_nonneg_singleton, nonneg_isolated_landmarks.
  - reflexivity.
  - reflexivity.
  - reflexivity.
  - vm_compute. reflexivity.
  - apply isolated_not_connected; [vm_compute; reflexivity | discriminate].
  - split; [exact Hc|]. apply (Hsweep 1).
    vm_compute. apply list_elem_of_here.
Defined.



(** C5: the hour under which a leg looks up its slot graph is
    floor(start_time + total_time/60) mod 24, a number from 0 to 23 whatever
    the elapsed time, and the leg is decided by what the mapping holds under
    the key of that hour and nothing else: without a graph there, or with
    an empty one, the attempt is given up; otherwise the shortest-path call
    on that graph gives the path time or the exception of the leg. *)
Theorem slot_hour_wraps
    (graphs : gmap string nx.Graph) (start_time : Z) (day : string)
    (from_block to_block : string) (st : analyze_routes.sim_state)
    (slot : option nx.Graph) :
  let hour := floor_hour start_time (analyze_routes.total_time st) in
  graphs !! slot_key hour day = slot →
  0 ≤ hour < 24
  ∧ analyze_routes.current_hour start_time (analyze_routes.total_time st)
    = hour
  ∧ analyze_routes.leg graphs start_time day (from_block, to_block) st
    = match slot with
      | None => Return None
      | Some G =>
          if nx.truthy G
          then match nx.dijkstra_path_length G from_block to_block with
               | Ok path_time =>
                   Next (arrive start_time to_block path_time st)
               | Raise e => Throw e
               end
          else Return None
      end.
Proof.
  intros hour Hslot. unfold hour in *.
  rewrite <-current_hour_floor. split; [apply current_hour_range|].
  split; [done|].
  rewrite <-leg_slot_key in Hslot. unfold analyze_routes.leg. rewrite Hslot.
  destruct slot as [G|]; [|done].
  destruct (nx.truthy G); cbn [negb]; [|done].
  by destruct (nx.dijkstra_path_length G from_block to_block).
Qed.

(** A run that passes midnight: starting at 21 on a Monday, ten minutes to
    the MET and three hours there bring the second leg to hour 24, that is
    hour 0; the leg is routed in the graph under "0_Monday", where the way
    to the Empire State Building takes 7 minutes, not in the graph under
    "24_Monday", where there is none. *)
Lemma slot_hour_wraps_witness :
  let st := analyze_routes.SimState 190 10 [21; 0] in
  analyze_routes.current_hour 21 (analyze_routes.total_time st) = 0
  ∧ analyze_routes.leg night_graphs 21 "Monday"
      ("10143001021", "10076001001") st
    = Next (arrive 21 "10076001001" 7 st).
Proof.
  intros st.
  destruct (slot_hour_wraps night_graphs 21 "Monday" "10143001021"
              "10076001001" st (Some night)) as (_ & Hhour & Hleg).
  - reflexivity.
  - split; [exact Hhour|]. rewrite Hleg. by vm_compute.
Defined.

(** X2: when no weight of a slot graph is negative, the only exceptions
    that leave [calculate_route_time] are those of the shortest-path call
    of a leg the walk reaches, in a slot graph that exists and has nodes:
    [NodeNotFound] when the origin is not a node of that graph,
    [NetworkXNoPath] when it is but no chain of edges leads to the
    destination. *)
Theorem raises_only_path_errors
    (graphs : gmap string nx.Graph) (route : list string) (start_time : Z)
    (day : string) (e : exn) :
  all_nonneg graphs →
  analyze_routes.calculate_route_time route start_time day graphs = Raise e
  ↔ ∃ k st from_block to_block G,
      after_legs graphs start_time day route k = Next st
      ∧ analyze_routes.legs route !! k = Some (from_block, to_block)
      ∧ graphs !! slot_key
                    (floor_hour start_time (analyze_routes.total_time st)) day
        = Some G
      ∧ nx.len G ≠ 0%nat
      ∧ leg_fails G from_block to_block e.
Proof.
  intros _. setoid_rewrite <-leg_slot_key. split.
  - unfold analyze_routes.calculate_route_time.
    destruct (for_in _ _ _) as [st|r|e'] eqn:Hrun; [done..|].
    intros [= ->].
    apply for_in_Throw_inv in Hrun as (k & [a b] & st & Hk & Hrun & Hleg).
    apply leg_Throw in Hleg as (G & HG & Ht%truthy_true_len & Hp%dijkstra_Raise).
    by exists k, st, a, b, G.
  - intros (k & st & a & b & G & Hk & Hleg & HG & Ht%truthy_true_len
            & Hp%dijkstra_Raise).
    pose proof (run_decided graphs start_time day route k st (a, b) Hk Hleg) as H.
    assert (E : analyze_routes.leg graphs start_time day (a, b) st = Throw e).
    { apply leg_Throw. by exists G. }
    by rewrite E in H.
Qed.

Lemma raises_only_path_errors_witness :
  let graphs : gmap string nx.Graph := {[ "10_Monday" := isolated_landmarks ]} in
  ∃ k st from_block to_block G,
    after_legs graphs 10 "Monday" route_1 k = Next st
    ∧ analyze_routes.legs route_1 !! k = Some (from_block, to_block)
    ∧ graphs !! slot_key (floor_hour 10 (analyze_routes.total_time st)) "Monday"
      = Some G
    ∧ nx.len G ≠ 0%nat
    ∧ leg_fails G from_block to_block
        (NetworkXNoPath "10113001008" "10076001001").
Proof.
  intros graphs.
  apply (raises_only_path_errors graphs route_1 10 "Monday"
           (NetworkXNoPath "10113001008" "10076001001")).
  - apply all_nonneg_singleton, nonneg_isolated_landmarks.
  - by vm_compute.
Defined.

(** ** The running totals in binary64 *)

Section binary64.

Import analyze_routes_binary64.

Lemma time_on_road_foldl (l : list (string * string * float)) (st : totals) :
  time_on_road (foldl (λ st leg_time, leg leg_time.1 leg_time.2 st) st l)
  = foldl PrimFloat.add (time_on_road st) l.*2.
Proof.
  revert st. induction l as [|[[a b] path_time] l IH]; intros st; [done|].
  cbn [foldl fmap list_fmap]. by rewrite IH.
Qed.

Lemma add_visit_time_dwell64 (to_block : string) (t : float) :
  add_visit_time to_block t
  = match dwell64 to_block with
    | Some d => (t + d)%float
    | None => t
    end.
Proof.
  unfold add_visit_time, dwell64. rewrite !bool_decide_decide.
  by repeat case_decide.
Qed.

(** One more path time is one more leg, when the route has one. *)
Lemma zip_one_more {A B : Type} (l : list A) (k : list B) (x : A) (y : B) :
  l !! length k = Some x →
  zip l (k ++ [y]) = zip l k ++ [(x, y)].
Proof.
  revert l. induction k as [|z k IH]; intros [|a l]; cbn; try done.
  - intros [= ->]. by destruct l.
  - intros H. by rewrite IH.
Qed.

End binary64.

(** C4, as stated, fails in the arithmetic of the code: on route 1 with
    path times of 12.35 and 8.45 minutes, [total_time] ends as
    320.79999999999995 and [time_on_road] as 20.799999999999997; adding
    the dwells of 120 and 180 minutes to [time_on_road], in either order,
    gives 320.80000000000001, which is another number. *)
Lemma rounding_separates_the_totals :
  let st :=
    analyze_routes_binary64.after_legs route_1 [12.35%float; 8.45%float] in
  analyze_routes_binary64.total_time st = 320.79999999999995%float
  ∧ analyze_routes_binary64.time_on_road st = 20.799999999999997%float
  ∧ (analyze_routes_binary64.time_on_road st + (120 + 180)
     = 320.80000000000001)%float
  ∧ (analyze_routes_binary64.total_time st
     =? analyze_routes_binary64.time_on_road st + (120 + 180))%float = false
  ∧ (analyze_routes_binary64.total_time st
     =? analyze_routes_binary64.time_on_road st + 120 + 180)%float = false.
Proof. repeat split; by vm_compute. Qed.

(** C4, amended: each leg adds its path time to both running totals and
    then the dwell of its destination block (30, 120 or 180 minutes at a
    landmark, nothing elsewhere) to [total_time] alone, so [time_on_road]
    is the sum of the path times and no dwell ever enters it; after the
    first leg [total_time] is exactly [time_on_road] plus the dwell of that
    leg's destination. *)
Theorem dwell_is_added_to_total_time_only
    (route : list string) (path_times : list float)
    (from_block to_block : string) (path_time : float) :
  analyze_routes.legs route !! length path_times
    = Some (from_block, to_block) →
  let st := analyze_routes_binary64.after_legs route path_times in
  let st' :=
    analyze_routes_binary64.after_legs route (path_times ++ [path_time]) in
  analyze_routes_binary64.time_on_road st = sum64 path_times
  ∧ analyze_routes_binary64.time_on_road st'
    = (analyze_routes_binary64.time_on_road st + path_time)%float
  ∧ analyze_routes_binary64.total_time st'
    = match dwell64 to_block with
      | Some d => (analyze_routes_binary64.total_time st + path_time + d)%float
      | None => (analyze_routes_binary64.total_time st + path_time)%float
      end
  ∧ (path_times = [] →
     analyze_routes_binary64.total_time st'
     = match dwell64 to_block with
       | Some d => (analyze_routes_binary64.time_on_road st' + d)%float
       | None => analyze_routes_binary64.time_on_road st'
       end).
Proof.
  intros Hleg st st'. unfold st', st, analyze_routes_binary64.after_legs.
  rewrite (zip_one_more _ _ _ _ Hleg), foldl_app. cbn [foldl fst snd].
  set (s := foldl _ _ (zip _ path_times)).
  assert (Hs : analyze_routes_binary64.time_on_road s = sum64 path_times).
  { unfold s. rewrite time_on_road_foldl, snd_zip; [done|].
    apply lookup_lt_Some in Hleg. lia. }
  split; [done|]. split; [done|].
  cbn [analyze_routes_binary64.leg analyze_routes_binary64.total_time
       analyze_routes_binary64.time_on_road].
  rewrite add_visit_time_dwell64. split; [done|].
  intros ->. subst s. clear.
  destruct (analyze_routes.legs route); by destruct (dwell64 to_block).
Qed.

(** The second leg of route 1, to the MET: 8.45 minutes more on the road,
    and 180 minutes more than that in [total_time]. *)
Lemma dwell_is_added_to_total_time_only_witness :
  let st := analyze_routes_binary64.after_legs route_1 [12.35%float] in
  let st' :=
    analyze_routes_binary64.after_legs route_1 [12.35%float; 8.45%float] in
  analyze_routes_binary64.time_on_road st'
  = (analyze_routes_binary64.time_on_road st + 8.45)%float
  ∧ analyze_routes_binary64.total_time st'
    = (analyze_routes_binary64.total_time st + 8.45 + 180)%float.
Proof.
  intros st st'.
  destruct (dwell_is_added_to_total_time_only route_1 [12.35%float]
              "10076001001" "10143001021" 8.45%float) as (_ & Hroad & Htotal & _).
  - reflexivity.
  - split; [exact Hroad|exact Htotal].
Defined.

(** X20: whatever [mean_coords] holds, no row of [route_stats] has a
    negative average travel time when no trip has a negative travel
    time. *)
Theorem route_stats_avg_not_negative
    (df : list analyze_node_degrees.trip)
    (mean_coords : list analyze_node_degrees.mean_coord)
    (row : analyze_node_degrees.route_stat) :
  (∀ t, t ∈ df → 0 <= analyze_node_degrees.travel_time t)%Q →
  row ∈ (analyze_node_degrees.build_graphs df mean_coords).1 →
  (0 <= analyze_node_degrees.avg_travel_time row)%Q.
Proof.
  intros Hall Hrow. by apply (route_stats_avg_nonneg df mean_coords).
Qed.

Lemma route_stats_avg_not_negative_witness : (0 <= 40 # 2)%Q.
Proof.
  apply (route_stats_avg_not_negative sample_trips
           (analyze_node_degrees.compute_mean_coords sample_trips)
           (analyze_node_degrees.RouteStat 10 "Monday" "10113001008"
              "10076001001" (40 # 2) 2)).
  - intros t Ht. unfold sample_trips in Ht.
    repeat (apply elem_of_cons in Ht as [->|Ht]); [..|by apply elem_of_nil in Ht];
      by vm_compute.
  - apply (list_elem_of_lookup_2 _ 2%nat). reflexivity.
Defined.
